(** * RepoCode-Hub backend: the repository analysis pipeline

    A shallow embedding of [backend/server.py]: the GitHub fetcher
    ([fetch_github_repo]), the heuristic flashcard generator
    ([analyze_with_ai]), the background job ([process_repository_analysis])
    and the HTTP handlers that read and write the two MongoDB collections.

    Conventions of the embedding.
    - A Python [str] is a [string]; one [ascii] stands for one character.
    - A raised exception is a value of [exn]; code that may raise returns
      [result A = exn + A]; [try ... except Exception as e] is [try_except].
    - The process state (both collections, the queue of background tasks,
      the uuids still to come) is a [World]; handlers are state-passing
      functions in the monad [M].
    - The two collections are lists of documents in insertion order.
    - What the process does not control (the GitHub API, the clock, the
      hashes of strings) is an [Env]; a call to the API may answer or
      raise.
    - In the background task every call to the store may raise as well: a
      [Store] says, for each [await] of the task, whether the store
      carries the call out or raises, and a call that raises has written
      nothing.  A handler answers 500 when a call to the store raises and
      has then written nothing; the handlers are given with a store that
      answers, and what is proved of them is proved of such requests. *)

From Stdlib Require Import List String Ascii Arith Bool Lia.
From Stdlib Require Import DecimalString.
Import ListNotations.
Open Scope string_scope.
Open Scope list_scope.

(** ** Python strings *)

Module Str.

(** [s[:n]] *)
Fixpoint take (n : nat) (s : string) : string :=
  match n, s with
  | S n', String c s' => String c (take n' s')
  | _, _ => EmptyString
  end.

(** [s[n:]] *)
Fixpoint drop (n : nat) (s : string) : string :=
  match n, s with
  | S n', String _ s' => drop n' s'
  | _, _ => s
  end.

(** [s.startswith(p)] *)
Fixpoint startswith (p s : string) : bool :=
  match p, s with
  | EmptyString, _ => true
  | String a p', String b s' => Ascii.eqb a b && startswith p' s'
  | String _ _, EmptyString => false
  end.

(** [sep.join(l)] *)
Fixpoint join (sep : string) (l : list string) : string :=
  match l with
  | [] => ""
  | [x] => x
  | x :: tl => x ++ sep ++ join sep tl
  end.

(** [str(n)] for a non-negative [int] *)
Definition of_nat (n : nat) : string :=
  NilEmpty.string_of_uint (Nat.to_uint n).

Definition is_lower (c : ascii) : bool :=
  let n := nat_of_ascii c in ((97 <=? n) && (n <=? 122))%nat.

Definition is_upper (c : ascii) : bool :=
  let n := nat_of_ascii c in ((65 <=? n) && (n <=? 90))%nat.

Definition upper_char (c : ascii) : ascii :=
  if is_lower c then ascii_of_nat (nat_of_ascii c - 32) else c.

Definition lower_char (c : ascii) : ascii :=
  if is_upper c then ascii_of_nat (nat_of_ascii c + 32) else c.

Fixpoint map (f : ascii -> ascii) (s : string) : string :=
  match s with
  | EmptyString => EmptyString
  | String c s' => String (f c) (map f s')
  end.

(** [s.upper()] and [s.lower()], on the letters a-z and A-Z.  The
    strings the pipeline case-maps are file extensions and the language
    tags cut from them. *)
Definition upper (s : string) : string := map upper_char s.
Definition lower (s : string) : string := map lower_char s.

(** [s.replace(old, '')]: every non-overlapping occurrence of [old],
    scanning left to right, is deleted.  [skip] counts the characters of
    the occurrence being deleted that are still ahead. *)
Fixpoint delete_from (old : string) (skip : nat) (s : string) : string :=
  match s with
  | EmptyString => EmptyString
  | String c s' =>
      match skip with
      | S k => delete_from old k s'
      | O =>
          if (0 <? String.length old)%nat && startswith old s
          then delete_from old (String.length old - 1) s'
          else String c (delete_from old 0 s')
      end
  end.

Definition delete_all (old s : string) : string := delete_from old 0 s.

(** The part of [s] after its last ["/"]: [s.split('/')[-1]].  [acc]
    holds the characters read since the last separator. *)
Fixpoint last_segment_from (acc : string) (s : string) : string :=
  match s with
  | EmptyString => acc
  | String c s' =>
      if Ascii.eqb c "/" then last_segment_from "" s'
      else last_segment_from (acc ++ String c "") s'
  end.

Definition last_segment (s : string) : string := last_segment_from "" s.

(** The longest prefix of [s] without ["/"], and what follows it. *)
Fixpoint span_not_slash (s : string) : string * string :=
  match s with
  | EmptyString => ("", "")
  | String c s' =>
      if Ascii.eqb c "/" then ("", s)
      else let (a, b) := span_not_slash s' in (String c a, b)
  end.

Definition is_empty (s : string) : bool :=
  match s with EmptyString => true | _ => false end.

(** [s.rfind(c)], with [None] for Python's [-1]. *)
Fixpoint rfind (c : ascii) (s : string) : option nat :=
  match s with
  | EmptyString => None
  | String a s' =>
      match rfind c s' with
      | Some i => Some (S i)
      | None => if Ascii.eqb a c then Some 0 else None
      end
  end.

(** Some character of [s] differs from [c]. *)
Fixpoint has_other_than (c : ascii) (s : string) : bool :=
  match s with
  | EmptyString => false
  | String a s' => negb (Ascii.eqb a c) || has_other_than c s'
  end.

(** [os.path.splitext(p)[1]] of [posixpath]: the suffix of [p] from its
    last dot, when that dot lies after the last ["/"] and some character
    between the two is not a dot; the empty string otherwise. *)
Definition splitext_ext (p : string) : string :=
  match rfind "." p with
  | None => ""
  | Some dotIndex =>
      let filenameIndex :=
        match rfind "/" p with None => 0 | Some sepIndex => S sepIndex end in
      if (filenameIndex <=? dotIndex)%nat
         && has_other_than "." (take (dotIndex - filenameIndex) (drop filenameIndex p))
      then drop dotIndex p
      else ""
  end.

End Str.

(** ** Exceptions *)

Inductive exn : Type :=
| HTTPException (status_code : nat) (detail : string)
| ValueError (msg : string)
| OtherError (msg : string).   (* KeyError, aiohttp.ClientError, binascii.Error, ... *)

(** [str(e)] *)
Definition str_exn (e : exn) : string :=
  match e with
  | HTTPException c d => Str.of_nat c ++ ": " ++ d
  | ValueError m => m
  | OtherError m => m
  end.

Definition result (A : Type) : Type := (exn + A)%type.

Definition ok {A} (a : A) : result A := inr a.
Definition raise {A} (e : exn) : result A := inl e.

Definition bind_result {A B} (r : result A) (k : A -> result B) : result B :=
  match r with
  | inl e => inl e
  | inr a => k a
  end.

(** [try: body / except Exception as e: handler(e)] for code without state. *)
Definition try_except {A} (body : result A) (handler : exn -> result A) : result A :=
  match body with
  | inl e => handler e
  | inr a => inr a
  end.

(** ** The URL pattern of the fetcher *)

(** One attempt of [github\.com/([^/]+)/([^/]+)] at the start of [s].  Both
    groups are greedy runs of characters other than ["/"]; a shorter first
    group can never be followed by the ["/"] the pattern asks for, so no
    backtracking is lost. *)
Definition match_here (s : string) : option (string * string) :=
  if Str.startswith "github.com/" s then
    let (owner, rest) := Str.span_not_slash (Str.drop 11 s) in
    if Str.is_empty owner then None
    else
      match rest with
      | String _ rest' =>
          let (repo, _) := Str.span_not_slash rest' in
          if Str.is_empty repo then None else Some (owner, repo)
      | EmptyString => None
      end
  else None.

(** [re.search(r'github\.com/([^/]+)/([^/]+)', s)]: the leftmost position
    where the pattern matches; [match.groups()] of it. *)
Fixpoint re_search (s : string) : option (string * string) :=
  match match_here s with
  | Some g => Some g
  | None =>
      match s with
      | EmptyString => None
      | String _ s' => re_search s'
      end
  end.

(** Lines 138-142 of [fetch_github_repo]. *)
Definition parse_repo_url (repo_url : string) : result (string * string) :=
  match re_search (Str.delete_all ".git" repo_url) with
  | None => raise (ValueError "Invalid GitHub repository URL")
  | Some g => ok g
  end.

(** ** Data model *)

Module TreeItem.
(** One entry of [tree_data['tree']]. *)
Record t : Type := mk { type : string; path : string }.
End TreeItem.

Module SourceFile.
(** The dict appended to [files] by the fetcher. *)
Record t : Type := mk { path : string; content : string; language : string }.
End SourceFile.

Module Flashcard.
Record t : Type := mk {
  id : string;
  front : string;
  back : string;
  category : string;
  difficulty : string;
  code_snippet : option string;
  file_path : option string
}.
End Flashcard.

Module RepoData.
(** The dict returned by [fetch_github_repo]. *)
Record t : Type := mk {
  owner : string;
  repo : string;
  files : list SourceFile.t;
  total_files : nat
}.
End RepoData.

(** ** The GitHub API as seen by the fetcher *)

(** The body of a response once [await response.json()] has parsed it.  For
    a contents response, [text] is what
    [base64.b64decode(file_data['content']).decode('utf-8', errors='ignore')]
    evaluates to: a [str], or the exception of a missing key or of a payload
    that is not base64. *)
Inductive Json : Type :=
| TreeData (tree : list TreeItem.t)
| FileData (encoding : option string) (text : result string).

Record Response : Type := mkResponse {
  status : nat;
  json : result Json
}.

(** What lies outside the process: [session_get url] is the outcome of
    [session.get(url)] (an exception of the transport, or a response);
    [now] is [datetime.now()]; [str_hash s] is the place the string [s]
    takes in the table of a [set], which follows from [hash(s)] and so
    varies with PYTHONHASHSEED. *)
Record Env : Type := mkEnv {
  session_get : string -> result Response;
  now : nat;
  str_hash : string -> nat
}.

Definition code_extensions : list string :=
  [".py"; ".js"; ".jsx"; ".ts"; ".tsx"; ".java"; ".cpp"; ".c"; ".go"; ".rs";
   ".php"; ".rb"; ".swift"; ".kt"].

Definition str_in (s : string) (l : list string) : bool :=
  existsb (String.eqb s) l.

(** [ext] of line 160. *)
Definition item_ext (item : TreeItem.t) : string :=
  Str.lower (Str.splitext_ext (TreeItem.path item)).

(** The guard of lines 159-161: the entry is a blob with a listed extension. *)
Definition is_code_file (item : TreeItem.t) : bool :=
  String.eqb (TreeItem.type item) "blob" && str_in (item_ext item) code_extensions.

Definition content_url (owner repo path : string) : string :=
  "https://api.github.com/repos/" ++ owner ++ "/" ++ repo ++ "/contents/" ++ path.

Definition api_url (owner repo : string) : string :=
  "https://api.github.com/repos/" ++ owner ++ "/" ++ repo ++ "/git/trees/main?recursive=1".

(** [file_data.get('encoding')] *)
Definition get_encoding (file_data : Json) : option string :=
  match file_data with
  | FileData enc _ => enc
  | TreeData _ => None
  end.

(** [base64.b64decode(file_data['content']).decode(...)] *)
Definition decoded_content (file_data : Json) : result string :=
  match file_data with
  | FileData _ text => text
  | TreeData _ => raise (OtherError "'content'")
  end.

(** [tree_data['tree']] *)
Definition get_tree (tree_data : Json) : result (list TreeItem.t) :=
  match tree_data with
  | TreeData tree => ok tree
  | FileData _ _ => raise (OtherError "'tree'")
  end.

Definition is_base64 (enc : option string) : bool :=
  match enc with
  | Some e => String.eqb e "base64"
  | None => false
  end.

(** Lines 162-174 for one matching entry: [files] after the entry has been
    handled, or the exception that left the loop. *)
Definition fetch_item (env : Env) (owner repo : string) (item : TreeItem.t)
    (files : list SourceFile.t) : result (list SourceFile.t) :=
  let ext := item_ext item in
  bind_result (session_get env (content_url owner repo (TreeItem.path item)))
    (fun file_response =>
       if (status file_response =? 200)%nat then
         bind_result (json file_response)
           (fun file_data =>
              if is_base64 (get_encoding file_data) then
                bind_result (decoded_content file_data)
                  (fun content =>
                     ok (files ++
                         [SourceFile.mk (TreeItem.path item)
                            (Str.take 5000 content)
                            (if Str.is_empty ext then "text" else Str.drop 1 ext)]))
              else ok files)
       else ok files).

(** The loop of lines 158-174. *)
Fixpoint fetch_tree (env : Env) (owner repo : string) (tree : list TreeItem.t)
    (files : list SourceFile.t) : result (list SourceFile.t) :=
  match tree with
  | [] => ok files
  | item :: tree' =>
      if is_code_file item then
        bind_result (fetch_item env owner repo item files)
          (fun files' => fetch_tree env owner repo tree' files')
      else fetch_tree env owner repo tree' files
  end.

(** The body of the [try] of [fetch_github_repo]. *)
Definition fetch_github_repo_body (env : Env) (repo_url : string) : result RepoData.t :=
  bind_result (parse_repo_url repo_url)
    (fun '(owner, repo) =>
       bind_result (session_get env (api_url owner repo))
         (fun response =>
            if negb (status response =? 200)%nat then
              raise (ValueError "Repository not found or not accessible")
            else
              bind_result (json response)
                (fun tree_data =>
                   bind_result (get_tree tree_data)
                     (fun tree =>
                        bind_result (fetch_tree env owner repo tree [])
                          (fun files =>
                             ok (RepoData.mk owner repo (firstn 20 files) (List.length files))))))).

Definition fetch_github_repo (env : Env) (repo_url : string) : result RepoData.t :=
  try_except (fetch_github_repo_body env repo_url)
    (fun e => raise (ValueError ("Failed to fetch repository: " ++ str_exn e))).

(** ** The document store and the process state *)

Module ConfigDoc.
(** A document of [db.ai_configs]. *)
Record t : Type := mk {
  user_id : string;
  provider : string;
  model : string;
  api_key : string;
  created_at : nat
}.
End ConfigDoc.

Module AnalysisDoc.
(** A document of [db.analyses]; [error] is absent until it is set. *)
Record t : Type := mk {
  id : string;
  repo_url : string;
  user_id : string;
  status : string;
  created_at : nat;
  flashcards : list Flashcard.t;
  total_files : nat;
  languages : list string;
  error : option string
}.

(** [{"$set": {"status": s}}] *)
Definition set_status (s : string) (d : t) : t :=
  mk (id d) (repo_url d) (user_id d) s (created_at d) (flashcards d)
     (total_files d) (languages d) (error d).

(** [{"$set": {"status": "completed", "flashcards": .., "total_files": ..,
    "languages": ..}}] *)
Definition set_completed (cards : list Flashcard.t) (n : nat) (langs : list string)
    (d : t) : t :=
  mk (id d) (repo_url d) (user_id d) "completed" (created_at d) cards n langs (error d).

(** [{"$set": {"status": "failed", "error": msg}}] *)
Definition set_failed (msg : string) (d : t) : t :=
  mk (id d) (repo_url d) (user_id d) "failed" (created_at d) (flashcards d)
     (total_files d) (languages d) (Some msg).
End AnalysisDoc.

Module Task.
(** The arguments of one scheduled [process_repository_analysis]. *)
Record t : Type := mk { repo_url : string; user_id : string; analysis_id : string }.
End Task.

(** The state of the process.  [rng] is the sequence of values that
    [uuid.uuid4()] returns and [drawn] counts those already taken.
    [history] is a ghost field: the status values written to [db.analyses],
    oldest first, each with the id of the document written; no handler
    reads it. *)
Record World : Type := mkWorld {
  ai_configs : list ConfigDoc.t;
  analyses : list AnalysisDoc.t;
  background_tasks : list Task.t;
  rng : nat -> string;
  drawn : nat;
  history : list (string * string)
}.

Definition M (A : Type) : Type := World -> result A * World.

Definition ret {A} (a : A) : M A := fun w => (inr a, w).

Definition raiseM {A} (e : exn) : M A := fun w => (inl e, w).

Definition bind {A B} (m : M A) (k : A -> M B) : M B :=
  fun w =>
    match m w with
    | (inl e, w') => (inl e, w')
    | (inr a, w') => k a w'
    end.

(** [try: body / except Exception as e: handler(e)]: what [body] wrote
    before it raised stays written. *)
Definition try_exceptM {A} (body : M A) (handler : exn -> M A) : M A :=
  fun w =>
    match body w with
    | (inl e, w') => handler e w'
    | (inr a, w') => (inr a, w')
    end.

Definition lift {A} (r : result A) : M A := fun w => (r, w).

Notation "x <- m ;; k" := (bind m (fun x => k))
  (at level 61, m at next level, right associativity).
Notation "m ;;; k" := (bind m (fun _ => k))
  (at level 61, right associativity).

(** [str(uuid.uuid4())] *)
Definition uuid4 : M string :=
  fun w =>
    (inr (rng w (drawn w)),
     mkWorld (ai_configs w) (analyses w) (background_tasks w) (rng w)
             (S (drawn w)) (history w)).

(** [await db.ai_configs.find_one({"user_id": user_id})] *)
Definition ai_configs_find_one (user_id : string) : M (option ConfigDoc.t) :=
  fun w => (inr (find (fun c => String.eqb (ConfigDoc.user_id c) user_id) (ai_configs w)), w).

Fixpoint replace_first (user_id : string) (doc : ConfigDoc.t) (l : list ConfigDoc.t)
    : list ConfigDoc.t :=
  match l with
  | [] => [doc]
  | c :: l' =>
      if String.eqb (ConfigDoc.user_id c) user_id then doc :: l'
      else c :: replace_first user_id doc l'
  end.

(** [await db.ai_configs.replace_one({"user_id": user_id}, doc, upsert=True)] *)
Definition ai_configs_replace_one (user_id : string) (doc : ConfigDoc.t) : M unit :=
  fun w =>
    (inr tt,
     mkWorld (replace_first user_id doc (ai_configs w)) (analyses w)
             (background_tasks w) (rng w) (drawn w) (history w)).

(** [await db.analyses.find_one({"id": analysis_id})] *)
Definition analyses_find_one (analysis_id : string) : M (option AnalysisDoc.t) :=
  fun w => (inr (find (fun d => String.eqb (AnalysisDoc.id d) analysis_id) (analyses w)), w).

(** [await db.analyses.insert_one(doc)] *)
Definition analyses_insert_one (doc : AnalysisDoc.t) : M unit :=
  fun w =>
    (inr tt,
     mkWorld (ai_configs w) (analyses w ++ [doc]) (background_tasks w) (rng w)
             (drawn w) (history w ++ [(AnalysisDoc.id doc, AnalysisDoc.status doc)])).

(** The first document with the given id is rewritten by [upd]. *)
Fixpoint update_first (analysis_id : string) (upd : AnalysisDoc.t -> AnalysisDoc.t)
    (l : list AnalysisDoc.t) : list AnalysisDoc.t :=
  match l with
  | [] => []
  | d :: l' =>
      if String.eqb (AnalysisDoc.id d) analysis_id then upd d :: l'
      else d :: update_first analysis_id upd l'
  end.

(** The calls of the background task to the store, one for each [await]
    on it. *)
Inductive StoreCall : Type :=
| UpdateProcessing   (* line 236: update_one, status processing *)
| FindConfig         (* line 242: find_one on ai_configs *)
| UpdateCompleted    (* line 253: update_one, status completed and results *)
| UpdateFailed.      (* line 264: update_one, status failed and error *)

(** What the store does with each call of one run of the task: [None], it
    carries the call out; [Some e], the call raises [e] (the server cannot
    be reached, the operation is refused, ...) and nothing is written. *)
Definition Store : Type := StoreCall -> option exn.

(** The store carries out every call. *)
Definition store_answers (db : Store) : Prop := forall call, db call = None.

(** Every exception of the store has a text, as those of the driver do. *)
Definition store_texts (db : Store) : Prop :=
  forall call e, db call = Some e -> str_exn e <> "".

Definition answering : Store := fun _ => None.

(** [await] on the store at [call]: the exception of the store, or what
    the operation [m] does. *)
Definition awaited {A} (db : Store) (call : StoreCall) (m : M A) : M A :=
  fun w =>
    match db call with
    | Some e => (inl e, w)
    | None => m w
    end.

(** The store after [update_one({"id": analysis_id}, {"$set": ...})] has
    been carried out, for an update that sets [status]: no document with
    that id, nothing written. *)
Definition after_update (analysis_id : string) (upd : AnalysisDoc.t -> AnalysisDoc.t)
    (w : World) : World :=
  match find (fun d => String.eqb (AnalysisDoc.id d) analysis_id) (analyses w) with
  | None => w
  | Some d =>
      mkWorld (ai_configs w) (update_first analysis_id upd (analyses w))
              (background_tasks w) (rng w) (drawn w)
              (history w ++ [(analysis_id, AnalysisDoc.status (upd d))])
  end.

(** [await db.analyses.update_one({"id": analysis_id}, {"$set": ...})] at
    [call]. *)
Definition analyses_update_one (db : Store) (call : StoreCall) (analysis_id : string)
    (upd : AnalysisDoc.t -> AnalysisDoc.t) : M unit :=
  awaited db call (fun w => (inr tt, after_update analysis_id upd w)).

(** [background_tasks.add_task(process_repository_analysis, ...)] *)
Definition add_task (t : Task.t) : M unit :=
  fun w =>
    (inr tt,
     mkWorld (ai_configs w) (analyses w) (background_tasks w ++ [t]) (rng w)
             (drawn w) (history w)).

(** ** The analysis step *)

(** A [dict] from language to files, in insertion order. *)
Definition Groups : Type := list (string * list SourceFile.t).

Fixpoint dict_get (k : string) (d : Groups) : option (list SourceFile.t) :=
  match d with
  | [] => None
  | (k', v) :: d' => if String.eqb k' k then Some v else dict_get k d'
  end.

(** [d[k] = v]: a present key keeps its place, a new key goes last. *)
Fixpoint dict_set (k : string) (v : list SourceFile.t) (d : Groups) : Groups :=
  match d with
  | [] => [(k, v)]
  | (k', v') :: d' =>
      if String.eqb k' k then (k', v) :: d' else (k', v') :: dict_set k v d'
  end.

(** One round of the loop of lines 195-199. *)
Definition group_file (languages : Groups) (file : SourceFile.t) : Groups :=
  let lang := SourceFile.language file in
  let languages :=
    match dict_get lang languages with
    | None => dict_set lang [] languages
    | Some _ => languages
    end in
  match dict_get lang languages with
  | Some lang_files => dict_set lang (lang_files ++ [file]) languages
  | None => languages
  end.

Definition group_by_language (files : list SourceFile.t) : Groups :=
  fold_left group_file files [].

(** The card of lines 204-212. *)
Definition architecture_card (id lang : string) (lang_files : list SourceFile.t)
    : Flashcard.t :=
  Flashcard.mk id
    ("What is the overall architecture of this " ++ Str.upper lang ++ " application?")
    ("This application uses " ++ Str.upper lang ++ " with "
       ++ Str.of_nat (List.length lang_files) ++ " files. Key components include: "
       ++ Str.join ", "
            (map (fun f => Str.last_segment (SourceFile.path f)) (firstn 3 lang_files)))
    "Architecture"
    "Medium"
    (match lang_files with
     | f0 :: _ => Some (Str.take 200 (SourceFile.content f0))
     | [] => None
     end)
    (match lang_files with
     | f0 :: _ => Some (SourceFile.path f0)
     | [] => None
     end).

(** The card of lines 216-225. *)
Definition file_card (id lang : string) (file : SourceFile.t) : Flashcard.t :=
  let file_name := Str.last_segment (SourceFile.path file) in
  Flashcard.mk id
    ("What is the purpose of " ++ file_name ++ "?")
    ("This file (" ++ SourceFile.path file ++ ") contains " ++ lang
       ++ " code and appears to handle core functionality. It's part of the main application structure.")
    (Str.upper lang ++ " Files")
    "Easy"
    (Some (Str.take 300 (SourceFile.content file)))
    (Some (SourceFile.path file)).

(** The loop of lines 215-225 over [lang_files[:3]]. *)
Fixpoint file_cards (lang : string) (some_files : list SourceFile.t)
    (flashcards : list Flashcard.t) : M (list Flashcard.t) :=
  match some_files with
  | [] => ret flashcards
  | file :: rest =>
      id <- uuid4 ;;
      file_cards lang rest (flashcards ++ [file_card id lang file])
  end.

(** The loop of lines 202-225 over [languages.items()]. *)
Fixpoint language_cards (items : Groups) (flashcards : list Flashcard.t)
    : M (list Flashcard.t) :=
  match items with
  | [] => ret flashcards
  | (lang, lang_files) :: items' =>
      id <- uuid4 ;;
      flashcards' <-
        file_cards lang (firstn 3 lang_files)
          (flashcards ++ [architecture_card id lang lang_files]) ;;
      language_cards items' flashcards'
  end.

Definition analyze_with_ai (files : list SourceFile.t) (config : ConfigDoc.t)
    : M (list Flashcard.t) :=
  try_exceptM
    (language_cards (group_by_language files) [])
    (fun e => raiseM (ValueError ("AI analysis failed: " ++ str_exn e))).

(** ** The background job *)

(** The elements of [l] without repetition, each at its first occurrence.
    [seen] lists the elements met so far. *)
Fixpoint first_seen_from (seen l : list string) : list string :=
  match l with
  | [] => []
  | x :: l' =>
      if str_in x seen then first_seen_from seen l'
      else x :: first_seen_from (x :: seen) l'
  end.

(** The keys of a [dict] filled from [l]: insertion order. *)
Definition first_seen (l : list string) : list string := first_seen_from [] l.

Fixpoint insert_by (key : string -> nat) (x : string) (l : list string) : list string :=
  match l with
  | [] => [x]
  | y :: l' => if (key x <=? key y)%nat then x :: y :: l' else y :: insert_by key x l'
  end.

Definition sort_by (key : string -> nat) (l : list string) : list string :=
  fold_right (insert_by key) [] l.

(** [list(set(l))]: the distinct elements of [l], in the order of their
    places in the table of the set.  Python leaves that order open; it
    changes from one process to the next with the hashes of the strings. *)
Definition distinct (env : Env) (l : list string) : list string :=
  sort_by (str_hash env) (first_seen l).

(** The [try] body of [process_repository_analysis] after its first
    [await]: lines 241-261. *)
Definition process_rest (db : Store) (env : Env) (repo_url user_id analysis_id : string)
    : M unit :=
  config <- awaited db FindConfig (ai_configs_find_one user_id) ;;
  match config with
  | None => raiseM (ValueError "AI configuration not found")
  | Some config =>
      repo_data <- lift (fetch_github_repo env repo_url) ;;
      flashcards <- analyze_with_ai (RepoData.files repo_data) config ;;
      analyses_update_one db UpdateCompleted analysis_id
        (AnalysisDoc.set_completed flashcards (RepoData.total_files repo_data)
           (distinct env (map SourceFile.language (RepoData.files repo_data))))
  end.

(** The whole [try] body: lines 235-261. *)
Definition process_body (db : Store) (env : Env) (repo_url user_id analysis_id : string)
    : M unit :=
  analyses_update_one db UpdateProcessing analysis_id
    (AnalysisDoc.set_status "processing") ;;;
  process_rest db env repo_url user_id analysis_id.

(** The [except] branch: lines 263-267.  Its write is under no [try]: when
    it raises, the task ends with that exception. *)
Definition process_failed (db : Store) (analysis_id : string) (e : exn) : M unit :=
  analyses_update_one db UpdateFailed analysis_id (AnalysisDoc.set_failed (str_exn e)).

Definition process_repository_analysis (db : Store) (env : Env)
    (repo_url user_id analysis_id : string) : M unit :=
  try_exceptM
    (process_body db env repo_url user_id analysis_id)
    (process_failed db analysis_id).

(** ** The HTTP handlers *)

Module AIConfig.
(** The request body of POST /api/ai-config. *)
Record t : Type := mk {
  provider : string;
  model : string;
  api_key : string;
  user_id : string
}.
End AIConfig.

Module RepoAnalysis.
(** The request body of POST /api/analyze-repository. *)
Record t : Type := mk { repo_url : string; user_id : string }.
End RepoAnalysis.

Definition AI_MODELS : list (string * list (string * string)) :=
  [("openai",
    [("gpt-4o", "GPT-4o"); ("gpt-4.1", "GPT-4.1"); ("gpt-4o-mini", "GPT-4o Mini");
     ("o3-mini", "O3 Mini")]);
   ("anthropic",
    [("claude-sonnet-4-20250514", "Claude Sonnet 4");
     ("claude-3-5-sonnet-20241022", "Claude 3.5 Sonnet");
     ("claude-3-5-haiku-20241022", "Claude 3.5 Haiku")]);
   ("gemini",
    [("gemini-2.0-flash", "Gemini 2.0 Flash"); ("gemini-1.5-pro", "Gemini 1.5 Pro");
     ("gemini-1.5-flash", "Gemini 1.5 Flash")])].

(** [d.get(k)] on a dict written as an association list. *)
Fixpoint lookup {V} (k : string) (d : list (string * V)) : option V :=
  match d with
  | [] => None
  | (k', v) :: d' => if String.eqb k' k then Some v else lookup k d'
  end.

(** [AI_MODELS[provider][model]], when both keys are present. *)
Definition model_name (provider model : string) : option string :=
  match lookup provider AI_MODELS with
  | None => None
  | Some models => lookup model models
  end.

(** The negation of the test of line 95. *)
Definition in_catalog (provider model : string) : bool :=
  match model_name provider model with Some _ => true | None => false end.

Definition save_ai_config (env : Env) (config : AIConfig.t) : M string :=
  try_exceptM
    (if negb (in_catalog (AIConfig.provider config) (AIConfig.model config))
     then raiseM (HTTPException 400 "Invalid AI model selection")
     else
       ai_configs_replace_one (AIConfig.user_id config)
         (ConfigDoc.mk (AIConfig.user_id config) (AIConfig.provider config)
            (AIConfig.model config) (AIConfig.api_key config) (now env)) ;;;
       ret "AI configuration saved successfully")
    (fun e => raiseM (HTTPException 500 ("Failed to save configuration: " ++ str_exn e))).

Inductive ConfigReply : Type :=
| NotConfigured                                       (* {"configured": False} *)
| Configured (provider model model_name : string).    (* {"configured": True, ...} *)

Definition get_ai_config (user_id : string) : M ConfigReply :=
  try_exceptM
    (config <- ai_configs_find_one user_id ;;
     match config with
     | None => ret NotConfigured
     | Some config =>
         match lookup (ConfigDoc.provider config) AI_MODELS with
         | None => raiseM (OtherError ("'" ++ ConfigDoc.provider config ++ "'"))
         | Some models =>
             match lookup (ConfigDoc.model config) models with
             | None => raiseM (OtherError ("'" ++ ConfigDoc.model config ++ "'"))
             | Some name =>
                 ret (Configured (ConfigDoc.provider config) (ConfigDoc.model config)
                        name)
             end
         end
     end)
    (fun e => raiseM (HTTPException 500 ("Failed to get configuration: " ++ str_exn e))).

Module Started.
(** The reply of POST /api/analyze-repository. *)
Record t : Type := mk { analysis_id : string; status : string; message : string }.
End Started.

Definition analyze_repository (env : Env) (analysis : RepoAnalysis.t) : M Started.t :=
  try_exceptM
    (config <- ai_configs_find_one (RepoAnalysis.user_id analysis) ;;
     match config with
     | None =>
         raiseM (HTTPException 400
                   "AI configuration required. Please configure AI model first.")
     | Some _ =>
         analysis_id <- uuid4 ;;
         analyses_insert_one
           (AnalysisDoc.mk analysis_id (RepoAnalysis.repo_url analysis)
              (RepoAnalysis.user_id analysis) "queued" (now env) [] 0 [] None) ;;;
         add_task (Task.mk (RepoAnalysis.repo_url analysis)
                     (RepoAnalysis.user_id analysis) analysis_id) ;;;
         ret (Started.mk analysis_id "queued" "Repository analysis started")
     end)
    (fun e => raiseM (HTTPException 500 ("Failed to start analysis: " ++ str_exn e))).

Module Snapshot.
(** The reply of GET /api/analysis/{analysis_id}. *)
Record t : Type := mk {
  id : string;
  repo_url : string;
  status : string;
  created_at : nat;
  flashcards : list Flashcard.t;
  total_files : nat;
  languages : list string;
  error : option string
}.
End Snapshot.

Definition snapshot_of (analysis : AnalysisDoc.t) : Snapshot.t :=
  Snapshot.mk (AnalysisDoc.id analysis) (AnalysisDoc.repo_url analysis)
    (AnalysisDoc.status analysis) (AnalysisDoc.created_at analysis)
    (AnalysisDoc.flashcards analysis) (AnalysisDoc.total_files analysis)
    (AnalysisDoc.languages analysis) (AnalysisDoc.error analysis).

Definition get_analysis (analysis_id : string) : M Snapshot.t :=
  try_exceptM
    (analysis <- analyses_find_one analysis_id ;;
     match analysis with
     | None => raiseM (HTTPException 404 "Analysis not found")
     | Some analysis => ret (snapshot_of analysis)
     end)
    (fun e => raiseM (HTTPException 500 ("Failed to get analysis: " ++ str_exn e))).

(** [.sort("created_at", -1)], by insertion: newest first; documents of
    the same instant stay in store order (MongoDB leaves their order open). *)
Fixpoint insert_newest_first (d : AnalysisDoc.t) (l : list AnalysisDoc.t)
    : list AnalysisDoc.t :=
  match l with
  | [] => [d]
  | x :: l' =>
      if (AnalysisDoc.created_at x <=? AnalysisDoc.created_at d)%nat then d :: l
      else x :: insert_newest_first d l'
  end.

Definition sort_newest_first (l : list AnalysisDoc.t) : list AnalysisDoc.t :=
  fold_right insert_newest_first [] l.

(** [await db.analyses.find({"user_id": user_id}, {"_id": 0})
      .sort("created_at", -1).to_list(50)] *)
Definition analyses_find_sorted (user_id : string) : M (list AnalysisDoc.t) :=
  fun w =>
    (inr (firstn 50
            (sort_newest_first
               (filter (fun d => String.eqb (AnalysisDoc.user_id d) user_id)
                  (analyses w)))),
     w).

Definition get_user_analyses (user_id : string) : M (list AnalysisDoc.t) :=
  try_exceptM
    (analyses <- analyses_find_sorted user_id ;;
     ret analyses)
    (fun e => raiseM (HTTPException 500 ("Failed to get analyses: " ++ str_exn e))).

(** The status code FastAPI answers with. *)
Definition http_status {A} (r : result A) : nat :=
  match r with
  | inr _ => 200
  | inl (HTTPException code _) => code
  | inl _ => 500
  end.

(** ** The running service *)

Inductive Request : Type :=
| SaveAiConfig (config : AIConfig.t)
| GetAiConfig (user_id : string)
| AnalyzeRepository (analysis : RepoAnalysis.t)
| GetAnalysis (analysis_id : string)
| GetUserAnalyses (user_id : string).

(** The world after a request has been answered. *)
Definition handle (env : Env) (r : Request) (w : World) : World :=
  match r with
  | SaveAiConfig config => snd (save_ai_config env config w)
  | GetAiConfig user_id => snd (get_ai_config user_id w)
  | AnalyzeRepository analysis => snd (analyze_repository env analysis w)
  | GetAnalysis analysis_id => snd (get_analysis analysis_id w)
  | GetUserAnalyses user_id => snd (get_user_analyses user_id w)
  end.

Module Suspended.
(** A task that has started and is suspended at its first [await], the
    write of [processing]: [first_write] is what that [await] gives when
    the task resumes, its value or the exception of the store. *)
Record t : Type := mk { task : Task.t; first_write : result unit }.
End Suspended.

(** The process together with its coroutines: [running] lists the tasks
    that have started and not ended. *)
Record Service : Type := mkService {
  world : World;
  running : list Suspended.t
}.

Definition take_task (before after : list Task.t) (w : World) : World :=
  mkWorld (ai_configs w) (analyses w) (before ++ after) (rng w) (drawn w) (history w).

(** A task run from its first line to its last. *)
Definition run_task (db : Store) (env : Env) (t : Task.t) (w : World) : World :=
  snd (process_repository_analysis db env (Task.repo_url t) (Task.user_id t)
         (Task.analysis_id t) w).

(** The first [await] of a task: line 236. *)
Definition first_await (db : Store) (t : Task.t) : M unit :=
  analyses_update_one db UpdateProcessing (Task.analysis_id t)
    (AnalysisDoc.set_status "processing").

(** A scheduled task starts and runs up to its first [await]: the store
    after it, and the task as it is left suspended. *)
Definition start_task (db : Store) (t : Task.t) (w : World) : World :=
  snd (first_await db t w).

Definition suspend (db : Store) (t : Task.t) (w : World) : Suspended.t :=
  Suspended.mk t (fst (first_await db t w)).

(** A started task resumes inside the [try] it started in and runs to its
    end: with the value of its first [await] it goes on to line 241, with
    its exception to the [except] branch. *)
Definition resume_task (db : Store) (env : Env) (c : Suspended.t) (w : World) : World :=
  snd (try_exceptM
         (lift (Suspended.first_write c) ;;;
          process_rest db env (Task.repo_url (Suspended.task c))
            (Task.user_id (Suspended.task c)) (Task.analysis_id (Suspended.task c)))
         (process_failed db (Task.analysis_id (Suspended.task c))) w).

(** A request at which a call to the store raises is answered 500 and has
    written nothing.  A submission has then drawn its uuid when the call
    is [insert_one] (lines 279-291): the uuid is spent. *)
Definition spend_uuid (w : World) : World := snd (uuid4 w).

(** One event of the service: a request is answered, a scheduled task
    starts, a started task resumes and ends, or a submission is refused
    because the store raises.  Between the start and the end of a task any
    other event may happen; the awaits inside the rest of a task are taken
    in one event.  The outside world and the store may differ at every
    event; [stores] says which stores are met. *)
Inductive step_of (stores : Store -> Prop) : Service -> Service -> Prop :=
| step_request : forall env r s,
    step_of stores s (mkService (handle env r (world s)) (running s))
| step_start : forall db t before after s,
    stores db ->
    background_tasks (world s) = before ++ t :: after ->
    step_of stores s
      (mkService (start_task db t (take_task before after (world s)))
         (suspend db t (take_task before after (world s)) :: running s))
| step_resume : forall db env c before after s,
    stores db ->
    running s = before ++ c :: after ->
    step_of stores s (mkService (resume_task db env c (world s)) (before ++ after))
| step_refused : forall s,
    step_of stores s (mkService (spend_uuid (world s)) (running s)).

Inductive reachable_of (stores : Store -> Prop) (s0 : Service) : Service -> Prop :=
| reach_start : reachable_of stores s0 s0
| reach_step : forall s s',
    reachable_of stores s0 s -> step_of stores s s' -> reachable_of stores s0 s'.

(** Whatever the store does with each call. *)
Definition any_store : Store -> Prop := fun _ => True.

Definition step : Service -> Service -> Prop := step_of any_store.

Definition reachable : Service -> Service -> Prop := reachable_of any_store.

(** The process starts with no job and no task. *)
Definition fresh (s : Service) : Prop :=
  analyses (world s) = [] /\ background_tasks (world s) = []
  /\ history (world s) = [] /\ running s = [].

(** The values written to [status] of document [id], oldest first. *)
Definition status_history (id : string) (w : World) : list string :=
  map snd (filter (fun e => String.eqb (fst e) id) (history w)).

(** The prefixes of queued, processing, completed | failed. *)
Definition on_path (l : list string) : Prop :=
  l = [] \/ l = ["queued"] \/ l = ["queued"; "processing"]
  \/ l = ["queued"; "processing"; "completed"]
  \/ l = ["queued"; "processing"; "failed"].


(** The histories the code writes: those of the path, and [queued] followed
    at once by [failed], written when the write of [processing] raises and
    the write of [failed] is carried out. *)
Definition written_path (l : list string) : Prop :=
  on_path l \/ l = ["queued"; "failed"].


(** ** The pattern, said without searching *)

Fixpoint no_slash (s : string) : bool :=
  match s with
  | EmptyString => true
  | String c s' => negb (Ascii.eqb c "/") && no_slash s'
  end.

(** [s] begins with an occurrence of the pattern whose groups are [owner]
    and [repo]: each group is a non-empty run without "/", as long as it
    can be. *)
Definition matches_at (s owner repo : string) : Prop :=
  exists rest,
    s = ("github.com/" ++ owner ++ "/" ++ repo ++ rest)%string
    /\ owner <> "" /\ repo <> ""
    /\ no_slash owner = true /\ no_slash repo = true
    /\ (rest = "" \/ exists rest', rest = String "/" rest').

(** ** The fetcher's loop, entry by entry *)

(** What the content call of one matching entry comes to: an exception
    leaves the loop, the entry is passed over, or its text is stored. *)
Inductive outcome : Type :=
| Raised (e : exn)
| Skipped
| Fetched (text : string).

Definition content_outcome (env : Env) (owner repo : string) (item : TreeItem.t)
    : outcome :=
  match session_get env (content_url owner repo (TreeItem.path item)) with
  | inl e => Raised e
  | inr file_response =>
      if (status file_response =? 200)%nat then
        match json file_response with
        | inl e => Raised e
        | inr file_data =>
            if is_base64 (get_encoding file_data) then
              match decoded_content file_data with
              | inl e => Raised e
              | inr text => Fetched text
              end
            else Skipped
        end
      else Skipped
  end.

(** The dict stored for an entry whose decoded text is [text]. *)
Definition source_file (item : TreeItem.t) (text : string) : SourceFile.t :=
  SourceFile.mk (TreeItem.path item) (Str.take 5000 text)
    (if Str.is_empty (item_ext item) then "text" else Str.drop 1 (item_ext item)).

(** The matching entries of the tree whose text was fetched, in tree order. *)
Definition fetched (env : Env) (owner repo : string) (tree : list TreeItem.t)
    : list SourceFile.t :=
  flat_map
    (fun item =>
       match content_outcome env owner repo item with
       | Fetched text => [source_file item text]
       | _ => []
       end)
    (filter is_code_file tree).

(** No content call of a matching entry raises. *)
Definition no_call_raises (env : Env) (owner repo : string) (tree : list TreeItem.t)
    : Prop :=
  forall item, In item (filter is_code_file tree) ->
    forall e, content_outcome env owner repo item <> Raised e.

(** The tree the API lists for [owner/repo], when it answers 200 with one. *)
Definition listed_tree (env : Env) (owner repo : string) : option (list TreeItem.t) :=
  match session_get env (api_url owner repo) with
  | inr response =>
      if (status response =? 200)%nat then
        match json response with
        | inr (TreeData tree) => Some tree
        | _ => None
        end
      else None
  | inl _ => None
  end.

(** C2 as the specification words it: [total_files] counts the matching
    entries of the listed tree. *)
Definition total_counts_matching (env : Env) (repo_url : string)
    (tree : list TreeItem.t) : Prop :=
  forall data, fetch_github_repo env repo_url = ok data ->
    RepoData.total_files data = List.length (filter is_code_file tree).

(** C9 as the specification words it: a matching entry whose content call
    fails does not stop the fetch. *)
Definition failed_call_never_fatal (env : Env) (repo_url owner repo : string)
    (tree : list TreeItem.t) : Prop :=
  forall item, In item (filter is_code_file tree) ->
    (forall text, content_outcome env owner repo item <> Fetched text) ->
    exists data, fetch_github_repo env repo_url = ok data.

(** ** Reading the store *)

(** The configuration [find_one] returns for [user_id]. *)
Definition config_of (user_id : string) (w : World) : option ConfigDoc.t :=
  find (fun c => String.eqb (ConfigDoc.user_id c) user_id) (ai_configs w).

(** The job document [find_one] returns for [analysis_id]. *)
Definition job_of (analysis_id : string) (w : World) : option AnalysisDoc.t :=
  find (fun d => String.eqb (AnalysisDoc.id d) analysis_id) (analyses w).

(** [upd] leaves the id of a document alone, as every [$set] of the code does. *)
Definition keeps_id (upd : AnalysisDoc.t -> AnalysisDoc.t) : Prop :=
  forall d, AnalysisDoc.id (upd d) = AnalysisDoc.id d.

(** [w'] differs from [w] at most in the number of uuids drawn. *)
Definition same_store (w w' : World) : Prop :=
  ai_configs w' = ai_configs w /\ analyses w' = analyses w
  /\ background_tasks w' = background_tasks w /\ rng w' = rng w
  /\ history w' = history w /\ drawn w <= drawn w'.

(** ** The partition the analysis step is specified by *)

(** The languages of [files], each at its first occurrence. *)
Definition languages_of (files : list SourceFile.t) : list string :=
  first_seen (map SourceFile.language files).

(** The files of [files] tagged [lang], in the order of [files]. *)
Definition files_of (lang : string) (files : list SourceFile.t) : list SourceFile.t :=
  filter (fun f => String.eqb (SourceFile.language f) lang) files.

(** [files] partitioned by language, first-seen languages first. *)
Definition partition_by_language (files : list SourceFile.t) : Groups :=
  map (fun lang => (lang, files_of lang files)) (languages_of files).

(** A card without its uuid. *)
Definition erase_id (c : Flashcard.t) : Flashcard.t :=
  Flashcard.mk "" (Flashcard.front c) (Flashcard.back c) (Flashcard.category c)
    (Flashcard.difficulty c) (Flashcard.code_snippet c) (Flashcard.file_path c).

(** The cards of one language: the architecture card, then one card for
    each of its first 3 files. *)
Definition language_block (lang : string) (lang_files : list SourceFile.t)
    : list Flashcard.t :=
  architecture_card "" lang lang_files :: map (file_card "" lang) (firstn 3 lang_files).

Definition is_architecture (c : Flashcard.t) : bool :=
  String.eqb (Flashcard.category c) "Architecture".

(** ** The invariant of the running service *)

Definition task_ids (w : World) : list string :=
  map Task.analysis_id (background_tasks w).

Definition started_id (c : Suspended.t) : string :=
  Task.analysis_id (Suspended.task c).

Definition running_ids (s : Service) : list string :=
  map started_id (running s).

Definition job_ids (w : World) : list string :=
  map AnalysisDoc.id (analyses w).

(** What holds of every state reachable from [s0]: uuids are drawn from one
    sequence and every id written so far was drawn from it; no two jobs
    share an id and no job has two tasks, scheduled or started; the status
    values written to a job are on the path of the code; a job with a
    scheduled task has only been written [queued]; a job with a started
    task has been written [queued] and [processing], or [queued] only when
    the write of [processing] raised; the status stored in a job is the
    last one written to it; a job that is not [completed] has no
    flashcards. *)
Record Inv (s0 s : Service) : Prop := mkInv {
  inv_rng : rng (world s) = rng (world s0);
  inv_drawn : forall id, In id (map fst (history (world s))) ->
                exists k, k < drawn (world s) /\ id = rng (world s) k;
  inv_tasks : NoDup (task_ids (world s) ++ running_ids s);
  inv_jobs : NoDup (job_ids (world s));
  inv_path : forall id, written_path (status_history id (world s));
  inv_pending : forall id, In id (task_ids (world s)) ->
                  status_history id (world s) = ["queued"];
  inv_running : forall c, In c (running s) ->
                  (Suspended.first_write c = ok tt
                   /\ status_history (started_id c) (world s)
                      = ["queued"; "processing"])
                  \/ (exists e, Suspended.first_write c = raise e
                                /\ status_history (started_id c) (world s)
                                   = ["queued"]);
  inv_stored : forall d, In d (analyses (world s)) ->
                 status_history (AnalysisDoc.id d) (world s) <> []
                 /\ AnalysisDoc.status d
                    = last (status_history (AnalysisDoc.id d) (world s)) "";
  inv_known : forall id, status_history id (world s) <> [] -> In id (job_ids (world s));
  inv_cards : forall d, In d (analyses (world s)) ->
                AnalysisDoc.status d <> "completed" -> AnalysisDoc.flashcards d = []
}.

(** ** Sample worlds *)

Definition hello_url : string := "https://github.com/octocat/Hello-World".

Definition one_python_file : list TreeItem.t :=
  [TreeItem.mk "tree" "src"; TreeItem.mk "blob" "src/app.py"].

(** The tree is listed; the content of [src/app.py] is answered with 404. *)
Definition env_content_404 : Env :=
  mkEnv
    (fun url =>
       if String.eqb url (api_url "octocat" "Hello-World")
       then ok (mkResponse 200 (ok (TreeData one_python_file)))
       else ok (mkResponse 404 (raise (OtherError "Not Found"))))
    0 (fun _ => 0).

(** The tree is listed; the content call of [src/app.py] raises. *)
Definition env_content_raises : Env :=
  mkEnv
    (fun url =>
       if String.eqb url (api_url "octocat" "Hello-World")
       then ok (mkResponse 200 (ok (TreeData one_python_file)))
       else raise (OtherError "Connection reset by peer"))
    0 (fun _ => 0).

(** The tree lists a README and a directory only. *)
Definition env_no_code : Env :=
  mkEnv
    (fun url =>
       if String.eqb url (api_url "octocat" "Hello-World")
       then ok (mkResponse 200
                  (ok (TreeData [TreeItem.mk "blob" "README"; TreeItem.mk "tree" "docs"])))
       else ok (mkResponse 404 (raise (OtherError "Not Found"))))
    0 (fun _ => 0).

(** The tree is listed; [src/app.py] is answered with its text. *)
Definition env_one_file : Env :=
  mkEnv
    (fun url =>
       if String.eqb url (api_url "octocat" "Hello-World")
       then ok (mkResponse 200 (ok (TreeData one_python_file)))
       else ok (mkResponse 200 (ok (FileData (Some "base64") (ok "print('hello')")))))
    0 (fun _ => 0).

Definition one_file_data : RepoData.t :=
  RepoData.mk "octocat" "Hello-World"
    [SourceFile.mk "src/app.py" "print('hello')" "py"] 1.

Definition empty_world : World :=
  mkWorld [] [] [] (fun n => Str.of_nat n) 0 [].

Definition quiet_env : Env :=
  mkEnv (fun _ => raise (OtherError "connection refused")) 0 (fun _ => 0).

Definition sample_config : ConfigDoc.t :=
  ConfigDoc.mk "u1" "openai" "gpt-4o" "sk-test" 0.

(** A uuid sequence without repetition: "job", "+job", "++job", ... *)
Fixpoint numbered (n : nat) : string :=
  match n with
  | O => "job"
  | S n' => String "+" (numbered n')
  end.

(** A start with one configured user and no job. *)
Definition start_world : World :=
  mkWorld [sample_config] [] [] numbered 0 [].

Definition start_service : Service := mkService start_world [].

Definition sample_task : Task.t := Task.mk hello_url "u1" "job".

(** After one submission has been accepted. *)
Definition submitted_service : Service :=
  mkService
    (handle quiet_env (AnalyzeRepository (RepoAnalysis.mk hello_url "u1")) start_world)
    [].

(** After the task of that submission has started. *)
Definition started_service : Service :=
  mkService
    (start_task answering sample_task (take_task [] [] (world submitted_service)))
    [suspend answering sample_task (take_task [] [] (world submitted_service))].

(** After the task has run to its end, with GitHub unreachable. *)
Definition finished_service : Service :=
  mkService
    (resume_task answering quiet_env (Suspended.mk sample_task (ok tt))
       (world started_service))
    [].

Definition store_unreachable : exn :=
  OtherError "localhost:27017: [Errno 111] Connection refused".

(** The store cannot be reached for the write of [processing]. *)
Definition processing_write_raises : Store :=
  fun call =>
    match call with
    | UpdateProcessing => Some store_unreachable
    | _ => None
    end.






Definition queued_job : AnalysisDoc.t :=
  AnalysisDoc.mk "job-1" hello_url "u1" "queued" 0 [] 0 [] None.


Definition world_with_job : World :=
  mkWorld [sample_config] [queued_job] [] (fun n => Str.of_nat n) 1
    [("job-1", "queued")].

Definition three_files : list SourceFile.t :=
  [SourceFile.mk "src/app.py" "import os" "py";
   SourceFile.mk "web/index.js" "console.log(1)" "js";
   SourceFile.mk "src/util.py" "def f(): pass" "py"].

(** ** The remaining handlers and what the further properties speak of *)

From Stdlib Require Import Permutation.

(** GET /api/health *)
Definition health_check : M (string * string) :=
  ret ("healthy", "AI Code Learning System is running").

(** GET /api/ai-models *)
Definition get_available_models : M (list (string * list (string * string))) :=
  ret AI_MODELS.

(** The language tags the fetcher can produce: the listed extensions
    without their dot. *)
Definition code_languages : list string := map (Str.drop 1) code_extensions.

(** [upd] leaves alone what identifies a job: id, repository, user and
    creation time. *)
Definition keeps_meta (upd : AnalysisDoc.t -> AnalysisDoc.t) : Prop :=
  forall d,
    AnalysisDoc.id (upd d) = AnalysisDoc.id d
    /\ AnalysisDoc.repo_url (upd d) = AnalysisDoc.repo_url d
    /\ AnalysisDoc.user_id (upd d) = AnalysisDoc.user_id d
    /\ AnalysisDoc.created_at (upd d) = AnalysisDoc.created_at d.

(** [d'] is the job [d] at a later time. *)
Definition same_job (d d' : AnalysisDoc.t) : Prop :=
  AnalysisDoc.id d' = AnalysisDoc.id d
  /\ AnalysisDoc.repo_url d' = AnalysisDoc.repo_url d
  /\ AnalysisDoc.user_id d' = AnalysisDoc.user_id d
  /\ AnalysisDoc.created_at d' = AnalysisDoc.created_at d.

(** Newest first: no document is older than one that follows it. *)
Fixpoint newest_first (l : list AnalysisDoc.t) : Prop :=
  match l with
  | [] => True
  | d :: l' =>
      (forall x, In x l' -> AnalysisDoc.created_at x <= AnalysisDoc.created_at d)
      /\ newest_first l'
  end.

(** The jobs of [user_id] in the store. *)
Definition jobs_of_user (user_id : string) (w : World) : list AnalysisDoc.t :=
  filter (fun d => String.eqb (AnalysisDoc.user_id d) user_id) (analyses w).

(** Every stored configuration names a model of the catalog. *)
Definition configs_in_catalog (w : World) : Prop :=
  Forall (fun c => in_catalog (ConfigDoc.provider c) (ConfigDoc.model c) = true)
         (ai_configs w).

(** The paths whose contents the fetcher of [owner/repo] asks for: those
    of the matching entries of the listed tree. *)
Definition matching_paths (env : Env) (owner repo : string) : list string :=
  match listed_tree env owner repo with
  | Some tree => map TreeItem.path (filter is_code_file tree)
  | None => []
  end.

(** The two environments answer alike where the fetcher of [owner/repo]
    looks: at the tree, and at the contents of its matching entries. *)
Definition agree_for (env env' : Env) (owner repo : string) : Prop :=
  session_get env (api_url owner repo) = session_get env' (api_url owner repo)
  /\ forall path, In path (matching_paths env owner repo) ->
       session_get env (content_url owner repo path)
       = session_get env' (content_url owner repo path).

(** Why a fetch failed: [cause] is the text that follows "Failed to fetch
    repository: " in its error. *)
Inductive fetch_failure (env : Env) (repo_url : string) (cause : string) : Prop :=
| bad_url :
    parse_repo_url repo_url = raise (ValueError "Invalid GitHub repository URL") ->
    cause = "Invalid GitHub repository URL" ->
    fetch_failure env repo_url cause
| tree_call_raised : forall owner repo e0,
    parse_repo_url repo_url = ok (owner, repo) ->
    session_get env (api_url owner repo) = raise e0 ->
    cause = str_exn e0 ->
    fetch_failure env repo_url cause
| tree_not_200 : forall owner repo response,
    parse_repo_url repo_url = ok (owner, repo) ->
    session_get env (api_url owner repo) = ok response ->
    status response <> 200 ->
    cause = "Repository not found or not accessible" ->
    fetch_failure env repo_url cause
| tree_not_json : forall owner repo response e0,
    parse_repo_url repo_url = ok (owner, repo) ->
    session_get env (api_url owner repo) = ok response ->
    status response = 200 ->
    json response = raise e0 ->
    cause = str_exn e0 ->
    fetch_failure env repo_url cause
| tree_key_missing : forall owner repo response enc text,
    parse_repo_url repo_url = ok (owner, repo) ->
    session_get env (api_url owner repo) = ok response ->
    status response = 200 ->
    json response = ok (FileData enc text) ->
    cause = "'tree'" ->
    fetch_failure env repo_url cause
| content_call_raised : forall owner repo tree item e0,
    parse_repo_url repo_url = ok (owner, repo) ->
    listed_tree env owner repo = Some tree ->
    In item (filter is_code_file tree) ->
    content_outcome env owner repo item = Raised e0 ->
    cause = str_exn e0 ->
    fetch_failure env repo_url cause.

(** The number of cards the analysis step makes for [files]. *)
Definition cards_expected (files : list SourceFile.t) : nat :=
  list_sum
    (map (fun lang => 1 + Nat.min 3 (List.length (files_of lang files)))
       (languages_of files)).

(** GitHub knows no such repository: every call is answered with 404. *)
Definition env_repo_missing : Env :=
  mkEnv (fun _ => ok (mkResponse 404 (raise (OtherError "Not Found")))) 0 (fun _ => 0).

(** As [env_one_file], except that the contents of the directory [src],
    which the fetcher never asks for, would raise. *)
Definition env_one_file_elsewhere : Env :=
  mkEnv
    (fun url =>
       if String.eqb url (api_url "octocat" "Hello-World")
       then ok (mkResponse 200 (ok (TreeData one_python_file)))
       else if String.eqb url (content_url "octocat" "Hello-World" "src")
       then raise (OtherError "not a file")
       else ok (mkResponse 200 (ok (FileData (Some "base64") (ok "print('hello')")))))
    0 (fun _ => 0).

(** What identifies a job: its id, repository, user and creation time. *)
Definition job_meta (d : AnalysisDoc.t) : string * string * string * nat :=
  (AnalysisDoc.id d, AnalysisDoc.repo_url d, AnalysisDoc.user_id d,
   AnalysisDoc.created_at d).

(** From [w] to [w'] nothing was written but the job [analysis_id]: the
    configurations, the scheduled tasks and the other jobs are as before,
    no job was added or removed, and no job changed what identifies it; at
    most some uuids were drawn.  When the job is not stored nothing was
    written at all. *)
Definition writes_only (analysis_id : string) (w w' : World) : Prop :=
  ai_configs w' = ai_configs w
  /\ background_tasks w' = background_tasks w
  /\ rng w' = rng w
  /\ drawn w <= drawn w'
  /\ map job_meta (analyses w') = map job_meta (analyses w)
  /\ (forall other, other <> analysis_id -> job_of other w' = job_of other w)
  /\ (job_of analysis_id w = None ->
      analyses w' = analyses w /\ history w' = history w).



(** * Properties *)

(** ** Strings *)

Example splitext_plain : Str.splitext_ext "src/app.py" = ".py".
Proof. reflexivity. Qed.

Example splitext_last_dot : Str.splitext_ext "dist/archive.tar.gz" = ".gz".
Proof. reflexivity. Qed.

Example splitext_hidden_file : Str.splitext_ext "conf/.py" = "".
Proof. reflexivity. Qed.

Example splitext_dot_in_directory : Str.splitext_ext "v1.2/Makefile" = "".
Proof. reflexivity. Qed.

Example code_file_upper_case : is_code_file (TreeItem.mk "blob" "src/Main.JAVA") = true.
Proof. reflexivity. Qed.

Example code_file_directory : is_code_file (TreeItem.mk "tree" "pkg.go") = false.
Proof. reflexivity. Qed.

Example code_file_other_extension : is_code_file (TreeItem.mk "blob" "README.md") = false.
Proof. reflexivity. Qed.

Example last_segment_nested : Str.last_segment "src/pkg/util.py" = "util.py".
Proof. reflexivity. Qed.

Example last_segment_flat : Str.last_segment "app.js" = "app.js".
Proof. reflexivity. Qed.

Example join_three : Str.join ", " ["a.py"; "b.py"; "c.py"] = "a.py, b.py, c.py".
Proof. reflexivity. Qed.

Example of_nat_twelve : Str.of_nat 12 = "12".
Proof. reflexivity. Qed.

Example upper_py : Str.upper "py" = "PY".
Proof. reflexivity. Qed.

(** ** The URL pattern *)

Example parse_plain :
  parse_repo_url "https://github.com/octocat/Hello-World" = ok ("octocat", "Hello-World").
Proof. reflexivity. Qed.

Example parse_dot_git :
  parse_repo_url "https://github.com/octocat/Hello-World.git"
  = ok ("octocat", "Hello-World").
Proof. reflexivity. Qed.

Example parse_other_host :
  parse_repo_url "https://invalid-repo-url.com/test/test"
  = raise (ValueError "Invalid GitHub repository URL").
Proof. reflexivity. Qed.

Example delete_all_inner :
  Str.delete_all ".git" "https://www.github.com/octocat/Hello-World"
  = "https://wwwhub.com/octocat/Hello-World".
Proof. reflexivity. Qed.

Lemma startswith_append : forall p s,
  Str.startswith p s = true <-> exists r, s = (p ++ r)%string.
Proof.
  induction p as [| a p IH]; intro s; simpl.
  - split; [intros _; exists s; reflexivity | reflexivity].
  - destruct s as [| b s].
    + split; [discriminate | intros [r H]; discriminate H].
    + rewrite andb_true_iff, Ascii.eqb_eq, IH. split.
      * intros [-> [r ->]]. exists r. reflexivity.
      * intros [r H]. injection H as -> ->. split; [reflexivity | exists r; reflexivity].
Qed.

Lemma drop_append : forall p r, Str.drop (String.length p) (p ++ r) = r.
Proof. induction p as [| a p IH]; intro r; simpl; [destruct r |]; auto. Qed.

(** [span_not_slash] cuts [s] after its longest prefix without "/". *)
Lemma span_not_slash_spec : forall s a b,
  Str.span_not_slash s = (a, b)
  <-> s = (a ++ b)%string /\ no_slash a = true
      /\ (b = "" \/ exists b', b = String "/" b').
Proof.
  induction s as [| c s IH]; intros a b; simpl.
  - split.
    + intro H. injection H as <- <-. repeat split. left. reflexivity.
    + intros (H & _ & _). destruct a; [| discriminate H]. simpl in H. subst b.
      reflexivity.
  - destruct (Ascii.eqb c "/") eqn:E.
    + apply Ascii.eqb_eq in E. subst c. split.
      * intro H. injection H as <- <-. repeat split. right. eexists. reflexivity.
      * intros (H & Hn & Hb). destruct a as [| a0 a].
        -- simpl in H. subst b. reflexivity.
        -- simpl in H. injection H as <- _. simpl in Hn. discriminate Hn.
    + destruct (Str.span_not_slash s) as [a' b'] eqn:Hs.
      specialize (IH a' b'). destruct IH as [IH _]. specialize (IH eq_refl).
      destruct IH as (-> & Hn' & Hb'). split.
      * intro H. injection H as <- <-. simpl. rewrite E, Hn'. repeat split. exact Hb'.
      * intros (H & Hn & Hb). destruct a as [| a0 a].
        -- simpl in H. destruct Hb as [-> | [b0 ->]]; [discriminate H |].
           injection H as -> _. discriminate E.
        -- simpl in H. injection H as <- H. simpl in Hn. rewrite E in Hn. simpl in Hn.
           assert (Hsame : Str.span_not_slash (a' ++ b') = (a, b)).
           { clear Hs. revert a b H Hn Hb. generalize (a' ++ b')%string as t.
             induction t as [| d t IHt]; intros a b H Hn Hb; simpl.
             - destruct a; [| discriminate H]. simpl in H. subst b. reflexivity.
             - destruct a as [| a1 a]; simpl in H.
               + destruct Hb as [-> | [b0 ->]]; [discriminate H |].
                 injection H as -> ->. reflexivity.
               + injection H as -> H. simpl in Hn. apply andb_true_iff in Hn.
                 destruct Hn as [Hd Hn]. apply negb_true_iff in Hd. rewrite Hd.
                 rewrite (IHt a b H Hn Hb). reflexivity. }
           rewrite Hs in Hsame. injection Hsame as -> ->. reflexivity.
Qed.

Lemma is_empty_false : forall s, Str.is_empty s = false <-> s <> "".
Proof. destruct s; simpl; split; congruence. Qed.

(** One attempt of the pattern succeeds exactly on the strings that begin
    with an occurrence of it. *)
Lemma match_here_spec : forall s owner repo,
  match_here s = Some (owner, repo) <-> matches_at s owner repo.
Proof.
  intros s owner repo. unfold match_here, matches_at. split.
  - destruct (Str.startswith "github.com/" s) eqn:Hp; [| discriminate].
    apply startswith_append in Hp. destruct Hp as [r ->].
    change 11 with (String.length "github.com/"). rewrite drop_append.
    destruct (Str.span_not_slash r) as [o rest] eqn:Ho.
    apply span_not_slash_spec in Ho. destruct Ho as (-> & Hno & Hrest).
    destruct (Str.is_empty o) eqn:Eo; [discriminate |].
    destruct rest as [| c rest']; [discriminate |].
    destruct Hrest as [Hrest | [b' Hrest]]; [discriminate Hrest |].
    injection Hrest as -> ->.
    destruct (Str.span_not_slash b') as [rp tl] eqn:Hr.
    apply span_not_slash_spec in Hr. destruct Hr as (-> & Hnr & Htl).
    destruct (Str.is_empty rp) eqn:Er; [discriminate |].
    intro H. injection H as <- <-. exists tl.
    apply is_empty_false in Eo, Er. repeat split; assumption.
  - intros (rest & -> & Ho & Hr & Hno & Hnr & Hrest).
    assert (Hp : Str.startswith "github.com/"
                   ("github.com/" ++ owner ++ "/" ++ repo ++ rest) = true).
    { apply startswith_append. eexists. reflexivity. }
    rewrite Hp. change 11 with (String.length "github.com/"). rewrite drop_append.
    assert (Hso : Str.span_not_slash (owner ++ "/" ++ repo ++ rest)
                  = (owner, ("/" ++ repo ++ rest)%string)).
    { apply span_not_slash_spec. repeat split; [exact Hno |]. right. eexists.
      reflexivity. }
    rewrite Hso. apply is_empty_false in Ho. rewrite Ho. simpl.
    assert (Hsr : Str.span_not_slash (repo ++ rest) = (repo, rest)).
    { apply span_not_slash_spec. repeat split; assumption. }
    rewrite Hsr. apply is_empty_false in Hr. rewrite Hr. reflexivity.
Qed.

(** [re_search] finds an occurrence of the pattern when there is one, and
    only then. *)
Lemma re_search_sound : forall s owner repo,
  re_search s = Some (owner, repo) ->
  exists before from, s = (before ++ from)%string /\ matches_at from owner repo.
Proof.
  induction s as [| c s IH]; intros owner repo H.
  - simpl in H. discriminate H.
  - cbn [re_search] in H. destruct (match_here (String c s)) as [g |] eqn:Hm.
    + injection H as ->. exists "", (String c s). split; [reflexivity |].
      apply match_here_spec. exact Hm.
    + destruct (IH owner repo H) as (before & from & -> & Hfrom).
      exists (String c before), from. split; [reflexivity | exact Hfrom].
Qed.

Lemma re_search_complete : forall before from owner repo,
  matches_at from owner repo ->
  exists g, re_search (before ++ from) = Some g.
Proof.
  induction before as [| c before IH]; intros from owner repo H.
  - simpl. apply match_here_spec in H.
    destruct from as [| c from]; cbn [re_search]; rewrite H; eexists; reflexivity.
  - simpl. cbn [re_search]. destruct (match_here (String c (before ++ from))) as [g |].
    + eexists. reflexivity.
    + apply (IH from owner repo H).
Qed.

(** C8, on the code.  [repo_url.replace('.git', '')] deletes [.git] wherever
    it occurs, not only as a suffix.  A URL of the shape host/owner/repo
    whose host is [www.github.com] is turned into one the pattern does not
    match, and the fetch fails whatever the API would answer; a repository
    named [octocat.github.io] is extracted under the name [octocathub.io]. *)
Theorem dot_git_deleted_inside_url :
  (forall env,
      fetch_github_repo env "https://www.github.com/octocat/Hello-World"
      = raise (ValueError "Failed to fetch repository: Invalid GitHub repository URL"))
  /\ parse_repo_url "https://github.com/octocat/octocat.github.io"
     = ok ("octocat", "octocathub.io").
Proof.
  split.
  - intro env. reflexivity.
  - reflexivity.
Qed.

(** ** Handlers that raise inside their own [try] *)

Lemma find_config_run : forall user_id w,
  ai_configs_find_one user_id w = (inr (config_of user_id w), w).
Proof. reflexivity. Qed.

(** C5, on the code.  When [user_id] has no stored configuration,
    [analyze_repository] raises its 400 inside the [try]; the handler's own
    [except Exception] catches it and raises a 500 in its place.  No job is
    inserted and no task is scheduled: the world is unchanged. *)
Theorem analyze_repository_without_config :
  forall env analysis w,
    config_of (RepoAnalysis.user_id analysis) w = None ->
    analyze_repository env analysis w
    = (raise (HTTPException 500
                ("Failed to start analysis: 400: "
                 ++ "AI configuration required. Please configure AI model first.")),
       w)
    /\ http_status (fst (analyze_repository env analysis w)) = 500.
Proof.
  intros env analysis w H.
  assert (E : analyze_repository env analysis w
              = (raise (HTTPException 500
                   ("Failed to start analysis: 400: "
                    ++ "AI configuration required. Please configure AI model first.")),
                 w)).
  { unfold analyze_repository, try_exceptM, bind.
    rewrite find_config_run, H. reflexivity. }
  split; [exact E | rewrite E; reflexivity].
Qed.

Lemma analyze_repository_without_config_witness :
  http_status
    (fst (analyze_repository quiet_env
            (RepoAnalysis.mk "https://github.com/octocat/Hello-World" "u1")
            empty_world)) = 500.
Proof.
  apply (analyze_repository_without_config quiet_env
           (RepoAnalysis.mk "https://github.com/octocat/Hello-World" "u1") empty_world).
  reflexivity.
Defined.

(** C6, on the code.  A model outside the catalog makes [save_ai_config]
    raise its 400 inside the [try]; the handler's [except Exception] turns
    it into a 500.  Nothing is written, and a user without a configuration
    still has none afterwards. *)
Theorem save_ai_config_outside_catalog :
  forall env config w,
    in_catalog (AIConfig.provider config) (AIConfig.model config) = false ->
    save_ai_config env config w
    = (raise (HTTPException 500
                "Failed to save configuration: 400: Invalid AI model selection"),
       w)
    /\ http_status (fst (save_ai_config env config w)) = 500
    /\ (forall user_id,
          fst (get_ai_config user_id w) = ok NotConfigured ->
          fst (get_ai_config user_id (snd (save_ai_config env config w)))
          = ok NotConfigured).
Proof.
  intros env config w H.
  assert (E : save_ai_config env config w
              = (raise (HTTPException 500
                   "Failed to save configuration: 400: Invalid AI model selection"),
                 w)).
  { unfold save_ai_config, try_exceptM. rewrite H. reflexivity. }
  rewrite E. repeat split. intros user_id G. exact G.
Qed.

Lemma save_ai_config_outside_catalog_witness :
  http_status
    (fst (save_ai_config quiet_env
            (AIConfig.mk "invalid_provider" "invalid_model" "test-key" "u1")
            empty_world)) = 500.
Proof.
  apply (save_ai_config_outside_catalog quiet_env
           (AIConfig.mk "invalid_provider" "invalid_model" "test-key" "u1") empty_world).
  reflexivity.
Defined.

(** C7, on the code.  For an id that matches no stored job, [get_analysis]
    raises its 404 inside the [try] and the handler's [except Exception]
    replaces it by a 500.  For a stored job the handler returns the
    snapshot of the first document with that id.  In both cases the world
    is left as it was. *)
Theorem get_analysis_outcomes :
  forall analysis_id w,
    snd (get_analysis analysis_id w) = w
    /\ match job_of analysis_id w with
       | None =>
           fst (get_analysis analysis_id w)
           = raise (HTTPException 500 "Failed to get analysis: 404: Analysis not found")
       | Some d => fst (get_analysis analysis_id w) = ok (snapshot_of d)
       end.
Proof.
  intros analysis_id w.
  unfold get_analysis, try_exceptM, bind, analyses_find_one, job_of.
  destruct (find _ (analyses w)); split; reflexivity.
Qed.

Example get_analysis_unknown_is_500 :
  http_status (fst (get_analysis "no-such-id" empty_world)) = 500.
Proof. reflexivity. Qed.

(** ** The fetcher *)

Lemma fetch_item_outcome : forall env owner repo item files,
  fetch_item env owner repo item files
  = match content_outcome env owner repo item with
    | Raised e => raise e
    | Skipped => ok files
    | Fetched text => ok (files ++ [source_file item text])
    end.
Proof.
  intros env owner repo item files.
  unfold fetch_item, content_outcome, source_file, bind_result.
  destruct (session_get env _) as [e | file_response]; [reflexivity |].
  destruct (status file_response =? 200)%nat; [| reflexivity].
  destruct (json file_response) as [e | file_data]; [reflexivity |].
  destruct (is_base64 (get_encoding file_data)); [| reflexivity].
  destruct (decoded_content file_data); reflexivity.
Qed.

Lemma fetched_cons : forall env owner repo item tree,
  fetched env owner repo (item :: tree)
  = (if is_code_file item then
       match content_outcome env owner repo item with
       | Fetched text => [source_file item text]
       | _ => []
       end
     else []) ++ fetched env owner repo tree.
Proof.
  intros. unfold fetched. simpl.
  destruct (is_code_file item); reflexivity.
Qed.

Lemma no_call_raises_cons : forall env owner repo item tree,
  no_call_raises env owner repo (item :: tree) ->
  (is_code_file item = true -> forall e, content_outcome env owner repo item <> Raised e)
  /\ no_call_raises env owner repo tree.
Proof.
  unfold no_call_raises. intros env owner repo item tree H. split.
  - intros Hc e. apply H. simpl. rewrite Hc. left. reflexivity.
  - intros it Hin e. apply H. simpl. destruct (is_code_file item); [right |]; exact Hin.
Qed.

(** When no content call raises, the loop ends with the files it was
    given followed by the fetched files of the tree. *)
Lemma fetch_tree_fetched : forall env owner repo tree files,
  no_call_raises env owner repo tree ->
  fetch_tree env owner repo tree files = ok (files ++ fetched env owner repo tree).
Proof.
  intros env owner repo tree. induction tree as [| item tree IH]; intros files H.
  - simpl. unfold fetched. simpl. rewrite app_nil_r. reflexivity.
  - apply no_call_raises_cons in H. destruct H as [Hitem Htree].
    simpl. rewrite fetched_cons.
    destruct (is_code_file item) eqn:Hc.
    + rewrite fetch_item_outcome.
      destruct (content_outcome env owner repo item) as [e | | text] eqn:Ho.
      * exfalso. exact (Hitem eq_refl e eq_refl).
      * simpl. apply IH. exact Htree.
      * simpl. rewrite IH by exact Htree. rewrite <- app_assoc. reflexivity.
    + simpl. apply IH. exact Htree.
Qed.

(** Whenever the loop ends without an exception, it ends that way. *)
Lemma fetch_tree_ok : forall env owner repo tree files files',
  fetch_tree env owner repo tree files = ok files' ->
  files' = files ++ fetched env owner repo tree.
Proof.
  intros env owner repo tree. induction tree as [| item tree IH]; intros files files' H.
  - simpl in H. injection H as <-. unfold fetched. simpl. rewrite app_nil_r. reflexivity.
  - simpl in H. rewrite fetched_cons.
    destruct (is_code_file item) eqn:Hc.
    + rewrite fetch_item_outcome in H.
      destruct (content_outcome env owner repo item) as [e | | text] eqn:Ho; simpl in H.
      * discriminate H.
      * apply IH in H. exact H.
      * apply IH in H. rewrite H, <- app_assoc. reflexivity.
    + simpl. apply IH. exact H.
Qed.

Lemma fetched_length : forall env owner repo tree,
  List.length (fetched env owner repo tree) <= List.length (filter is_code_file tree).
Proof.
  intros env owner repo tree. unfold fetched.
  induction (filter is_code_file tree) as [| item l IH]; simpl.
  - lia.
  - rewrite length_app.
    destruct (content_outcome env owner repo item); simpl; lia.
Qed.

Lemma in_firstn : forall {A} n (l : list A) x, In x (firstn n l) -> In x l.
Proof.
  intros A n l x H. rewrite <- (firstn_skipn n l). apply in_or_app. left. exact H.
Qed.

Lemma take_length : forall n s, String.length (Str.take n s) <= n.
Proof.
  induction n as [| n IH]; intros s; destruct s; simpl; try lia.
  specialize (IH s). lia.
Qed.

Lemma fetched_content_cut : forall env owner repo tree,
  Forall (fun f => exists text, SourceFile.content f = Str.take 5000 text)
         (fetched env owner repo tree).
Proof.
  intros env owner repo tree. unfold fetched.
  induction (filter is_code_file tree) as [| item l IH]; simpl.
  - constructor.
  - apply Forall_app. split; [| exact IH].
    destruct (content_outcome env owner repo item) as [e | | text]; constructor.
    + exists text. reflexivity.
    + constructor.
Qed.

(** A successful fetch, taken apart. *)
Lemma fetch_github_repo_ok : forall env repo_url data,
  fetch_github_repo env repo_url = ok data ->
  exists tree,
    parse_repo_url repo_url = ok (RepoData.owner data, RepoData.repo data)
    /\ listed_tree env (RepoData.owner data) (RepoData.repo data) = Some tree
    /\ fetch_tree env (RepoData.owner data) (RepoData.repo data) tree []
       = ok (fetched env (RepoData.owner data) (RepoData.repo data) tree)
    /\ RepoData.files data
       = firstn 20 (fetched env (RepoData.owner data) (RepoData.repo data) tree)
    /\ RepoData.total_files data
       = List.length (fetched env (RepoData.owner data) (RepoData.repo data) tree).
Proof.
  intros env repo_url data H.
  unfold fetch_github_repo, try_except in H.
  destruct (fetch_github_repo_body env repo_url) as [e | d] eqn:Hb; [discriminate H |].
  injection H as ->.
  unfold fetch_github_repo_body, bind_result in Hb.
  destruct (parse_repo_url repo_url) as [e | [owner repo]] eqn:Hp; [discriminate Hb |].
  unfold listed_tree.
  destruct (session_get env (api_url owner repo)) as [e | response] eqn:Hg;
    [discriminate Hb |].
  destruct (status response =? 200)%nat eqn:Hs; simpl in Hb; [| discriminate Hb].
  destruct (json response) as [e | tree_data] eqn:Hj; [discriminate Hb |].
  destruct tree_data as [tree | enc text]; simpl in Hb; [| discriminate Hb].
  destruct (fetch_tree env owner repo tree []) as [e | files] eqn:Hf; [discriminate Hb |].
  injection Hb as <-. simpl.
  pose proof (fetch_tree_ok _ _ _ _ _ _ Hf) as Hfiles. simpl in Hfiles. subst files.
  exists tree. rewrite Hg, Hs, Hj. repeat split. exact Hf.
Qed.

Lemma fetch_github_repo_succeeds : forall env repo_url owner repo tree,
  parse_repo_url repo_url = ok (owner, repo) ->
  listed_tree env owner repo = Some tree ->
  no_call_raises env owner repo tree ->
  fetch_github_repo env repo_url
  = ok (RepoData.mk owner repo (firstn 20 (fetched env owner repo tree))
          (List.length (fetched env owner repo tree))).
Proof.
  intros env repo_url owner repo tree Hp Hl Hn.
  unfold fetch_github_repo, fetch_github_repo_body, try_except, bind_result.
  rewrite Hp. unfold ok. cbv beta iota. unfold listed_tree in Hl.
  destruct (session_get env (api_url owner repo)) as [e | response]; [discriminate Hl |].
  destruct (status response =? 200)%nat; [| discriminate Hl]. cbn [negb].
  destruct (json response) as [e | [tree' | enc text]]; try discriminate Hl.
  injection Hl as ->. cbn [get_tree]. unfold ok at 1. cbv beta iota.
  rewrite (fetch_tree_fetched _ _ _ _ [] Hn). reflexivity.
Qed.

(** C2, as amended.  A successful fetch returns the first 20 of the
    matching entries whose text was fetched, in tree order, each with its
    content cut to 5000 characters; [total_files] is the number of fetched
    entries before the cut to 20, which lies between the length of [files]
    and the number of matching entries of the tree. *)
Theorem fetch_result_budget :
  forall env repo_url data,
    fetch_github_repo env repo_url = ok data ->
    exists tree,
      listed_tree env (RepoData.owner data) (RepoData.repo data) = Some tree
      /\ RepoData.files data
         = firstn 20 (fetched env (RepoData.owner data) (RepoData.repo data) tree)
      /\ RepoData.total_files data
         = List.length (fetched env (RepoData.owner data) (RepoData.repo data) tree)
      /\ List.length (RepoData.files data) <= 20
      /\ Forall (fun f => (exists text, SourceFile.content f = Str.take 5000 text)
                         /\ String.length (SourceFile.content f) <= 5000)
                (RepoData.files data)
      /\ List.length (RepoData.files data) <= RepoData.total_files data
      /\ RepoData.total_files data <= List.length (filter is_code_file tree).
Proof.
  intros env repo_url data H.
  destruct (fetch_github_repo_ok _ _ _ H) as (tree & _ & Hl & _ & Hfiles & Htotal).
  exists tree. split; [exact Hl |]. split; [exact Hfiles |]. split; [exact Htotal |].
  rewrite Hfiles, Htotal. repeat split.
  - rewrite length_firstn. lia.
  - apply Forall_forall. intros f Hin. apply in_firstn in Hin.
    pose proof (fetched_content_cut env (RepoData.owner data) (RepoData.repo data) tree)
      as Hcut.
    rewrite Forall_forall in Hcut. destruct (Hcut f Hin) as [text Ht].
    split; [exists text; exact Ht | rewrite Ht; apply take_length].
  - rewrite length_firstn. lia.
  - apply fetched_length.
Qed.

Lemma fetch_result_budget_witness :
  fetch_github_repo env_one_file hello_url = ok one_file_data
  /\ exists tree,
      listed_tree env_one_file "octocat" "Hello-World" = Some tree
      /\ RepoData.files one_file_data
         = firstn 20 (fetched env_one_file "octocat" "Hello-World" tree)
      /\ RepoData.total_files one_file_data
         = List.length (fetched env_one_file "octocat" "Hello-World" tree)
      /\ List.length (RepoData.files one_file_data) <= 20
      /\ Forall (fun f => (exists text, SourceFile.content f = Str.take 5000 text)
                         /\ String.length (SourceFile.content f) <= 5000)
                (RepoData.files one_file_data)
      /\ List.length (RepoData.files one_file_data) <= RepoData.total_files one_file_data
      /\ RepoData.total_files one_file_data <= List.length (filter is_code_file tree).
Proof.
  split; [reflexivity |].
  apply (fetch_result_budget env_one_file hello_url one_file_data). reflexivity.
Defined.

(** C2 as worded fails: the tree lists one matching entry, its content call
    is answered with 404, the fetch succeeds and reports [total_files = 0]. *)
Lemma total_files_misses_skipped_entry :
  ~ total_counts_matching env_content_404 hello_url one_python_file.
Proof.
  intro H.
  specialize (H (RepoData.mk "octocat" "Hello-World" [] 0) eq_refl).
  discriminate H.
Qed.

(** C9, as amended.  When no content call raises, the fetch succeeds with
    the entries whose text was fetched; a matching entry whose call is
    answered with a status other than 200 is passed over, leaving [files]
    as it was. *)
Theorem skipped_entry_keeps_fetch_alive :
  forall env repo_url owner repo tree,
    parse_repo_url repo_url = ok (owner, repo) ->
    listed_tree env owner repo = Some tree ->
    no_call_raises env owner repo tree ->
    fetch_github_repo env repo_url
    = ok (RepoData.mk owner repo (firstn 20 (fetched env owner repo tree))
            (List.length (fetched env owner repo tree)))
    /\ forall item file_response,
         In item (filter is_code_file tree) ->
         session_get env (content_url owner repo (TreeItem.path item)) = ok file_response ->
         status file_response <> 200 ->
         content_outcome env owner repo item = Skipped
         /\ forall files, fetch_item env owner repo item files = ok files.
Proof.
  intros env repo_url owner repo tree Hp Hl Hn. split.
  - apply fetch_github_repo_succeeds; assumption.
  - intros item file_response _ Hg Hs.
    assert (Ho : content_outcome env owner repo item = Skipped).
    { unfold content_outcome. unfold ok in Hg. rewrite Hg.
      apply Nat.eqb_neq in Hs. rewrite Hs. reflexivity. }
    split; [exact Ho |].
    intro files. rewrite fetch_item_outcome, Ho. reflexivity.
Qed.

Lemma no_call_raises_404 :
  no_call_raises env_content_404 "octocat" "Hello-World" one_python_file.
Proof.
  intros item Hin e. simpl in Hin. destruct Hin as [<- | []]. discriminate.
Qed.

Lemma skipped_entry_keeps_fetch_alive_witness :
  fetch_github_repo env_content_404 hello_url
  = ok (RepoData.mk "octocat" "Hello-World" [] 0).
Proof.
  apply (skipped_entry_keeps_fetch_alive env_content_404 hello_url
           "octocat" "Hello-World" one_python_file);
    [reflexivity | reflexivity | exact no_call_raises_404].
Defined.

(** C9 as worded fails: the content call of the one matching entry raises,
    and the exception ends the whole fetch. *)
Lemma raising_content_call_fails_fetch :
  ~ failed_call_never_fatal env_content_raises hello_url "octocat" "Hello-World"
      one_python_file.
Proof.
  intro H.
  destruct (H (TreeItem.mk "blob" "src/app.py")) as [data Hd].
  - simpl. left. reflexivity.
  - intros text. discriminate.
  - discriminate Hd.
Qed.

Example raising_content_call_message :
  fetch_github_repo env_content_raises hello_url
  = raise (ValueError "Failed to fetch repository: Connection reset by peer").
Proof. reflexivity. Qed.

(** ** The store *)

Lemma keeps_id_set_status : forall s, keeps_id (AnalysisDoc.set_status s).
Proof. intros s d. reflexivity. Qed.

Lemma keeps_id_set_completed : forall cards n langs,
  keeps_id (AnalysisDoc.set_completed cards n langs).
Proof. intros cards n langs d. reflexivity. Qed.

Lemma keeps_id_set_failed : forall msg, keeps_id (AnalysisDoc.set_failed msg).
Proof. intros msg d. reflexivity. Qed.

Create HintDb jobs.
#[local] Hint Resolve keeps_id_set_status keeps_id_set_completed keeps_id_set_failed
  : jobs.

Lemma find_update_first_same : forall analysis_id upd l d,
  keeps_id upd ->
  find (fun d => String.eqb (AnalysisDoc.id d) analysis_id) l = Some d ->
  find (fun d => String.eqb (AnalysisDoc.id d) analysis_id) (update_first analysis_id upd l)
  = Some (upd d).
Proof.
  intros analysis_id upd l d Hk. induction l as [| x l IH]; simpl; intro H.
  - discriminate H.
  - destruct (String.eqb (AnalysisDoc.id x) analysis_id) eqn:E.
    + injection H as ->. simpl. rewrite Hk, E. reflexivity.
    + simpl. rewrite E. apply IH. exact H.
Qed.

Lemma find_update_first_other : forall analysis_id other upd l,
  keeps_id upd ->
  other <> analysis_id ->
  find (fun d => String.eqb (AnalysisDoc.id d) other) (update_first analysis_id upd l)
  = find (fun d => String.eqb (AnalysisDoc.id d) other) l.
Proof.
  intros analysis_id other upd l Hk Hne. induction l as [| x l IH]; simpl.
  - reflexivity.
  - destruct (String.eqb (AnalysisDoc.id x) analysis_id) eqn:E.
    + simpl. rewrite Hk. apply String.eqb_eq in E. rewrite E.
      destruct (String.eqb analysis_id other) eqn:E2.
      * apply String.eqb_eq in E2. congruence.
      * reflexivity.
    + simpl. rewrite IH. reflexivity.
Qed.

Lemma after_update_found : forall analysis_id upd w d,
  job_of analysis_id w = Some d ->
  after_update analysis_id upd w
  = mkWorld (ai_configs w) (update_first analysis_id upd (analyses w))
      (background_tasks w) (rng w) (drawn w)
      (history w ++ [(analysis_id, AnalysisDoc.status (upd d))]).
Proof.
  intros analysis_id upd w d H.
  unfold after_update. unfold job_of in H. rewrite H. reflexivity.
Qed.

Lemma after_update_missing : forall analysis_id upd w,
  job_of analysis_id w = None -> after_update analysis_id upd w = w.
Proof.
  intros analysis_id upd w H.
  unfold after_update. unfold job_of in H. rewrite H. reflexivity.
Qed.

Lemma update_one_run : forall db call analysis_id upd w,
  db call = None ->
  analyses_update_one db call analysis_id upd w
  = (inr tt, after_update analysis_id upd w).
Proof.
  intros db call analysis_id upd w H. unfold analyses_update_one, awaited.
  rewrite H. reflexivity.
Qed.

Lemma update_one_raises : forall db call analysis_id upd w e,
  db call = Some e ->
  analyses_update_one db call analysis_id upd w = (inl e, w).
Proof.
  intros db call analysis_id upd w e H. unfold analyses_update_one, awaited.
  rewrite H. reflexivity.
Qed.

Lemma find_config_awaited : forall db user_id w,
  awaited db FindConfig (ai_configs_find_one user_id) w
  = match db FindConfig with
    | Some e => (inl e, w)
    | None => (inr (config_of user_id w), w)
    end.
Proof. reflexivity. Qed.

Lemma job_of_after_update : forall analysis_id upd w d,
  keeps_id upd ->
  job_of analysis_id w = Some d ->
  job_of analysis_id (after_update analysis_id upd w) = Some (upd d).
Proof.
  intros analysis_id upd w d Hk H.
  rewrite (after_update_found _ _ _ _ H). unfold job_of. simpl.
  apply find_update_first_same; assumption.
Qed.

Lemma config_of_after_update : forall analysis_id upd user_id w,
  config_of user_id (after_update analysis_id upd w) = config_of user_id w.
Proof.
  intros analysis_id upd user_id w.
  unfold after_update, config_of.
  destruct (find _ (analyses w)); reflexivity.
Qed.

(** ** The analysis step never raises *)

Lemma same_store_refl : forall w, same_store w w.
Proof. intro w. unfold same_store. repeat split; lia. Qed.

Lemma same_store_trans : forall w1 w2 w3,
  same_store w1 w2 -> same_store w2 w3 -> same_store w1 w3.
Proof.
  unfold same_store.
  intros w1 w2 w3 (A1 & B1 & C1 & D1 & E1 & F1) (A2 & B2 & C2 & D2 & E2 & F2).
  repeat split; try congruence; lia.
Qed.

Lemma uuid4_run : forall w,
  exists w', uuid4 w = (inr (rng w (drawn w)), w') /\ same_store w w'
             /\ drawn w' = S (drawn w).
Proof.
  intro w. eexists. split; [reflexivity |]. unfold same_store. simpl.
  repeat split; lia.
Qed.

Lemma file_cards_run : forall lang some_files flashcards w,
  exists cards w',
    file_cards lang some_files flashcards w = (inr cards, w') /\ same_store w w'.
Proof.
  intros lang some_files.
  induction some_files as [| file rest IH]; intros flashcards w; simpl.
  - exists flashcards, w. split; [reflexivity | apply same_store_refl].
  - unfold bind. destruct (uuid4_run w) as (w1 & -> & Hs & _).
    destruct (IH (flashcards ++ [file_card (rng w (drawn w)) lang file]) w1)
      as (cards & w2 & -> & Hs2).
    exists cards, w2. split; [reflexivity | eapply same_store_trans; eassumption].
Qed.

Lemma language_cards_run : forall items flashcards w,
  exists cards w',
    language_cards items flashcards w = (inr cards, w') /\ same_store w w'.
Proof.
  induction items as [| [lang lang_files] items IH]; intros flashcards w;
    cbn [language_cards].
  - exists flashcards, w. split; [reflexivity | apply same_store_refl].
  - unfold bind. destruct (uuid4_run w) as (w1 & -> & Hs & _).
    destruct (file_cards_run lang (firstn 3 lang_files)
                (flashcards ++ [architecture_card (rng w (drawn w)) lang lang_files]) w1)
      as (cards1 & w2 & -> & Hs2).
    destruct (IH cards1 w2) as (cards & w3 & -> & Hs3).
    exists cards, w3. split; [reflexivity |].
    eapply same_store_trans; [exact Hs |].
    eapply same_store_trans; eassumption.
Qed.

(** On the files of the fetcher the [except] branch of [analyze_with_ai] is
    never taken: the step returns cards and touches nothing but the uuid
    counter. *)
Lemma analyze_with_ai_run : forall files config w,
  exists cards w',
    analyze_with_ai files config w = (inr cards, w') /\ same_store w w'.
Proof.
  intros files config w. unfold analyze_with_ai, try_exceptM.
  destruct (language_cards_run (group_by_language files) [] w) as (cards & w' & -> & Hs).
  exists cards, w'. split; [reflexivity | exact Hs].
Qed.

Lemma job_of_same_store : forall analysis_id w w',
  same_store w w' -> job_of analysis_id w' = job_of analysis_id w.
Proof.
  intros analysis_id w w' (_ & H & _). unfold job_of. rewrite H. reflexivity.
Qed.

(** ** The background job, step by step *)

Lemma process_rest_run : forall db env repo_url user_id analysis_id w,
  process_rest db env repo_url user_id analysis_id w
  = match db FindConfig with
    | Some e => (raise e, w)
    | None =>
        match config_of user_id w with
        | None => (raise (ValueError "AI configuration not found"), w)
        | Some config =>
            match fetch_github_repo env repo_url with
            | inl e => (raise e, w)
            | inr repo_data =>
                match analyze_with_ai (RepoData.files repo_data) config w with
                | (inl e, w2) => (raise e, w2)
                | (inr flashcards, w2) =>
                    match db UpdateCompleted with
                    | Some e => (raise e, w2)
                    | None =>
                        (ok tt,
                         after_update analysis_id
                           (AnalysisDoc.set_completed flashcards
                              (RepoData.total_files repo_data)
                              (distinct env
                                 (map SourceFile.language (RepoData.files repo_data))))
                           w2)
                    end
                end
            end
        end
    end.
Proof.
  intros db env repo_url user_id analysis_id w.
  unfold process_rest, bind. rewrite find_config_awaited.
  destruct (db FindConfig) as [e |]; [reflexivity |].
  destruct (config_of user_id w) as [config |]; [| reflexivity].
  unfold lift. destruct (fetch_github_repo env repo_url) as [e | repo_data]; [reflexivity |].
  destruct (analyze_with_ai (RepoData.files repo_data) config w) as [[e | flashcards] w2];
    [reflexivity |].
  unfold analyses_update_one, awaited.
  destruct (db UpdateCompleted); reflexivity.
Qed.

Lemma process_body_run : forall db env repo_url user_id analysis_id w,
  process_body db env repo_url user_id analysis_id w
  = match db UpdateProcessing with
    | Some e => (raise e, w)
    | None =>
        process_rest db env repo_url user_id analysis_id
          (after_update analysis_id (AnalysisDoc.set_status "processing") w)
    end.
Proof.
  intros db env repo_url user_id analysis_id w.
  unfold process_body, bind, analyses_update_one, awaited.
  destruct (db UpdateProcessing); reflexivity.
Qed.

Lemma process_failed_run : forall db analysis_id e w,
  process_failed db analysis_id e w
  = match db UpdateFailed with
    | Some e' => (raise e', w)
    | None => (ok tt, after_update analysis_id (AnalysisDoc.set_failed (str_exn e)) w)
    end.
Proof.
  intros db analysis_id e w. unfold process_failed, analyses_update_one, awaited.
  destruct (db UpdateFailed); reflexivity.
Qed.

Lemma fetch_github_repo_raises : forall env repo_url e,
  fetch_github_repo env repo_url = raise e ->
  exists e0,
    fetch_github_repo_body env repo_url = raise e0
    /\ e = ValueError ("Failed to fetch repository: " ++ str_exn e0).
Proof.
  intros env repo_url e H. unfold fetch_github_repo, try_except in H.
  destruct (fetch_github_repo_body env repo_url) as [e0 | d]; [| discriminate H].
  exists e0. split; [reflexivity |]. unfold raise in H. injection H as <-. reflexivity.
Qed.




Example fetch_failure_marks_job_failed :
  job_of "job-1"
    (snd (process_repository_analysis answering quiet_env hello_url "u1" "job-1"
            world_with_job))
  = Some (AnalysisDoc.mk "job-1" hello_url "u1" "failed" 0 [] 0 []
            (Some "Failed to fetch repository: connection refused")).
Proof. reflexivity. Qed.

Example store_failure_marks_job_failed :
  job_of "job-1"
    (snd (process_repository_analysis processing_write_raises quiet_env hello_url
            "u1" "job-1" world_with_job))
  = Some (AnalysisDoc.mk "job-1" hello_url "u1" "failed" 0 [] 0 []
            (Some "localhost:27017: [Errno 111] Connection refused")).
Proof. reflexivity. Qed.


(** C10.  When the listed tree has no matching entry, the fetch succeeds
    with no file and [total_files = 0], the analysis of the empty list
    returns no card, and the job, run with a store that answers, is
    written [completed] with empty flashcards, no language and
    [total_files = 0]. *)
Theorem no_code_files_completes :
  forall db env repo_url user_id analysis_id owner repo tree config job w,
    store_answers db ->
    parse_repo_url repo_url = ok (owner, repo) ->
    listed_tree env owner repo = Some tree ->
    filter is_code_file tree = [] ->
    config_of user_id w = Some config ->
    job_of analysis_id w = Some job ->
    fetch_github_repo env repo_url = ok (RepoData.mk owner repo [] 0)
    /\ (forall w0, analyze_with_ai [] config w0 = (ok [], w0))
    /\ exists job',
         job_of analysis_id
           (snd (process_repository_analysis db env repo_url user_id analysis_id w))
         = Some job'
         /\ AnalysisDoc.status job' = "completed"
         /\ AnalysisDoc.flashcards job' = []
         /\ AnalysisDoc.languages job' = []
         /\ AnalysisDoc.total_files job' = 0
         /\ AnalysisDoc.error job' = AnalysisDoc.error job.
Proof.
  intros db env repo_url user_id analysis_id owner repo tree config job w
         Hdb Hp Hl Hnone Hc Hjob.
  assert (Hfetch : fetch_github_repo env repo_url = ok (RepoData.mk owner repo [] 0)).
  { rewrite (fetch_github_repo_succeeds env repo_url owner repo tree Hp Hl).
    - unfold fetched. rewrite Hnone. reflexivity.
    - intros item Hin. rewrite Hnone in Hin. destruct Hin. }
  split; [exact Hfetch |]. split; [intro w0; reflexivity |].
  exists (AnalysisDoc.set_completed [] 0 [] (AnalysisDoc.set_status "processing" job)).
  split; [| repeat split].
  unfold process_repository_analysis, try_exceptM.
  rewrite process_body_run, (Hdb UpdateProcessing), process_rest_run.
  rewrite (Hdb FindConfig), (Hdb UpdateCompleted), config_of_after_update, Hc, Hfetch.
  unfold ok. cbv beta iota. cbn [RepoData.files RepoData.total_files map].
  change (analyze_with_ai [] config ?x) with (@inr exn (list Flashcard.t) [], x).
  cbv beta iota. cbn [snd].
  apply job_of_after_update; [auto with jobs |].
  apply job_of_after_update; [auto with jobs | exact Hjob].
Qed.

Lemma no_code_files_completes_witness :
  fetch_github_repo env_no_code hello_url
  = ok (RepoData.mk "octocat" "Hello-World" [] 0)
  /\ (forall w0, analyze_with_ai [] sample_config w0 = (ok [], w0))
  /\ exists job',
       job_of "job-1"
         (snd (process_repository_analysis answering env_no_code hello_url "u1" "job-1"
                 world_with_job))
       = Some job'
       /\ AnalysisDoc.status job' = "completed"
       /\ AnalysisDoc.flashcards job' = []
       /\ AnalysisDoc.languages job' = []
       /\ AnalysisDoc.total_files job' = 0
       /\ AnalysisDoc.error job' = AnalysisDoc.error queued_job.
Proof.
  apply (no_code_files_completes answering env_no_code hello_url "u1" "job-1"
           "octocat" "Hello-World"
           [TreeItem.mk "blob" "README"; TreeItem.mk "tree" "docs"]
           sample_config queued_job world_with_job);
    try reflexivity.
  intro call. reflexivity.
Defined.

(** ** The analysis step *)

Lemma str_in_cons : forall x y l, str_in x (y :: l) = String.eqb x y || str_in x l.
Proof. reflexivity. Qed.

Arguments str_in : simpl never.

Lemma str_in_In : forall x l, str_in x l = true <-> In x l.
Proof.
  intros x l. unfold str_in. rewrite existsb_exists. split.
  - intros (y & Hin & E). apply String.eqb_eq in E. subst y. exact Hin.
  - intro Hin. exists x. split; [exact Hin | apply String.eqb_refl].
Qed.

Lemma first_seen_from_In : forall l seen x,
  In x (first_seen_from seen l) <-> In x l /\ ~ In x seen.
Proof.
  induction l as [| y l IH]; intros seen x; simpl.
  - tauto.
  - destruct (str_in y seen) eqn:E.
    + rewrite IH. apply str_in_In in E. split.
      * intros [H1 H2]. tauto.
      * intros [[-> | H1] H2]; [contradiction | tauto].
    + simpl. rewrite IH. simpl.
      assert (Hy : ~ In y seen).
      { intro H. apply str_in_In in H. congruence. }
      destruct (string_dec y x) as [-> | Hne]; [tauto |]. tauto.
Qed.

Lemma first_seen_from_NoDup : forall l seen, NoDup (first_seen_from seen l).
Proof.
  induction l as [| y l IH]; intros seen; simpl.
  - constructor.
  - destruct (str_in y seen); [apply IH |].
    constructor; [| apply IH].
    rewrite first_seen_from_In. simpl. tauto.
Qed.

Lemma first_seen_from_snoc : forall l seen x,
  first_seen_from seen (l ++ [x])
  = first_seen_from seen l ++ (if str_in x seen || str_in x l then [] else [x]).
Proof.
  induction l as [| y l IH]; intros seen x; simpl.
  - rewrite orb_false_r. destruct (str_in x seen); reflexivity.
  - destruct (str_in y seen) eqn:E.
    + rewrite IH. f_equal. rewrite str_in_cons.
      destruct (String.eqb x y) eqn:Exy.
      * apply String.eqb_eq in Exy. subst y. rewrite E. reflexivity.
      * reflexivity.
    + rewrite IH. simpl. f_equal. f_equal. rewrite !str_in_cons.
      destruct (String.eqb x y), (str_in x seen), (str_in x l); reflexivity.
Qed.

Lemma languages_of_In : forall files lang,
  In lang (languages_of files) <-> In lang (map SourceFile.language files).
Proof.
  intros files lang. unfold languages_of, first_seen.
  rewrite first_seen_from_In. simpl. tauto.
Qed.

Lemma languages_of_NoDup : forall files, NoDup (languages_of files).
Proof. intro files. apply first_seen_from_NoDup. Qed.

Lemma str_in_languages_of : forall files lang,
  str_in lang (languages_of files) = str_in lang (map SourceFile.language files).
Proof.
  intros files lang.
  destruct (str_in lang (map SourceFile.language files)) eqn:E.
  - apply str_in_In. apply languages_of_In. apply str_in_In. exact E.
  - destruct (str_in lang (languages_of files)) eqn:E2; [| reflexivity].
    apply str_in_In in E2. apply languages_of_In in E2. apply str_in_In in E2.
    congruence.
Qed.

Lemma languages_of_snoc : forall files f,
  languages_of (files ++ [f])
  = languages_of files
    ++ (if str_in (SourceFile.language f) (languages_of files) then []
        else [SourceFile.language f]).
Proof.
  intros files f. rewrite str_in_languages_of.
  unfold languages_of, first_seen. rewrite map_app. simpl.
  rewrite first_seen_from_snoc. reflexivity.
Qed.

Lemma files_of_snoc : forall lang files f,
  files_of lang (files ++ [f])
  = files_of lang files
    ++ (if String.eqb (SourceFile.language f) lang then [f] else []).
Proof.
  intros lang files f. unfold files_of. rewrite filter_app. reflexivity.
Qed.

Lemma files_of_absent : forall lang files,
  str_in lang (map SourceFile.language files) = false -> files_of lang files = [].
Proof.
  intros lang files. induction files as [| f files IH]; simpl; intro H.
  - reflexivity.
  - rewrite str_in_cons in H. apply orb_false_iff in H. destruct H as [H1 H2].
    rewrite String.eqb_sym, H1. apply IH. exact H2.
Qed.

Lemma files_of_present : forall lang files,
  In lang (languages_of files) -> exists f0 rest, files_of lang files = f0 :: rest.
Proof.
  intros lang files H. apply languages_of_In in H.
  induction files as [| f files IH]; simpl in *.
  - destruct H.
  - destruct (String.eqb (SourceFile.language f) lang) eqn:E.
    + eauto.
    + destruct H as [H | H]; [| exact (IH H)].
      apply String.eqb_neq in E. contradiction.
Qed.

(** Reading and writing a dict whose value at [lang] is [F lang]. *)
Lemma dict_get_tabulate : forall (F : string -> list SourceFile.t) langs k,
  dict_get k (map (fun lang => (lang, F lang)) langs)
  = if str_in k langs then Some (F k) else None.
Proof.
  intros F langs k. induction langs as [| y langs IH]; simpl.
  - reflexivity.
  - rewrite str_in_cons, (String.eqb_sym k y).
    destruct (String.eqb y k) eqn:E.
    + apply String.eqb_eq in E. subst y. reflexivity.
    + simpl. exact IH.
Qed.

Lemma dict_set_absent : forall (F : string -> list SourceFile.t) langs k v,
  str_in k langs = false ->
  dict_set k v (map (fun lang => (lang, F lang)) langs)
  = map (fun lang => (lang, F lang)) langs ++ [(k, v)].
Proof.
  intros F langs k v. induction langs as [| y langs IH]; simpl; intro H.
  - reflexivity.
  - rewrite str_in_cons in H. apply orb_false_iff in H. destruct H as [H1 H2].
    rewrite String.eqb_sym, H1. rewrite IH by exact H2. reflexivity.
Qed.

Lemma dict_set_present : forall (F : string -> list SourceFile.t) langs k v,
  NoDup langs ->
  In k langs ->
  dict_set k v (map (fun lang => (lang, F lang)) langs)
  = map (fun lang => (lang, if String.eqb lang k then v else F lang)) langs.
Proof.
  intros F langs k v. induction langs as [| y langs IH]; simpl; intros Hnd Hin.
  - destruct Hin.
  - inversion Hnd as [| ? ? Hy Hnd']; subst.
    destruct (String.eqb y k) eqn:E.
    + apply String.eqb_eq in E. subst y. f_equal.
      apply map_ext_in. intros lang Hl.
      destruct (String.eqb lang k) eqn:E2; [| reflexivity].
      apply String.eqb_eq in E2. subst lang. contradiction.
    + f_equal. apply IH; [exact Hnd' |].
      destruct Hin as [-> | Hin]; [| exact Hin].
      rewrite String.eqb_refl in E. discriminate E.
Qed.

Lemma dict_get_snoc_new : forall (d : Groups) k v,
  dict_get k d = None -> dict_get k (d ++ [(k, v)]) = Some v.
Proof.
  induction d as [| [k' v'] d IH]; simpl; intros k v H.
  - rewrite String.eqb_refl. reflexivity.
  - destruct (String.eqb k' k); [discriminate H | apply IH; exact H].
Qed.

Lemma dict_set_snoc_new : forall (d : Groups) k v v',
  dict_get k d = None -> dict_set k v' (d ++ [(k, v)]) = d ++ [(k, v')].
Proof.
  induction d as [| [k0 v0] d IH]; simpl; intros k v v' H.
  - rewrite String.eqb_refl. reflexivity.
  - destruct (String.eqb k0 k); [discriminate H |]. rewrite IH by exact H. reflexivity.
Qed.

(** One round of the grouping loop keeps the dict equal to the partition. *)
Lemma partition_snoc : forall files f,
  partition_by_language (files ++ [f]) = group_file (partition_by_language files) f.
Proof.
  intros files f. unfold group_file, partition_by_language.
  set (lang := SourceFile.language f).
  rewrite dict_get_tabulate. rewrite languages_of_snoc. fold lang.
  destruct (str_in lang (languages_of files)) eqn:E.
  - rewrite dict_get_tabulate, E. rewrite app_nil_r.
    rewrite dict_set_present;
      [| apply languages_of_NoDup | apply str_in_In; exact E].
    apply map_ext. intro k. rewrite files_of_snoc. fold lang.
    rewrite (String.eqb_sym k lang).
    destruct (String.eqb lang k) eqn:E2.
    + apply String.eqb_eq in E2. subst k. reflexivity.
    + rewrite app_nil_r. reflexivity.
  - assert (Hnone : dict_get lang
                      (map (fun k => (k, files_of k files)) (languages_of files)) = None).
    { rewrite dict_get_tabulate, E. reflexivity. }
    rewrite dict_set_absent by exact E.
    rewrite dict_get_snoc_new by exact Hnone.
    rewrite dict_set_snoc_new by exact Hnone.
    rewrite map_app. simpl. f_equal.
    + apply map_ext_in. intros k Hk. rewrite files_of_snoc. fold lang.
      destruct (String.eqb lang k) eqn:E2.
      * apply String.eqb_eq in E2. subst k. apply str_in_In in Hk. congruence.
      * rewrite app_nil_r. reflexivity.
    + rewrite files_of_snoc. fold lang. rewrite String.eqb_refl.
      rewrite files_of_absent; [reflexivity |].
      rewrite <- str_in_languages_of. exact E.
Qed.

(** The grouping loop computes the partition by language. *)
Lemma group_by_language_partition : forall files,
  group_by_language files = partition_by_language files.
Proof.
  intro files. induction files as [| f files IH] using rev_ind.
  - reflexivity.
  - unfold group_by_language in *. rewrite fold_left_app. simpl.
    rewrite IH. symmetry. apply partition_snoc.
Qed.

Lemma append_length : forall s1 s2,
  String.length (s1 ++ s2) = String.length s1 + String.length s2.
Proof.
  induction s1 as [| c s1 IH]; intro s2; simpl; [reflexivity | rewrite IH; reflexivity].
Qed.

(** The category of a file card is never the category of an architecture
    card: it ends in [" Files"]. *)
Lemma files_category_not_architecture : forall s,
  String.eqb (s ++ " Files") "Architecture" = false.
Proof.
  intro s. apply String.eqb_neq. intro H.
  assert (Hlen : String.length s = 6).
  { apply (f_equal String.length) in H. rewrite append_length in H. simpl in H. lia. }
  do 7 (destruct s as [| ? s]; simpl in Hlen; try discriminate Hlen).
  simpl in H. discriminate H.
Qed.

Lemma file_cards_spec : forall lang some_files flashcards w,
  exists cards w',
    file_cards lang some_files flashcards w = (inr cards, w')
    /\ same_store w w'
    /\ map erase_id cards
       = map erase_id flashcards ++ map (file_card "" lang) some_files.
Proof.
  intros lang some_files.
  induction some_files as [| file rest IH]; intros flashcards w; cbn [file_cards].
  - exists flashcards, w. split; [reflexivity |]. split; [apply same_store_refl |].
    simpl. rewrite app_nil_r. reflexivity.
  - unfold bind. destruct (uuid4_run w) as (w1 & -> & Hs & _).
    destruct (IH (flashcards ++ [file_card (rng w (drawn w)) lang file]) w1)
      as (cards & w2 & -> & Hs2 & Hcards).
    exists cards, w2. split; [reflexivity |].
    split; [eapply same_store_trans; eassumption |].
    rewrite Hcards, map_app, <- app_assoc. reflexivity.
Qed.

Lemma language_cards_spec : forall items flashcards w,
  exists cards w',
    language_cards items flashcards w = (inr cards, w')
    /\ same_store w w'
    /\ map erase_id cards
       = map erase_id flashcards
         ++ flat_map (fun item => language_block (fst item) (snd item)) items.
Proof.
  induction items as [| [lang lang_files] items IH]; intros flashcards w;
    cbn [language_cards].
  - exists flashcards, w. split; [reflexivity |]. split; [apply same_store_refl |].
    simpl. rewrite app_nil_r. reflexivity.
  - unfold bind. destruct (uuid4_run w) as (w1 & -> & Hs & _).
    destruct (file_cards_spec lang (firstn 3 lang_files)
                (flashcards ++ [architecture_card (rng w (drawn w)) lang lang_files]) w1)
      as (cards1 & w2 & -> & Hs2 & Hcards1).
    destruct (IH cards1 w2) as (cards & w3 & -> & Hs3 & Hcards).
    exists cards, w3. split; [reflexivity |]. split.
    + eapply same_store_trans; [exact Hs |]. eapply same_store_trans; eassumption.
    + rewrite Hcards, Hcards1, map_app. cbn [flat_map fst snd].
      unfold language_block. rewrite <- !app_assoc. reflexivity.
Qed.

Lemma flat_map_partition : forall files langs,
  flat_map (fun item : string * list SourceFile.t =>
              language_block (fst item) (snd item))
    (map (fun lang => (lang, files_of lang files)) langs)
  = flat_map (fun lang => language_block lang (files_of lang files)) langs.
Proof.
  intros files langs. induction langs as [| lang langs IH]; simpl.
  - reflexivity.
  - rewrite IH. reflexivity.
Qed.

Lemma is_architecture_erase_id : forall cards,
  List.length (filter is_architecture cards)
  = List.length (filter is_architecture (map erase_id cards)).
Proof.
  induction cards as [| c cards IH]; simpl; [reflexivity |].
  change (is_architecture (erase_id c)) with (is_architecture c).
  destruct (is_architecture c); simpl; rewrite IH; reflexivity.
Qed.

Lemma one_architecture_card_per_block : forall lang lang_files,
  List.length (filter is_architecture (language_block lang lang_files)) = 1.
Proof.
  intros lang lang_files. unfold language_block. cbn [filter].
  change (is_architecture (architecture_card "" lang lang_files)) with true.
  cbn [List.length]. f_equal.
  induction (firstn 3 lang_files) as [| f l IH]; [reflexivity |].
  cbn [map filter]. unfold is_architecture at 1. cbn [file_card Flashcard.category].
  rewrite files_category_not_architecture. exact IH.
Qed.

Lemma architecture_cards_count : forall files langs,
  List.length
    (filter is_architecture
       (flat_map (fun lang => language_block lang (files_of lang files)) langs))
  = List.length langs.
Proof.
  intros files langs. induction langs as [| lang langs IH]; [reflexivity |].
  cbn [flat_map]. rewrite filter_app, length_app, one_architecture_card_per_block, IH.
  reflexivity.
Qed.

(** C1.  The analysis step returns, for the languages of [files] in order
    of first occurrence, one block of cards each: the architecture card of
    the language, then one card for each of the first 3 files of that
    language.  There is exactly one architecture card for each language.
    The architecture card has category "Architecture", difficulty "Medium",
    a back naming the upper-cased language, the number of its files and the
    base names of its first 3 files, and the first 200 characters of the
    first file as snippet; a file card has category "<LANG> Files",
    difficulty "Easy" and the first 300 characters of its file as snippet.
    The statement holds for every list of files, the non-empty ones
    included. *)
Theorem analyze_with_ai_cards :
  forall files config w,
    exists cards w',
      analyze_with_ai files config w = (ok cards, w')
      /\ map erase_id cards
         = flat_map (fun lang => language_block lang (files_of lang files))
             (languages_of files)
      /\ NoDup (languages_of files)
      /\ (forall f, In f files -> In (SourceFile.language f) (languages_of files))
      /\ List.length (filter is_architecture cards) = List.length (languages_of files)
      /\ forall lang, In lang (languages_of files) ->
           exists f0 rest,
             files_of lang files = f0 :: rest
             /\ (let a := architecture_card "" lang (files_of lang files) in
                 Flashcard.category a = "Architecture"
                 /\ Flashcard.difficulty a = "Medium"
                 /\ Flashcard.back a
                    = ("This application uses " ++ Str.upper lang ++ " with "
                       ++ Str.of_nat (List.length (files_of lang files))
                       ++ " files. Key components include: "
                       ++ Str.join ", "
                            (map (fun f => Str.last_segment (SourceFile.path f))
                               (firstn 3 (files_of lang files))))%string
                 /\ Flashcard.code_snippet a
                    = Some (Str.take 200 (SourceFile.content f0)))
             /\ forall f, In f (firstn 3 (files_of lang files)) ->
                  let c := file_card "" lang f in
                  Flashcard.category c = (Str.upper lang ++ " Files")%string
                  /\ Flashcard.difficulty c = "Easy"
                  /\ Flashcard.code_snippet c
                     = Some (Str.take 300 (SourceFile.content f))
                  /\ Flashcard.file_path c = Some (SourceFile.path f).
Proof.
  intros files config w.
  destruct (language_cards_spec (group_by_language files) [] w)
    as (cards & w' & Hrun & _ & Hcards).
  exists cards, w'.
  assert (Hshape : map erase_id cards
                   = flat_map (fun lang => language_block lang (files_of lang files))
                       (languages_of files)).
  { rewrite Hcards, group_by_language_partition. unfold partition_by_language.
    simpl. apply flat_map_partition. }
  split.
  { unfold analyze_with_ai, try_exceptM. rewrite Hrun. reflexivity. }
  split; [exact Hshape |].
  split; [apply languages_of_NoDup |].
  split.
  { intros f Hin. apply languages_of_In. apply in_map. exact Hin. }
  split.
  { rewrite is_architecture_erase_id, Hshape. apply architecture_cards_count. }
  intros lang Hlang.
  destruct (files_of_present lang files Hlang) as (f0 & rest & Hfiles).
  exists f0, rest. split; [exact Hfiles |]. split.
  - rewrite Hfiles. repeat split.
  - intros f _. repeat split.
Qed.

Example analyze_three_files :
  match fst (analyze_with_ai three_files sample_config empty_world) with
  | inr cards =>
      map (fun c => (Flashcard.category c, Flashcard.code_snippet c, Flashcard.id c))
        cards
  | inl _ => []
  end
  = [("Architecture", Some "import os", "0");
     ("PY Files", Some "import os", "1");
     ("PY Files", Some "def f(): pass", "2");
     ("Architecture", Some "console.log(1)", "3");
     ("JS Files", Some "console.log(1)", "4")].
Proof. reflexivity. Qed.

(** ** The job state machine *)

Lemma status_history_app : forall id w w' l,
  history w' = history w ++ l ->
  status_history id w'
  = status_history id w ++ map snd (filter (fun e => String.eqb (fst e) id) l).
Proof.
  intros id w w' l H. unfold status_history. rewrite H, filter_app, map_app. reflexivity.
Qed.

Lemma status_history_same : forall id w w',
  history w' = history w -> status_history id w' = status_history id w.
Proof. intros id w w' H. unfold status_history. rewrite H. reflexivity. Qed.

Lemma status_history_ids : forall id w,
  status_history id w <> [] -> In id (map fst (history w)).
Proof.
  intros id w. unfold status_history.
  induction (history w) as [| [i s0] h IH]; simpl; intro H.
  - contradiction.
  - destruct (String.eqb i id) eqn:E.
    + left. apply String.eqb_eq. exact E.
    + right. apply IH. exact H.
Qed.

Lemma find_job_In : forall analysis_id l d,
  find (fun d => String.eqb (AnalysisDoc.id d) analysis_id) l = Some d ->
  In d l /\ AnalysisDoc.id d = analysis_id.
Proof.
  intros analysis_id l d H. apply find_some in H. destruct H as [H1 H2].
  split; [exact H1 | apply String.eqb_eq; exact H2].
Qed.

Lemma find_job_ids : forall analysis_id l,
  In analysis_id (map AnalysisDoc.id l) ->
  exists d, find (fun d => String.eqb (AnalysisDoc.id d) analysis_id) l = Some d.
Proof.
  intros analysis_id l. induction l as [| x l IH]; simpl; intro H.
  - destruct H.
  - destruct (String.eqb (AnalysisDoc.id x) analysis_id) eqn:E.
    + eauto.
    + destruct H as [H | H]; [| exact (IH H)].
      apply String.eqb_neq in E. contradiction.
Qed.

(** With ids that do not repeat, [update_one] rewrites exactly the
    documents carrying the id. *)
Lemma update_first_map : forall analysis_id upd l,
  NoDup (map AnalysisDoc.id l) ->
  update_first analysis_id upd l
  = map (fun d => if String.eqb (AnalysisDoc.id d) analysis_id then upd d else d) l.
Proof.
  intros analysis_id upd l. induction l as [| x l IH]; simpl; intro Hnd.
  - reflexivity.
  - inversion Hnd as [| ? ? Hx Hnd']; subst.
    destruct (String.eqb (AnalysisDoc.id x) analysis_id) eqn:E.
    + f_equal. rewrite <- (map_id l) at 1. apply map_ext_in. intros d Hd.
      destruct (String.eqb (AnalysisDoc.id d) analysis_id) eqn:E2; [| reflexivity].
      apply String.eqb_eq in E, E2. exfalso. apply Hx. rewrite E, <- E2.
      apply in_map. exact Hd.
    + f_equal. apply IH. exact Hnd'.
Qed.

Lemma update_first_ids : forall analysis_id upd l,
  keeps_id upd ->
  map AnalysisDoc.id (update_first analysis_id upd l) = map AnalysisDoc.id l.
Proof.
  intros analysis_id upd l Hk. induction l as [| x l IH]; simpl.
  - reflexivity.
  - destruct (String.eqb (AnalysisDoc.id x) analysis_id); simpl.
    + rewrite Hk. reflexivity.
    + rewrite IH. reflexivity.
Qed.

Lemma after_update_fields : forall analysis_id upd w d,
  job_of analysis_id w = Some d ->
  analyses (after_update analysis_id upd w)
  = update_first analysis_id upd (analyses w)
  /\ background_tasks (after_update analysis_id upd w) = background_tasks w
  /\ rng (after_update analysis_id upd w) = rng w
  /\ drawn (after_update analysis_id upd w) = drawn w
  /\ history (after_update analysis_id upd w)
     = history w ++ [(analysis_id, AnalysisDoc.status (upd d))].
Proof.
  intros analysis_id upd w d H. rewrite (after_update_found _ _ _ _ H).
  repeat split.
Qed.

(** What the start of a task does: the store raises and nothing is
    written, or [processing] is written. *)
Lemma start_task_cases : forall db t w,
  (exists e,
     db UpdateProcessing = Some e
     /\ start_task db t w = w
     /\ suspend db t w = Suspended.mk t (raise e))
  \/ (db UpdateProcessing = None
      /\ start_task db t w
         = after_update (Task.analysis_id t) (AnalysisDoc.set_status "processing") w
      /\ suspend db t w = Suspended.mk t (ok tt)).
Proof.
  intros db t w. unfold start_task, suspend, first_await, analyses_update_one, awaited.
  destruct (db UpdateProcessing) as [e |].
  - left. exists e. repeat split.
  - right. repeat split.
Qed.

(** A task run in one go is its start followed by its resumption. *)
Lemma run_task_split : forall db env t w,
  run_task db env t w = resume_task db env (suspend db t w) (start_task db t w).
Proof.
  intros db env t w.
  unfold run_task, process_repository_analysis, process_body, resume_task, start_task,
    suspend, first_await, try_exceptM, bind, lift, analyses_update_one, awaited.
  cbn [Suspended.task Suspended.first_write].
  destruct (db UpdateProcessing); reflexivity.
Qed.

Lemma process_failed_cases : forall db analysis_id e w,
  (snd (process_failed db analysis_id e w) = w /\ exists e', db UpdateFailed = Some e')
  \/ snd (process_failed db analysis_id e w)
     = after_update analysis_id (AnalysisDoc.set_failed (str_exn e)) w.
Proof.
  intros db analysis_id e w. rewrite process_failed_run.
  destruct (db UpdateFailed) as [e' |]; [left | right]; [| reflexivity].
  split; [reflexivity | exists e'; reflexivity].
Qed.

(** What the resumption of a started task does: apart from the uuids it
    draws it writes nothing (the write of the [except] branch raised), or
    it writes [completed] with results (only after a first write that was
    carried out), or it writes [failed] with the text of the exception
    that ended the [try]. *)
Lemma resume_task_cases : forall db env c w,
  exists w2,
    same_store w w2
    /\ ((resume_task db env c w = w2 /\ exists e', db UpdateFailed = Some e')
        \/ (Suspended.first_write c = ok tt
            /\ exists config data cards,
                 fetch_github_repo env (Task.repo_url (Suspended.task c)) = ok data
                 /\ analyze_with_ai (RepoData.files data) config w = (ok cards, w2)
                 /\ resume_task db env c w
                    = after_update (started_id c)
                        (AnalysisDoc.set_completed cards (RepoData.total_files data)
                           (distinct env
                              (map SourceFile.language (RepoData.files data))))
                        w2)
        \/ (exists e,
              resume_task db env c w
              = after_update (started_id c) (AnalysisDoc.set_failed (str_exn e)) w2
              /\ (Suspended.first_write c = raise e
                  \/ (exists call, db call = Some e)
                  \/ (exists msg, e = ValueError msg /\ msg <> "")))).
Proof.
  intros db env c w. unfold started_id.
  set (id := Task.analysis_id (Suspended.task c)).
  assert (Hfail : forall e w2,
            same_store w w2 ->
            (Suspended.first_write c = raise e
             \/ (exists call, db call = Some e)
             \/ (exists msg, e = ValueError msg /\ msg <> "")) ->
            exists w3,
              same_store w w3
              /\ ((snd (process_failed db id e w2) = w3
                   /\ exists e', db UpdateFailed = Some e')
                  \/ (Suspended.first_write c = ok tt
                      /\ exists config data cards,
                           fetch_github_repo env (Task.repo_url (Suspended.task c))
                           = ok data
                           /\ analyze_with_ai (RepoData.files data) config w
                              = (ok cards, w3)
                           /\ snd (process_failed db id e w2)
                              = after_update id
                                  (AnalysisDoc.set_completed cards
                                     (RepoData.total_files data)
                                     (distinct env
                                        (map SourceFile.language
                                           (RepoData.files data))))
                                  w3)
                  \/ (exists e',
                        snd (process_failed db id e w2)
                        = after_update id (AnalysisDoc.set_failed (str_exn e')) w3
                        /\ (Suspended.first_write c = raise e'
                            \/ (exists call, db call = Some e')
                            \/ (exists msg, e' = ValueError msg /\ msg <> ""))))).
  { intros e w2 Hs Hwhy. exists w2. split; [exact Hs |].
    destruct (process_failed_cases db id e w2) as [[-> Hdown] | ->].
    - left. split; [reflexivity | exact Hdown].
    - right. right. exists e. split; [reflexivity | exact Hwhy]. }
  unfold resume_task, try_exceptM, bind, lift. fold id.
  destruct (Suspended.first_write c) as [e | []] eqn:Hfirst.
  { apply Hfail; [apply same_store_refl | left; reflexivity]. }
  rewrite process_rest_run.
  destruct (db FindConfig) as [e |] eqn:Hfind.
  { unfold raise. cbv beta iota.
    apply Hfail; [apply same_store_refl | right; left; exists FindConfig; exact Hfind]. }
  destruct (config_of (Task.user_id (Suspended.task c)) w) as [config |].
  - destruct (fetch_github_repo env (Task.repo_url (Suspended.task c)))
      as [e | repo_data] eqn:Hfetch.
    + unfold raise. cbv beta iota.
      destruct (fetch_github_repo_raises _ _ _ Hfetch) as (e0 & _ & ->).
      apply Hfail; [apply same_store_refl |]. right. right.
      eexists. split; [reflexivity | discriminate].
    + destruct (analyze_with_ai_run (RepoData.files repo_data) config w)
        as (cards & w2 & Ha & Hsame).
      rewrite Ha. destruct (db UpdateCompleted) as [e |] eqn:Hdone.
      * unfold raise. cbv beta iota.
        apply Hfail; [exact Hsame | right; left; exists UpdateCompleted; exact Hdone].
      * exists w2. split; [exact Hsame |]. right. left. split; [reflexivity |].
        exists config, repo_data, cards. repeat split. exact Ha.
  - unfold raise. cbv beta iota.
    apply Hfail; [apply same_store_refl |]. right. right.
    eexists. split; [reflexivity | discriminate].
Qed.

(** What a request does to the world: nothing to the jobs, or (a submission
    that is accepted) one new queued job under a new uuid with its task. *)
Lemma handle_effect : forall env r w,
  (analyses (handle env r w) = analyses w
   /\ background_tasks (handle env r w) = background_tasks w
   /\ rng (handle env r w) = rng w
   /\ drawn (handle env r w) = drawn w
   /\ history (handle env r w) = history w)
  \/ (exists doc t,
        AnalysisDoc.id doc = rng w (drawn w)
        /\ AnalysisDoc.status doc = "queued"
        /\ AnalysisDoc.flashcards doc = []
        /\ Task.analysis_id t = rng w (drawn w)
        /\ analyses (handle env r w) = analyses w ++ [doc]
        /\ background_tasks (handle env r w) = background_tasks w ++ [t]
        /\ rng (handle env r w) = rng w
        /\ drawn (handle env r w) = S (drawn w)
        /\ history (handle env r w) = history w ++ [(rng w (drawn w), "queued")]).
Proof.
  intros env r w.
  destruct r as [config | user_id | analysis | analysis_id | user_id]; simpl.
  - left. unfold save_ai_config, try_exceptM.
    destruct (negb (in_catalog _ _)); repeat split.
  - left. unfold get_ai_config, try_exceptM, bind. rewrite find_config_run.
    destruct (config_of user_id w) as [c |]; [| repeat split].
    destruct (lookup (ConfigDoc.provider c) AI_MODELS) as [models |]; [| repeat split].
    destruct (lookup (ConfigDoc.model c) models); repeat split.
  - unfold analyze_repository, try_exceptM, bind. rewrite find_config_run.
    destruct (config_of (RepoAnalysis.user_id analysis) w) as [c |].
    + right. eexists. eexists. simpl. repeat split; reflexivity.
    + left. repeat split.
  - left. unfold get_analysis, try_exceptM, bind, analyses_find_one.
    destruct (find _ (analyses w)); repeat split.
  - left. repeat split.
Qed.

Lemma NoDup_snoc : forall (l : list string) x, NoDup l -> ~ In x l -> NoDup (l ++ [x]).
Proof.
  induction l as [| y l IH]; simpl; intros x Hnd Hx.
  - constructor; [intros [] | constructor].
  - inversion Hnd as [| ? ? Hy Hnd']; subst. constructor.
    + rewrite in_app_iff. simpl. intros [H | [H | []]]; [contradiction |].
      apply Hx. left. symmetry. exact H.
    + apply IH; [exact Hnd' | tauto].
Qed.

Lemma status_history_write : forall id w w' target s,
  history w' = history w ++ [(target, s)] ->
  status_history id w'
  = status_history id w ++ (if String.eqb target id then [s] else []).
Proof.
  intros id w w' target s H. rewrite (status_history_app id w w' _ H). simpl.
  destruct (String.eqb target id); reflexivity.
Qed.



Lemma NoDup_app_inv : forall (l l' : list string),
  NoDup (l ++ l') -> NoDup l /\ NoDup l' /\ forall x, In x l -> ~ In x l'.
Proof.
  induction l as [| y l IH]; simpl; intros l' H.
  - split; [constructor |]. split; [exact H | intros x []].
  - inversion H as [| ? ? Hy Hnd]; subst. destruct (IH l' Hnd) as (H1 & H2 & H3).
    split; [| split; [exact H2 |]].
    + constructor; [| exact H1]. intro Hin. apply Hy. apply in_or_app. left. exact Hin.
    + intros x [<- | Hx]; [| apply H3; exact Hx].
      intro Hin. apply Hy. apply in_or_app. right. exact Hin.
Qed.

Lemma running_ids_In : forall s c, In c (running s) -> In (started_id c) (running_ids s).
Proof. intros s c H. unfold running_ids. apply in_map. exact H. Qed.

Lemma Inv_start : forall s0, fresh s0 -> Inv s0 s0.
Proof.
  intros s0 (Ha & Ht & Hh & Hr).
  assert (Hempty : forall id, status_history id (world s0) = []).
  { intro id. unfold status_history. rewrite Hh. reflexivity. }
  constructor; unfold task_ids, running_ids, job_ids; rewrite ?Ha, ?Ht, ?Hh, ?Hr; simpl.
  - reflexivity.
  - intros id [].
  - constructor.
  - constructor.
  - intro id. rewrite Hempty. left. left. reflexivity.
  - intros id [].
  - intros c [].
  - intros d [].
  - intros id H. exfalso. apply H. apply Hempty.
  - intros d [].
Qed.

(** An event that writes to no job keeps the invariant: tasks may leave,
    and a task may pass from scheduled to started with the exception of
    its first write. *)
Lemma Inv_still : forall s0 s s',
  Inv s0 s ->
  analyses (world s') = analyses (world s) ->
  rng (world s') = rng (world s) ->
  drawn (world s) <= drawn (world s') ->
  history (world s') = history (world s) ->
  NoDup (task_ids (world s') ++ running_ids s') ->
  (forall id, In id (task_ids (world s')) -> In id (task_ids (world s))) ->
  (forall c, In c (running s') ->
     In c (running s)
     \/ (In (started_id c) (task_ids (world s))
         /\ exists e, Suspended.first_write c = raise e)) ->
  Inv s0 s'.
Proof.
  intros s0 s s' [I1 I2 I3 I4 I5 I6 I7 I8 I9 I10] Ha Hr Hd Hh Hnd Pt Pr.
  assert (Hs : forall id, status_history id (world s') = status_history id (world s)).
  { intro id. apply status_history_same. exact Hh. }
  constructor.
  - rewrite Hr. exact I1.
  - intros id Hin. rewrite Hh in Hin. destruct (I2 id Hin) as (k & Hk & Heq).
    exists k. rewrite Hr. split; [lia | exact Heq].
  - exact Hnd.
  - unfold job_ids. rewrite Ha. exact I4.
  - intro id. rewrite Hs. apply I5.
  - intros id Hin. rewrite Hs. apply I6. apply Pt. exact Hin.
  - intros c Hin. rewrite Hs. destruct (Pr c Hin) as [Hold | (Htask & e & He)].
    + apply I7. exact Hold.
    + right. exists e. split; [exact He |]. apply I6. exact Htask.
  - intros d Hin. rewrite Hs. apply I8. rewrite <- Ha. exact Hin.
  - intros id Hne. rewrite Hs in Hne. unfold job_ids. rewrite Ha. apply I9. exact Hne.
  - intros d Hin. apply I10. rewrite <- Ha. exact Hin.
Qed.

(** An accepted submission keeps the invariant: the uuid it draws is new. *)
Lemma Inv_submit : forall s0 s s' doc t,
  (forall i j, rng (world s0) i = rng (world s0) j -> i = j) ->
  Inv s0 s ->
  AnalysisDoc.id doc = rng (world s) (drawn (world s)) ->
  AnalysisDoc.status doc = "queued" ->
  AnalysisDoc.flashcards doc = [] ->
  Task.analysis_id t = rng (world s) (drawn (world s)) ->
  analyses (world s') = analyses (world s) ++ [doc] ->
  background_tasks (world s') = background_tasks (world s) ++ [t] ->
  rng (world s') = rng (world s) ->
  drawn (world s') = S (drawn (world s)) ->
  history (world s')
  = history (world s) ++ [(rng (world s) (drawn (world s)), "queued")] ->
  running s' = running s ->
  Inv s0 s'.
Proof.
  intros s0 s s' doc t Hinj [I1 I2 I3 I4 I5 I6 I7 I8 I9 I10]
         Hid Hst Hfc Htid Ha Ht Hr Hd Hh Hrun.
  set (w := world s) in *. set (w' := world s') in *.
  set (id0 := rng w (drawn w)) in *.
  assert (Hnew : status_history id0 w = []).
  { destruct (status_history id0 w) eqn:E; [reflexivity |]. exfalso.
    assert (Hne : status_history id0 w <> []) by (rewrite E; discriminate).
    apply status_history_ids in Hne. destruct (I2 _ Hne) as (k & Hk & Heq).
    unfold id0 in Heq. rewrite I1 in Heq. apply Hinj in Heq. lia. }
  assert (Hnot_task : ~ In id0 (task_ids w)).
  { intro H. apply I6 in H. rewrite Hnew in H. discriminate H. }
  assert (Hnot_run : ~ In id0 (running_ids s)).
  { intro H. unfold running_ids in H. apply in_map_iff in H.
    destruct H as (c & Hc & Hin).
    destruct (I7 c Hin) as [[_ H] | (e & _ & H)];
      rewrite Hc in H; fold w in H; rewrite Hnew in H; discriminate H. }
  assert (Hnot_job : ~ In id0 (job_ids w)).
  { intro H. unfold job_ids in H. apply in_map_iff in H. destruct H as (d & Hd1 & Hd2).
    destruct (I8 d Hd2) as [Hne _]. rewrite Hd1, Hnew in Hne. apply Hne. reflexivity. }
  assert (Hs : forall id, status_history id w'
                          = status_history id w
                            ++ (if String.eqb id0 id then ["queued"] else [])).
  { intro id. apply status_history_write. exact Hh. }
  assert (Hother : forall id, id <> id0 -> status_history id w' = status_history id w).
  { intros id Hne. rewrite Hs. destruct (String.eqb id0 id) eqn:E.
    - apply String.eqb_eq in E. congruence.
    - apply app_nil_r. }
  assert (Hself : status_history id0 w' = ["queued"]).
  { rewrite Hs, String.eqb_refl, Hnew. reflexivity. }
  assert (Htasks : task_ids w' = task_ids w ++ [id0]).
  { unfold task_ids. rewrite Ht, map_app. simpl. rewrite Htid. reflexivity. }
  assert (Hruns : running_ids s' = running_ids s).
  { unfold running_ids. rewrite Hrun. reflexivity. }
  assert (Hjobs : job_ids w' = job_ids w ++ [id0]).
  { unfold job_ids. rewrite Ha, map_app. simpl. rewrite Hid. reflexivity. }
  constructor; fold w'.
  - rewrite Hr. exact I1.
  - intros id Hin. rewrite Hh, map_app, in_app_iff in Hin. rewrite Hr, Hd.
    destruct Hin as [Hin | [<- | []]].
    + destruct (I2 id Hin) as (k & Hk & Heq). exists k. split; [lia | exact Heq].
    + exists (drawn w). split; [lia | reflexivity].
  - rewrite Htasks, Hruns, <- app_assoc. simpl.
    apply (Permutation_NoDup (Permutation_middle _ _ id0)).
    constructor; [| exact I3].
    rewrite in_app_iff. tauto.
  - rewrite Hjobs. apply NoDup_snoc; assumption.
  - intro id. destruct (string_dec id id0) as [-> | Hne].
    + rewrite Hself. left. right. left. reflexivity.
    + rewrite (Hother id Hne). apply I5.
  - intros id Hin. rewrite Htasks, in_app_iff in Hin.
    destruct Hin as [Hin | [<- | []]]; [| exact Hself].
    rewrite Hother; [apply I6; exact Hin |]. intros ->. contradiction.
  - intros c Hin. rewrite Hrun in Hin.
    rewrite Hother; [apply I7; exact Hin |].
    intro Heq. apply Hnot_run. rewrite <- Heq. apply running_ids_In. exact Hin.
  - intros d Hin. rewrite Ha, in_app_iff in Hin.
    destruct Hin as [Hin | [<- | []]].
    + rewrite Hother; [apply I8; exact Hin |].
      intro Heq. apply Hnot_job. rewrite <- Heq. unfold job_ids. apply in_map. exact Hin.
    + rewrite Hid. fold id0. rewrite Hself. simpl. split; [discriminate | exact Hst].
  - intros id Hne. rewrite Hjobs, in_app_iff.
    destruct (string_dec id id0) as [-> | Hneq]; [right; left; reflexivity |].
    left. apply I9. rewrite <- (Hother id Hneq). exact Hne.
  - intros d Hin Hnc. rewrite Ha, in_app_iff in Hin.
    destruct Hin as [Hin | [<- | []]]; [apply I10; assumption | exact Hfc].
Qed.

(** One write to the job [id0], whose history so far is [h], keeps the
    invariant when the longer history is on the path of the code and the
    tasks are re-filed to match it. *)
Lemma Inv_write : forall s0 s s' id0 upd x h,
  Inv s0 s ->
  status_history id0 (world s) = h ->
  h <> [] ->
  last h "" <> "completed" ->
  written_path (h ++ [x]) ->
  analyses (world s') = update_first id0 upd (analyses (world s)) ->
  rng (world s') = rng (world s) ->
  drawn (world s) <= drawn (world s') ->
  history (world s') = history (world s) ++ [(id0, x)] ->
  keeps_id upd ->
  (forall d, AnalysisDoc.status (upd d) = x) ->
  (x <> "completed" ->
   forall d, AnalysisDoc.flashcards (upd d) = AnalysisDoc.flashcards d) ->
  NoDup (task_ids (world s') ++ running_ids s') ->
  (forall id, In id (task_ids (world s')) ->
     In id (task_ids (world s)) /\ id <> id0) ->
  (forall c, In c (running s') ->
     (In c (running s) /\ started_id c <> id0)
     \/ (started_id c = id0 /\ Suspended.first_write c = ok tt
         /\ h ++ [x] = ["queued"; "processing"])) ->
  Inv s0 s'.
Proof.
  intros s0 s s' id0 upd x h [I1 I2 I3 I4 I5 I6 I7 I8 I9 I10]
         Hh0 Hne0 Hlast Hpath Ha Hr Hd Hh Hk Hst Hfc Hnd Ptasks Pruns.
  set (w := world s) in *. set (w' := world s') in *.
  assert (Hs : forall id, status_history id w'
                          = status_history id w
                            ++ (if String.eqb id0 id then [x] else [])).
  { intro id. apply status_history_write. exact Hh. }
  assert (Hother : forall id, id <> id0 -> status_history id w' = status_history id w).
  { intros id Hne. rewrite Hs. destruct (String.eqb id0 id) eqn:E.
    - apply String.eqb_eq in E. congruence.
    - apply app_nil_r. }
  assert (Hself : status_history id0 w' = h ++ [x]).
  { rewrite Hs, String.eqb_refl, Hh0. reflexivity. }
  assert (Hjobs : job_ids w' = job_ids w).
  { unfold job_ids. rewrite Ha. apply update_first_ids. exact Hk. }
  assert (Hdocs : analyses w'
                  = map (fun d => if String.eqb (AnalysisDoc.id d) id0 then upd d else d)
                      (analyses w)).
  { rewrite Ha. apply update_first_map. exact I4. }
  constructor; fold w'.
  - rewrite Hr. exact I1.
  - intros id Hin. rewrite Hr.
    assert (Hin' : In id (map fst (history w))).
    { rewrite Hh, map_app, in_app_iff in Hin. simpl in Hin.
      destruct Hin as [Hin | [<- | []]]; [exact Hin |].
      apply status_history_ids. fold w. rewrite Hh0. exact Hne0. }
    destruct (I2 id Hin') as (k & Hklt & Heq). exists k. split; [lia | exact Heq].
  - exact Hnd.
  - rewrite Hjobs. exact I4.
  - intro id. destruct (string_dec id id0) as [-> | Hne].
    + rewrite Hself. exact Hpath.
    + rewrite (Hother id Hne). apply I5.
  - intros id Hin. destruct (Ptasks id Hin) as [Hin' Hne].
    rewrite (Hother id Hne). apply I6. exact Hin'.
  - intros c Hin. destruct (Pruns c Hin) as [[Hin' Hne] | (Hc & Hok & Hqp)].
    + rewrite (Hother _ Hne). apply I7. exact Hin'.
    + left. split; [exact Hok |]. rewrite Hc, Hself. exact Hqp.
  - intros d' Hin. rewrite Hdocs in Hin. apply in_map_iff in Hin.
    destruct Hin as (d & Heq & Hin).
    destruct (String.eqb (AnalysisDoc.id d) id0) eqn:E.
    + subst d'. rewrite Hk. apply String.eqb_eq in E. rewrite E, Hself, Hst.
      split.
      * destruct h; discriminate.
      * rewrite last_last. reflexivity.
    + subst d'. apply String.eqb_neq in E. rewrite (Hother _ E). apply I8. exact Hin.
  - intros id Hne. rewrite Hjobs.
    destruct (string_dec id id0) as [-> | Hneq].
    + apply I9. fold w. rewrite Hh0. exact Hne0.
    + rewrite (Hother id Hneq) in Hne. apply I9. exact Hne.
  - intros d' Hin Hnc. rewrite Hdocs in Hin. apply in_map_iff in Hin.
    destruct Hin as (d & Heq & Hin).
    destruct (String.eqb (AnalysisDoc.id d) id0) eqn:E.
    + subst d'. rewrite Hst in Hnc. rewrite (Hfc Hnc). apply I10; [exact Hin |].
      destruct (I8 d Hin) as [_ Hstored]. apply String.eqb_eq in E.
      rewrite Hstored. fold w. rewrite E, Hh0. exact Hlast.
    + subst d'. apply I10; assumption.
Qed.

(** The start of a scheduled task keeps the invariant, whether the store
    carries out the write of [processing] or raises. *)
Lemma Inv_begin : forall s0 s db t before after,
  Inv s0 s ->
  background_tasks (world s) = before ++ t :: after ->
  Inv s0 (mkService (start_task db t (take_task before after (world s)))
            (suspend db t (take_task before after (world s)) :: running s)).
Proof.
  intros s0 s db t before after HI Hq.
  set (id0 := Task.analysis_id t).
  set (w1 := take_task before after (world s)).
  assert (Hold : task_ids (world s)
                 = map Task.analysis_id before ++ id0 :: map Task.analysis_id after).
  { unfold task_ids. rewrite Hq, map_app. reflexivity. }
  assert (Hnew : task_ids w1 = map Task.analysis_id before ++ map Task.analysis_id after).
  { unfold task_ids, w1. cbn [take_task background_tasks]. apply map_app. }
  assert (Hqueued : status_history id0 (world s) = ["queued"]).
  { apply (inv_pending _ _ HI). rewrite Hold. apply in_elt. }
  pose proof (inv_tasks _ _ HI) as Hnd. rewrite Hold, <- app_assoc in Hnd.
  cbn [app] in Hnd.
  assert (Hapart : ~ In id0 ((map Task.analysis_id before ++ map Task.analysis_id after)
                             ++ running_ids s)).
  { rewrite <- app_assoc. exact (NoDup_remove_2 _ _ _ Hnd). }
  assert (Hnd' : forall c, started_id c = id0 ->
            NoDup (task_ids w1 ++ running_ids (mkService w1 (c :: running s)))).
  { intros c Hc. rewrite Hnew. unfold running_ids. cbn [running map]. rewrite Hc.
    apply (Permutation_NoDup (Permutation_middle _ _ id0)).
    rewrite <- app_assoc.
    exact (Permutation_NoDup
             (Permutation_sym
                (Permutation_middle (map Task.analysis_id before)
                   (map Task.analysis_id after ++ running_ids s) id0)) Hnd). }
  assert (Htask_in : forall id, In id (task_ids w1) -> In id (task_ids (world s)) /\ id <> id0).
  { intros id Hin. rewrite Hnew in Hin. split.
    - rewrite Hold. apply in_app_iff in Hin. apply in_app_iff. simpl. tauto.
    - intros ->. apply Hapart. apply in_or_app. left. exact Hin. }
  assert (Hrun_in : forall c, In c (running s) -> started_id c <> id0).
  { intros c Hin Heq. apply Hapart. apply in_or_app. right. rewrite <- Heq.
    apply running_ids_In. exact Hin. }
  destruct (start_task_cases db t w1) as [(e & He & -> & ->) | (Hok & -> & ->)].
  - apply (Inv_still s0 s _ HI); cbn [world running].
    + reflexivity.
    + reflexivity.
    + apply le_n.
    + reflexivity.
    + apply Hnd'. reflexivity.
    + intros id Hin. apply Htask_in. exact Hin.
    + intros c [<- | Hin]; [| left; exact Hin]. right. split.
      * unfold started_id. cbn [Suspended.task]. fold id0. rewrite Hold. apply in_elt.
      * exists e. reflexivity.
  - assert (Hjob : exists d, job_of id0 w1 = Some d).
    { apply (find_job_ids id0 (analyses (world s))). apply (inv_known _ _ HI).
      rewrite Hqueued. discriminate. }
    destruct Hjob as [d Hjob].
    destruct (after_update_fields id0 (AnalysisDoc.set_status "processing") w1 d Hjob)
      as (A & T & R & D & H).
    apply (Inv_write s0 s _ id0 (AnalysisDoc.set_status "processing") "processing"
             ["queued"] HI Hqueued); cbn [world running]; fold id0.
    + discriminate.
    + discriminate.
    + left. right. right. left. reflexivity.
    + exact A.
    + exact R.
    + rewrite D. apply le_n.
    + exact H.
    + auto with jobs.
    + reflexivity.
    + reflexivity.
    + unfold task_ids. rewrite T. apply Hnd'. reflexivity.
    + intros id Hin. unfold task_ids in Hin. rewrite T in Hin. apply Htask_in. exact Hin.
    + intros c [<- | Hin].
      * right. repeat split.
      * left. split; [exact Hin | apply Hrun_in; exact Hin].
Qed.

Lemma same_store_after_update_fields : forall analysis_id upd w w2 d,
  same_store w w2 ->
  job_of analysis_id w = Some d ->
  analyses (after_update analysis_id upd w2)
  = update_first analysis_id upd (analyses w)
  /\ background_tasks (after_update analysis_id upd w2) = background_tasks w
  /\ rng (after_update analysis_id upd w2) = rng w
  /\ drawn w <= drawn (after_update analysis_id upd w2)
  /\ history (after_update analysis_id upd w2)
     = history w ++ [(analysis_id, AnalysisDoc.status (upd d))].
Proof.
  intros analysis_id upd w w2 d Hsame Hjob.
  assert (Hjob2 : job_of analysis_id w2 = Some d).
  { rewrite (job_of_same_store _ _ _ Hsame). exact Hjob. }
  destruct (after_update_fields analysis_id upd w2 d Hjob2) as (A & T & R & D & H).
  destruct Hsame as (_ & SA & ST & SR & SH & SD).
  rewrite A, T, R, D, H, SA, ST, SR, SH. repeat split. exact SD.
Qed.

(** The end of a started task keeps the invariant, whatever the store does
    with its calls. *)
Lemma Inv_finish : forall s0 s db env c before after,
  Inv s0 s ->
  running s = before ++ c :: after ->
  Inv s0 (mkService (resume_task db env c (world s)) (before ++ after)).
Proof.
  intros s0 s db env c before after HI Hq.
  set (id0 := started_id c).
  assert (Hin_c : In c (running s)).
  { rewrite Hq. apply in_elt. }
  assert (Hold : running_ids s = map started_id before ++ id0 :: map started_id after).
  { unfold running_ids. rewrite Hq, map_app. reflexivity. }
  pose proof (inv_tasks _ _ HI) as Hnd. rewrite Hold, app_assoc in Hnd.
  assert (Hnd' : forall w', task_ids w' = task_ids (world s) ->
            NoDup (task_ids w' ++ running_ids (mkService w' (before ++ after)))).
  { intros w' ->. unfold running_ids. cbn [running]. rewrite map_app, app_assoc.
    exact (NoDup_remove_1 _ _ _ Hnd). }
  assert (Hapart : ~ In id0 (task_ids (world s)
                             ++ map started_id before ++ map started_id after)).
  { rewrite app_assoc. exact (NoDup_remove_2 _ _ _ Hnd). }
  assert (Hrest : forall c', In c' (before ++ after) ->
            In c' (running s) /\ started_id c' <> id0).
  { intros c' Hin. split.
    - rewrite Hq. apply in_app_iff in Hin. apply in_app_iff. simpl. tauto.
    - intro Heq. apply Hapart. apply in_or_app. right. rewrite <- Heq, <- map_app.
      apply in_map. exact Hin. }
  assert (Htask : forall id, In id (task_ids (world s)) -> id <> id0).
  { intros id Hin ->. apply Hapart. apply in_or_app. left. exact Hin. }
  assert (Hhist : (Suspended.first_write c = ok tt
                   /\ status_history id0 (world s) = ["queued"; "processing"])
                  \/ (exists e, Suspended.first_write c = raise e
                                /\ status_history id0 (world s) = ["queued"])).
  { exact (inv_running _ _ HI c Hin_c). }
  assert (Hjob : exists d, job_of id0 (world s) = Some d).
  { apply find_job_ids. apply (inv_known _ _ HI).
    destruct Hhist as [[_ ->] | (e & _ & ->)]; discriminate. }
  destruct Hjob as [d Hjob].
  destruct (resume_task_cases db env c (world s)) as (w2 & Hsame & Hcases).
  fold id0 in Hcases.
  destruct Hcases
    as [[-> _] | [(Hok & config & data & cards & _ & _ & ->) | (e & -> & Hwhy)]].
  - destruct Hsame as (_ & SA & ST & SR & SH & SD).
    apply (Inv_still s0 s _ HI); cbn [world running].
    + exact SA.
    + exact SR.
    + exact SD.
    + exact SH.
    + apply Hnd'. unfold task_ids. rewrite ST. reflexivity.
    + intros id Hin. unfold task_ids in *. rewrite ST in Hin. exact Hin.
    + intros c' Hin. left. apply Hrest. exact Hin.
  - destruct Hhist as [[_ Hproc] | (e & He & _)]; [| rewrite He in Hok; discriminate Hok].
    set (upd := AnalysisDoc.set_completed cards (RepoData.total_files data)
                  (distinct env (map SourceFile.language (RepoData.files data)))).
    destruct (same_store_after_update_fields id0 upd _ _ d Hsame Hjob)
      as (A & T & R & D & H).
    apply (Inv_write s0 s _ id0 upd "completed"
             ["queued"; "processing"] HI Hproc); cbn [world running].
    + discriminate.
    + discriminate.
    + left. right. right. right. left. reflexivity.
    + exact A.
    + exact R.
    + exact D.
    + exact H.
    + unfold upd. auto with jobs.
    + reflexivity.
    + intro Hnc. contradiction.
    + apply Hnd'. unfold task_ids. rewrite T. reflexivity.
    + intros id Hin. unfold task_ids in Hin. rewrite T in Hin.
      split; [exact Hin | apply Htask; exact Hin].
    + intros c' Hin. left. apply Hrest. exact Hin.
  - destruct (same_store_after_update_fields id0
                (AnalysisDoc.set_failed (str_exn e)) _ _ d Hsame Hjob)
      as (A & T & R & D & H).
    apply (Inv_write s0 s _ id0 (AnalysisDoc.set_failed (str_exn e)) "failed"
             (status_history id0 (world s)) HI eq_refl); cbn [world running].
    + destruct Hhist as [[_ ->] | (e1 & _ & ->)]; discriminate.
    + destruct Hhist as [[_ ->] | (e1 & _ & ->)]; discriminate.
    + destruct Hhist as [[_ ->] | (e1 & _ & ->)].
      * left. right. right. right. right. reflexivity.
      * right. reflexivity.
    + exact A.
    + exact R.
    + exact D.
    + exact H.
    + auto with jobs.
    + reflexivity.
    + intros _ x. reflexivity.
    + apply Hnd'. unfold task_ids. rewrite T. reflexivity.
    + intros id Hin. unfold task_ids in Hin. rewrite T in Hin.
      split; [exact Hin | apply Htask; exact Hin].
    + intros c' Hin. left. apply Hrest. exact Hin.
Qed.

Lemma Inv_step : forall s0 s s',
  (forall i j, rng (world s0) i = rng (world s0) j -> i = j) ->
  Inv s0 s -> step s s' -> Inv s0 s'.
Proof.
  intros s0 s s' Hinj HI Hstep.
  destruct Hstep as [env r s | db t before after s Hdb Hq
                    | db env c before after s Hdb Hq | s].
  - destruct (handle_effect env r (world s))
      as [(Ha & Ht & Hr & Hd & Hh)
         | (doc & t & Hid & Hst & Hfc & Htid & Ha & Ht & Hr & Hd & Hh)].
    + apply (Inv_still s0 s _ HI); cbn [world running].
      * exact Ha.
      * exact Hr.
      * rewrite Hd. apply le_n.
      * exact Hh.
      * unfold task_ids, running_ids. cbn [running]. rewrite Ht.
        exact (inv_tasks _ _ HI).
      * intros id Hin. unfold task_ids in *. rewrite Ht in Hin. exact Hin.
      * intros c Hin. left. exact Hin.
    + eapply Inv_submit; try eassumption. reflexivity.
  - apply Inv_begin; assumption.
  - apply Inv_finish; assumption.
  - apply (Inv_still s0 s _ HI); cbn [world running]; try reflexivity.
    + simpl. lia.
    + exact (inv_tasks _ _ HI).
    + intros id Hin. exact Hin.
    + intros c Hin. left. exact Hin.
Qed.

Lemma Inv_reachable : forall s0 s,
  fresh s0 ->
  (forall i j, rng (world s0) i = rng (world s0) j -> i = j) ->
  reachable s0 s -> Inv s0 s.
Proof.
  intros s0 s Hfresh Hinj Hreach. unfold reachable in Hreach.
  induction Hreach as [| s s' _ IH Hstep].
  - apply Inv_start. exact Hfresh.
  - eapply Inv_step; eassumption.
Qed.






Lemma numbered_injective : forall i j, numbered i = numbered j -> i = j.
Proof.
  induction i as [| i IH]; destruct j as [| j]; simpl; intro H.
  - reflexivity.
  - discriminate H.
  - discriminate H.
  - injection H as H. f_equal. apply IH. exact H.
Qed.

Lemma answering_texts : store_texts answering.
Proof. intros call e H. discriminate H. Qed.

(** A run met with fewer stores is a run. *)
Lemma step_of_any : forall stores s s', step_of stores s s' -> step s s'.
Proof.
  intros stores s s' H.
  destruct H as [env r s | db t before after s _ Hq | db env c before after s _ Hq | s].
  - apply step_request.
  - apply step_start; [exact I | exact Hq].
  - apply step_resume; [exact I | exact Hq].
  - apply step_refused.
Qed.

Lemma reachable_of_any : forall stores s0 s, reachable_of stores s0 s -> reachable s0 s.
Proof.
  intros stores s0 s H. induction H as [| s s' _ IH Hstep].
  - apply reach_start.
  - apply (reach_step any_store s0 s s' IH). exact (step_of_any stores s s' Hstep).
Qed.

Lemma submitted_service_reachable :
  reachable_of store_texts start_service submitted_service.
Proof.
  apply (reach_step store_texts start_service start_service submitted_service).
  - apply reach_start.
  - apply (step_request store_texts quiet_env
             (AnalyzeRepository (RepoAnalysis.mk hello_url "u1")) start_service).
Qed.

Lemma finished_service_reachable_texts :
  reachable_of store_texts start_service finished_service.
Proof.
  apply (reach_step store_texts start_service started_service finished_service).
  - apply (reach_step store_texts start_service submitted_service started_service).
    + apply submitted_service_reachable.
    + apply (step_start store_texts answering sample_task [] [] submitted_service).
      * apply answering_texts.
      * reflexivity.
  - apply (step_resume store_texts answering quiet_env
             (Suspended.mk sample_task (ok tt)) [] [] started_service).
    + apply answering_texts.
    + reflexivity.
Qed.

Lemma finished_service_reachable : reachable start_service finished_service.
Proof. exact (reachable_of_any _ _ _ finished_service_reachable_texts). Qed.




Example started_job_history :
  status_history "job" (world started_service) = ["queued"; "processing"].
Proof. reflexivity. Qed.

Example finished_job_history :
  status_history "job" (world finished_service) = ["queued"; "processing"; "failed"].
Proof. reflexivity. Qed.

(** In every reachable state the job of a scheduled task is stored, is
    [queued] and has no flashcards: what [failure_marks_job_failed] asks of
    the job it starts from. *)
Lemma scheduled_job_is_queued : forall s0 s t,
  fresh s0 ->
  (forall i j, rng (world s0) i = rng (world s0) j -> i = j) ->
  reachable s0 s ->
  In t (background_tasks (world s)) ->
  exists job,
    job_of (Task.analysis_id t) (world s) = Some job
    /\ AnalysisDoc.status job = "queued"
    /\ AnalysisDoc.flashcards job = [].
Proof.
  intros s0 s t Hfresh Hinj Hreach Hin.
  pose proof (Inv_reachable s0 s Hfresh Hinj Hreach) as HI.
  assert (Hq : status_history (Task.analysis_id t) (world s) = ["queued"]).
  { apply (inv_pending _ _ HI). unfold task_ids. apply in_map. exact Hin. }
  assert (Hjob : exists d, job_of (Task.analysis_id t) (world s) = Some d).
  { apply find_job_ids. apply (inv_known _ _ HI). rewrite Hq. discriminate. }
  destruct Hjob as [job Hjob]. exists job. split; [exact Hjob |].
  destruct (find_job_In _ _ _ Hjob) as [Hjin Hid].
  destruct (inv_stored _ _ HI job Hjin) as [_ Hst]. rewrite Hid, Hq in Hst. simpl in Hst.
  split; [exact Hst |].
  apply (inv_cards _ _ HI job Hjin). rewrite Hst. discriminate.
Qed.

(** * Further properties *)

(** ** What the URL parser extracts *)

Lemma startswith_dot_git_inside : forall c u,
  Str.startswith ".git" (String c (u ++ ".git")) = true ->
  Str.startswith ".git" (String c u) = true.
Proof.
  intros c u H.
  destruct u as [| c1 [| c2 [| c3 u]]]; cbn [Str.startswith append] in *;
    repeat rewrite andb_true_iff in H; repeat rewrite andb_true_iff;
    repeat match goal with
           | H : _ /\ _ |- _ => destruct H
           end;
    repeat match goal with
           | H : Ascii.eqb _ _ = true |- _ => apply Ascii.eqb_eq in H
           end;
    try discriminate; subst; repeat split; apply Ascii.eqb_refl.
Qed.

Lemma startswith_longer : forall p s t,
  Str.startswith p s = true -> Str.startswith p (s ++ t) = true.
Proof.
  induction p as [| a p IH]; intros s t H; simpl in *; [reflexivity |].
  destruct s as [| b s]; [discriminate H |]. simpl.
  apply andb_true_iff in H. destruct H as [H1 H2]. rewrite H1. simpl.
  apply IH. exact H2.
Qed.

Lemma startswith_length : forall p s,
  Str.startswith p s = true -> String.length p <= String.length s.
Proof.
  induction p as [| a p IH]; intros s H; simpl in *; [lia |].
  destruct s as [| b s]; [discriminate H |]. simpl.
  apply andb_true_iff in H. destruct H as [_ H]. apply IH in H. lia.
Qed.

Lemma delete_from_suffix : forall u skip,
  skip <= String.length u ->
  Str.delete_from ".git" skip (u ++ ".git") = Str.delete_from ".git" skip u.
Proof.
  induction u as [| c u IH]; intros skip Hskip.
  - simpl in Hskip. assert (skip = 0) by lia. subst skip. reflexivity.
  - simpl in Hskip. destruct skip as [| k].
    + cbn [append Str.delete_from].
      change (0 <? String.length ".git")%nat with true. cbn [andb].
      destruct (Str.startswith ".git" (String c u)) eqn:E.
      * change (String c (u ++ ".git")) with (String c u ++ ".git")%string.
        rewrite (startswith_longer _ _ _ E).
        apply IH. apply startswith_length in E. simpl in E. simpl. lia.
      * destruct (Str.startswith ".git" (String c (u ++ ".git"))) eqn:E2.
        -- apply startswith_dot_git_inside in E2. congruence.
        -- f_equal. apply IH. lia.
    + cbn [append Str.delete_from]. apply IH. lia.
Qed.

(** X1.  Appending [.git] to a URL never changes what the parser makes of
    it: the owner and repository extracted, or the refusal. *)
Theorem dot_git_suffix_ignored :
  forall repo_url, parse_repo_url (repo_url ++ ".git") = parse_repo_url repo_url.
Proof.
  intro repo_url. unfold parse_repo_url, Str.delete_all.
  rewrite delete_from_suffix by lia. reflexivity.
Qed.

(** X2.  Whatever the parser extracts is fit for a path of the API: owner
    and repository are not empty and hold no "/", and they stand, after
    "github.com/" and separated by "/", in the URL with its [.git]
    deleted. *)
Theorem parsed_owner_and_repo_are_clean :
  forall repo_url owner repo,
    parse_repo_url repo_url = ok (owner, repo) ->
    owner <> "" /\ repo <> ""
    /\ no_slash owner = true /\ no_slash repo = true
    /\ exists before rest,
         Str.delete_all ".git" repo_url
         = (before ++ "github.com/" ++ owner ++ "/" ++ repo ++ rest)%string.
Proof.
  intros repo_url owner repo H. unfold parse_repo_url in H.
  destruct (re_search (Str.delete_all ".git" repo_url)) as [g |] eqn:E;
    [| discriminate H].
  unfold ok in H. injection H as ->.
  destruct (re_search_sound _ _ _ E)
    as (before & from & Hs & rest & -> & Ho & Hr & Hno & Hnr & _).
  repeat split; try assumption. exists before, rest. exact Hs.
Qed.

Lemma parsed_owner_and_repo_are_clean_witness :
  "octocat" <> "" /\ "Hello-World" <> ""
  /\ no_slash "octocat" = true /\ no_slash "Hello-World" = true
  /\ exists before rest,
       Str.delete_all ".git" hello_url
       = (before ++ "github.com/" ++ "octocat" ++ "/" ++ "Hello-World" ++ rest)%string.
Proof.
  apply (parsed_owner_and_repo_are_clean hello_url "octocat" "Hello-World").
  reflexivity.
Defined.

Lemma append_empty_r : forall s : string, (s ++ "")%string = s.
Proof. induction s as [| c s IH]; simpl; [| rewrite IH]; reflexivity. Qed.

(** X3.  A URL [https://github.com/<owner>/<repo>] without [.git] in it,
    whose owner and repository are not empty and hold no "/", is parsed to
    exactly that owner and repository. *)
Theorem canonical_url_is_parsed :
  forall owner repo,
    owner <> "" -> repo <> "" ->
    no_slash owner = true -> no_slash repo = true ->
    Str.delete_all ".git" ("https://github.com/" ++ owner ++ "/" ++ repo)
    = ("https://github.com/" ++ owner ++ "/" ++ repo)%string ->
    parse_repo_url ("https://github.com/" ++ owner ++ "/" ++ repo) = ok (owner, repo).
Proof.
  intros owner repo Ho Hr Hno Hnr Hclean. unfold parse_repo_url. rewrite Hclean.
  assert (Hm : match_here ("github.com/" ++ owner ++ "/" ++ repo) = Some (owner, repo)).
  { apply match_here_spec. exists "". rewrite append_empty_r.
    repeat split; try assumption. left. reflexivity. }
  change (re_search ("https://github.com/" ++ owner ++ "/" ++ repo))
    with (re_search ("github.com/" ++ owner ++ "/" ++ repo)).
  destruct owner as [| c owner]; [contradiction Ho; reflexivity |].
  cbn [re_search append] in *. rewrite Hm. reflexivity.
Qed.

Lemma canonical_url_is_parsed_witness :
  parse_repo_url ("https://github.com/" ++ "octocat" ++ "/" ++ "Hello-World")
  = ok ("octocat", "Hello-World").
Proof.
  apply (canonical_url_is_parsed "octocat" "Hello-World");
    try discriminate; reflexivity.
Defined.

(** ** How the fetch fails and what it returns *)

Lemma parse_repo_url_raises : forall repo_url e,
  parse_repo_url repo_url = raise e -> e = ValueError "Invalid GitHub repository URL".
Proof.
  intros repo_url e H. unfold parse_repo_url in H.
  destruct (re_search _); [discriminate H |]. unfold raise in H. congruence.
Qed.

(** The loop raises what the first raising content call raises. *)
Lemma fetch_tree_raises : forall env owner repo tree files e,
  fetch_tree env owner repo tree files = raise e ->
  exists item, In item (filter is_code_file tree)
               /\ content_outcome env owner repo item = Raised e.
Proof.
  intros env owner repo tree. induction tree as [| item tree IH]; intros files e H.
  - discriminate H.
  - cbn [fetch_tree] in H. cbn [filter].
    destruct (is_code_file item) eqn:Hc.
    + rewrite fetch_item_outcome in H.
      destruct (content_outcome env owner repo item) as [e1 | | text] eqn:Ho;
        cbn [bind_result raise ok] in H.
      * exists item. split; [left; reflexivity |]. unfold raise in H. congruence.
      * destruct (IH _ _ H) as (it & Hin & Hit). exists it. split; [right |]; assumption.
      * destruct (IH _ _ H) as (it & Hin & Hit). exists it. split; [right |]; assumption.
    + apply (IH _ _ H).
Qed.

Lemma fetch_tree_first_raise : forall env owner repo before item after files e,
  no_call_raises env owner repo before ->
  is_code_file item = true ->
  content_outcome env owner repo item = Raised e ->
  fetch_tree env owner repo (before ++ item :: after) files = raise e.
Proof.
  intros env owner repo before. induction before as [| x before IH];
    intros item after files e Hn Hc Ho.
  - cbn [app fetch_tree]. rewrite Hc, fetch_item_outcome, Ho. reflexivity.
  - apply no_call_raises_cons in Hn. destruct Hn as [Hx Hn].
    cbn [app fetch_tree]. destruct (is_code_file x) eqn:Hcx.
    + rewrite fetch_item_outcome.
      destruct (content_outcome env owner repo x) as [e1 | | text] eqn:Hox.
      * exfalso. exact (Hx eq_refl e1 eq_refl).
      * cbn [bind_result ok]. apply IH; assumption.
      * cbn [bind_result ok]. apply IH; assumption.
    + apply IH; assumption.
Qed.

(** X4.  A fetch that fails raises a ValueError whose message is "Failed to
    fetch repository: " followed by the cause, and the cause is one of six:
    the URL does not hold the pattern; the tree call raised; the tree was
    answered with a status other than 200; its body was not JSON; its JSON
    had no tree; the content call of a matching entry raised. *)
Theorem fetch_failure_causes :
  forall env repo_url e,
    fetch_github_repo env repo_url = raise e ->
    exists cause,
      e = ValueError ("Failed to fetch repository: " ++ cause)
      /\ fetch_failure env repo_url cause.
Proof.
  intros env repo_url e H.
  destruct (fetch_github_repo_raises env repo_url e H) as (e0 & Hb & ->).
  exists (str_exn e0). split; [reflexivity |].
  unfold fetch_github_repo_body, bind_result in Hb.
  destruct (parse_repo_url repo_url) as [e1 | [owner repo]] eqn:Hp.
  - unfold raise in Hb. injection Hb as ->.
    pose proof (parse_repo_url_raises _ _ Hp) as ->.
    apply bad_url; [exact Hp | reflexivity].
  - destruct (session_get env (api_url owner repo)) as [e1 | response] eqn:Hg.
    + unfold raise in Hb. injection Hb as ->.
      eapply tree_call_raised; [exact Hp | exact Hg | reflexivity].
    + destruct (status response =? 200)%nat eqn:Hs; cbn [negb] in Hb.
      * apply Nat.eqb_eq in Hs.
        destruct (json response) as [e1 | [tree | enc text]] eqn:Hj.
        -- unfold raise in Hb. injection Hb as ->.
           eapply tree_not_json; [exact Hp | exact Hg | exact Hs | exact Hj
                                  | reflexivity].
        -- cbn [get_tree ok] in Hb.
           destruct (fetch_tree env owner repo tree []) as [e1 | files] eqn:Hf;
             [| discriminate Hb].
           unfold raise in Hb. injection Hb as ->.
           destruct (fetch_tree_raises _ _ _ _ _ _ Hf) as (item & Hin & Ho).
           eapply content_call_raised; [exact Hp | | exact Hin | exact Ho
                                        | reflexivity].
           unfold listed_tree. rewrite Hg, Hs, Hj. reflexivity.
        -- cbn [get_tree raise] in Hb. injection Hb as <-.
           eapply tree_key_missing; [exact Hp | exact Hg | exact Hs | exact Hj
                                     | reflexivity].
      * apply Nat.eqb_neq in Hs. unfold raise in Hb. injection Hb as <-.
        eapply tree_not_200; [exact Hp | exact Hg | exact Hs | reflexivity].
Qed.

Lemma fetch_failure_causes_witness :
  exists cause,
    ValueError "Failed to fetch repository: connection refused"
    = ValueError ("Failed to fetch repository: " ++ cause)
    /\ fetch_failure quiet_env hello_url cause.
Proof.
  apply (fetch_failure_causes quiet_env hello_url
           (ValueError "Failed to fetch repository: connection refused")).
  reflexivity.
Defined.

Lemma run_with_fetch_failure :
  forall db env repo_url user_id analysis_id w config job e,
    store_answers db ->
    config_of user_id w = Some config ->
    job_of analysis_id w = Some job ->
    fetch_github_repo env repo_url = raise e ->
    job_of analysis_id
      (snd (process_repository_analysis db env repo_url user_id analysis_id w))
    = Some (AnalysisDoc.set_failed (str_exn e)
              (AnalysisDoc.set_status "processing" job)).
Proof.
  intros db env repo_url user_id analysis_id w config job e Hdb Hc Hjob Hf.
  unfold process_repository_analysis, try_exceptM.
  rewrite process_body_run, (Hdb UpdateProcessing), process_rest_run.
  rewrite (Hdb FindConfig), config_of_after_update, Hc, Hf.
  unfold raise. cbv beta iota. rewrite process_failed_run, (Hdb UpdateFailed).
  cbn [snd].
  apply job_of_after_update; [auto with jobs |].
  apply job_of_after_update; [auto with jobs | exact Hjob].
Qed.

(** X5.  A tree answered with a status other than 200 fails the fetch with
    "Repository not found or not accessible", whatever else the API would
    answer, and the job of a configured user, run with a store that
    answers, ends [failed] with that text as its error. *)
Theorem missing_repository_fails_job :
  forall db env repo_url user_id analysis_id owner repo response w config job,
    store_answers db ->
    parse_repo_url repo_url = ok (owner, repo) ->
    session_get env (api_url owner repo) = ok response ->
    status response <> 200 ->
    config_of user_id w = Some config ->
    job_of analysis_id w = Some job ->
    fetch_github_repo env repo_url
    = raise (ValueError
               "Failed to fetch repository: Repository not found or not accessible")
    /\ exists job',
         job_of analysis_id
           (snd (process_repository_analysis db env repo_url user_id analysis_id w))
         = Some job'
         /\ AnalysisDoc.status job' = "failed"
         /\ AnalysisDoc.error job'
            = Some "Failed to fetch repository: Repository not found or not accessible"
         /\ AnalysisDoc.flashcards job' = AnalysisDoc.flashcards job.
Proof.
  intros db env repo_url user_id analysis_id owner repo response w config job
         Hdb Hp Hg Hs Hc Hjob.
  assert (Hf : fetch_github_repo env repo_url
               = raise (ValueError
                   "Failed to fetch repository: Repository not found or not accessible")).
  { unfold fetch_github_repo, fetch_github_repo_body, try_except, bind_result.
    rewrite Hp. unfold ok in *. cbv beta iota. rewrite Hg.
    apply Nat.eqb_neq in Hs. rewrite Hs. reflexivity. }
  split; [exact Hf |].
  eexists. split; [eapply run_with_fetch_failure; eassumption |].
  repeat split.
Qed.

Lemma missing_repository_fails_job_witness :
  fetch_github_repo env_repo_missing hello_url
  = raise (ValueError
             "Failed to fetch repository: Repository not found or not accessible")
  /\ exists job',
       job_of "job-1"
         (snd (process_repository_analysis answering env_repo_missing hello_url "u1"
                 "job-1" world_with_job))
       = Some job'
       /\ AnalysisDoc.status job' = "failed"
       /\ AnalysisDoc.error job'
          = Some "Failed to fetch repository: Repository not found or not accessible"
       /\ AnalysisDoc.flashcards job' = AnalysisDoc.flashcards queued_job.
Proof.
  apply (missing_repository_fails_job answering env_repo_missing hello_url "u1"
           "job-1" "octocat" "Hello-World"
           (mkResponse 404 (raise (OtherError "Not Found")))
           world_with_job sample_config queued_job);
    try reflexivity.
  - intro call. reflexivity.
  - discriminate.
Defined.

(** X6.  The content call that raises first, in tree order among the
    matching entries, ends the fetch with its own error text; entries after
    it are not looked at. *)
Theorem first_raising_call_ends_fetch :
  forall env repo_url owner repo before item after e,
    parse_repo_url repo_url = ok (owner, repo) ->
    listed_tree env owner repo = Some (before ++ item :: after) ->
    no_call_raises env owner repo before ->
    is_code_file item = true ->
    content_outcome env owner repo item = Raised e ->
    fetch_github_repo env repo_url
    = raise (ValueError ("Failed to fetch repository: " ++ str_exn e)).
Proof.
  intros env repo_url owner repo before item after e Hp Hl Hn Hc Ho.
  unfold fetch_github_repo, fetch_github_repo_body, try_except, bind_result.
  rewrite Hp. unfold ok. cbv beta iota. unfold listed_tree in Hl.
  destruct (session_get env (api_url owner repo)) as [e1 | response]; [discriminate Hl |].
  destruct (status response =? 200)%nat; [| discriminate Hl]. cbn [negb].
  destruct (json response) as [e1 | [tree' | enc text]]; try discriminate Hl.
  injection Hl as ->. cbn [get_tree]. unfold ok at 1. cbv beta iota.
  rewrite (fetch_tree_first_raise env owner repo before item after [] e Hn Hc Ho).
  reflexivity.
Qed.

Lemma first_raising_call_ends_fetch_witness :
  fetch_github_repo env_content_raises hello_url
  = raise (ValueError ("Failed to fetch repository: "
                       ++ str_exn (OtherError "Connection reset by peer"))).
Proof.
  apply (first_raising_call_ends_fetch env_content_raises hello_url
           "octocat" "Hello-World" [TreeItem.mk "tree" "src"]
           (TreeItem.mk "blob" "src/app.py") []
           (OtherError "Connection reset by peer"));
    try reflexivity.
  intros item Hin. destruct Hin.
Defined.

Lemma take_all : forall n s, String.length s <= n -> Str.take n s = s.
Proof.
  induction n as [| n IH]; intros s H; destruct s as [| c s]; simpl in *;
    try reflexivity; try lia.
  rewrite IH by lia. reflexivity.
Qed.

(** A listed extension is not empty, and without its dot it is one of the
    language tags and is not "text". *)
Lemma listed_extension : forall ext,
  In ext code_extensions ->
  Str.is_empty ext = false
  /\ In (Str.drop 1 ext) code_languages
  /\ Str.drop 1 ext <> "text"
  /\ ext = String "." (Str.drop 1 ext).
Proof.
  intros ext H. unfold code_extensions in H. simpl in H.
  repeat (destruct H as [<- | H];
          [repeat split; [unfold code_languages, code_extensions; simpl; tauto
                         | discriminate] |]).
  destruct H.
Qed.

Lemma fetched_In : forall env owner repo tree f,
  In f (fetched env owner repo tree) <->
  exists item text,
    In item tree /\ is_code_file item = true
    /\ content_outcome env owner repo item = Fetched text
    /\ f = source_file item text.
Proof.
  intros env owner repo tree f. unfold fetched. rewrite in_flat_map. split.
  - intros (item & Hin & Hf). apply filter_In in Hin. destruct Hin as [Hin Hc].
    destruct (content_outcome env owner repo item) as [e | | text] eqn:Ho;
      try (destruct Hf; fail).
    destruct Hf as [<- | []]. exists item, text. repeat split; assumption.
  - intros (item & text & Hin & Hc & Ho & ->). exists item. split.
    + apply filter_In. split; assumption.
    + rewrite Ho. left. reflexivity.
Qed.

(** X7.  Every file a successful fetch returns comes from a blob of the
    listed tree whose extension, lower-cased, is listed: its path is the
    entry's path, its language is that extension without the dot (one of
    the 14 tags, never "text"), and its content is the first 5000
    characters of the decoded text, the whole text when that is no longer. *)
Theorem fetched_files_provenance :
  forall env repo_url data f,
    fetch_github_repo env repo_url = ok data ->
    In f (RepoData.files data) ->
    exists tree item text,
      listed_tree env (RepoData.owner data) (RepoData.repo data) = Some tree
      /\ In item tree
      /\ TreeItem.type item = "blob"
      /\ SourceFile.path f = TreeItem.path item
      /\ Str.lower (Str.splitext_ext (TreeItem.path item))
         = String "." (SourceFile.language f)
      /\ In (SourceFile.language f) code_languages
      /\ SourceFile.language f <> "text"
      /\ content_outcome env (RepoData.owner data) (RepoData.repo data) item
         = Fetched text
      /\ SourceFile.content f = Str.take 5000 text
      /\ (String.length text <= 5000 -> SourceFile.content f = text).
Proof.
  intros env repo_url data f H Hin.
  destruct (fetch_github_repo_ok _ _ _ H) as (tree & _ & Hl & _ & Hfiles & _).
  rewrite Hfiles in Hin. apply in_firstn in Hin. apply fetched_In in Hin.
  destruct Hin as (item & text & Hit & Hc & Ho & ->).
  unfold is_code_file in Hc. apply andb_true_iff in Hc. destruct Hc as [Hblob Hext].
  apply String.eqb_eq in Hblob. apply str_in_In in Hext.
  destruct (listed_extension _ Hext) as (Hne & Hlang & Htext & Hdot).
  exists tree, item, text. unfold source_file. cbn [SourceFile.path SourceFile.language
    SourceFile.content]. rewrite Hne.
  repeat split; try assumption.
  intro Hlen. apply take_all. exact Hlen.
Qed.

Lemma fetched_files_provenance_witness :
  exists tree item text,
    listed_tree env_one_file "octocat" "Hello-World" = Some tree
    /\ In item tree
    /\ TreeItem.type item = "blob"
    /\ "src/app.py" = TreeItem.path item
    /\ Str.lower (Str.splitext_ext (TreeItem.path item)) = String "." "py"
    /\ In "py" code_languages
    /\ "py" <> "text"
    /\ content_outcome env_one_file "octocat" "Hello-World" item = Fetched text
    /\ "print('hello')" = Str.take 5000 text
    /\ (String.length text <= 5000 -> "print('hello')" = text).
Proof.
  apply (fetched_files_provenance env_one_file hello_url one_file_data
           (SourceFile.mk "src/app.py" "print('hello')" "py")).
  - reflexivity.
  - left. reflexivity.
Defined.

Lemma content_outcome_agree : forall env env' owner repo item,
  session_get env (content_url owner repo (TreeItem.path item))
  = session_get env' (content_url owner repo (TreeItem.path item)) ->
  content_outcome env owner repo item = content_outcome env' owner repo item.
Proof. intros env env' owner repo item H. unfold content_outcome. rewrite H. reflexivity. Qed.

Lemma fetch_tree_agree : forall env env' owner repo tree files,
  (forall item, In item (filter is_code_file tree) ->
     session_get env (content_url owner repo (TreeItem.path item))
     = session_get env' (content_url owner repo (TreeItem.path item))) ->
  fetch_tree env owner repo tree files = fetch_tree env' owner repo tree files.
Proof.
  intros env env' owner repo tree. induction tree as [| item tree IH]; intros files H.
  - reflexivity.
  - cbn [fetch_tree]. cbn [filter] in H. destruct (is_code_file item) eqn:Hc.
    + rewrite !fetch_item_outcome.
      rewrite (content_outcome_agree env env' owner repo item)
        by (apply H; left; reflexivity).
      destruct (content_outcome env' owner repo item); cbn [bind_result raise ok];
        try reflexivity; apply IH; intros it Hit; apply H; right; exact Hit.
    + apply IH. exact H.
Qed.

(** X8.  The fetch looks at the tree and at the contents of its matching
    entries and nowhere else: two states of the API that answer alike there
    give the same result, data or error. *)
Theorem fetch_reads_matching_entries_only :
  forall env env' repo_url,
    (forall owner repo,
       parse_repo_url repo_url = ok (owner, repo) -> agree_for env env' owner repo) ->
    fetch_github_repo env repo_url = fetch_github_repo env' repo_url.
Proof.
  intros env env' repo_url H.
  unfold fetch_github_repo. f_equal. unfold fetch_github_repo_body, bind_result.
  destruct (parse_repo_url repo_url) as [e | [owner repo]] eqn:Hp; [reflexivity |].
  destruct (H owner repo eq_refl) as [Htree Hcontent].
  unfold matching_paths, listed_tree in Hcontent. rewrite <- Htree.
  destruct (session_get env (api_url owner repo)) as [e | response]; [reflexivity |].
  destruct (status response =? 200)%nat; cbn [negb]; [| reflexivity].
  destruct (json response) as [e | [tree | enc text]]; try reflexivity.
  cbn [get_tree ok].
  rewrite (fetch_tree_agree env env' owner repo tree []); [reflexivity |].
  intros item Hin. apply Hcontent. apply in_map. exact Hin.
Qed.

Lemma agree_elsewhere :
  forall owner repo,
    parse_repo_url hello_url = ok (owner, repo) ->
    agree_for env_one_file env_one_file_elsewhere owner repo.
Proof.
  intros owner repo H. injection H as <- <-. split; [reflexivity |].
  intros path Hin. simpl in Hin. destruct Hin as [<- | []]. reflexivity.
Qed.

Lemma fetch_reads_matching_entries_only_witness :
  fetch_github_repo env_one_file hello_url
  = fetch_github_repo env_one_file_elsewhere hello_url.
Proof.
  apply (fetch_reads_matching_entries_only env_one_file env_one_file_elsewhere hello_url).
  exact agree_elsewhere.
Defined.

(** ** Configurations *)

Lemma find_replace_first : forall user_id doc l,
  ConfigDoc.user_id doc = user_id ->
  find (fun c => String.eqb (ConfigDoc.user_id c) user_id) (replace_first user_id doc l)
  = Some doc.
Proof.
  intros user_id doc l Hd. induction l as [| c l IH]; simpl.
  - rewrite Hd, String.eqb_refl. reflexivity.
  - destruct (String.eqb (ConfigDoc.user_id c) user_id) eqn:E; simpl.
    + rewrite Hd, String.eqb_refl. reflexivity.
    + rewrite E. exact IH.
Qed.

Lemma find_replace_first_other : forall user_id other doc l,
  ConfigDoc.user_id doc = user_id ->
  other <> user_id ->
  find (fun c => String.eqb (ConfigDoc.user_id c) other) (replace_first user_id doc l)
  = find (fun c => String.eqb (ConfigDoc.user_id c) other) l.
Proof.
  intros user_id other doc l Hd Hne.
  assert (Hdoc : String.eqb (ConfigDoc.user_id doc) other = false).
  { apply String.eqb_neq. congruence. }
  induction l as [| c l IH]; simpl.
  - rewrite Hdoc. reflexivity.
  - destruct (String.eqb (ConfigDoc.user_id c) user_id) eqn:E; simpl.
    + rewrite Hdoc. apply String.eqb_eq in E.
      assert (Hc : String.eqb (ConfigDoc.user_id c) other = false).
      { apply String.eqb_neq. congruence. }
      rewrite Hc. reflexivity.
    + rewrite IH. reflexivity.
Qed.

Lemma replace_first_users : forall user_id doc l,
  ConfigDoc.user_id doc = user_id ->
  map ConfigDoc.user_id (replace_first user_id doc l)
  = if str_in user_id (map ConfigDoc.user_id l)
    then map ConfigDoc.user_id l
    else map ConfigDoc.user_id l ++ [user_id].
Proof.
  intros user_id doc l Hd. induction l as [| c l IH]; simpl.
  - rewrite Hd. reflexivity.
  - rewrite str_in_cons, (String.eqb_sym user_id (ConfigDoc.user_id c)).
    destruct (String.eqb (ConfigDoc.user_id c) user_id) eqn:E; simpl.
    + apply String.eqb_eq in E. rewrite Hd, E. reflexivity.
    + rewrite IH. destruct (str_in user_id (map ConfigDoc.user_id l)); reflexivity.
Qed.

Lemma save_ai_config_accepts : forall env config w,
  in_catalog (AIConfig.provider config) (AIConfig.model config) = true ->
  save_ai_config env config w
  = (ok "AI configuration saved successfully",
     mkWorld
       (replace_first (AIConfig.user_id config)
          (ConfigDoc.mk (AIConfig.user_id config) (AIConfig.provider config)
             (AIConfig.model config) (AIConfig.api_key config) (now env))
          (ai_configs w))
       (analyses w) (background_tasks w) (rng w) (drawn w) (history w)).
Proof.
  intros env config w H. unfold save_ai_config, try_exceptM. rewrite H. reflexivity.
Qed.

Lemma catalog_names : forall provider models model name,
  In (provider, models) AI_MODELS ->
  In (model, name) models ->
  model_name provider model = Some name.
Proof.
  intros provider models model name Hp Hm. unfold AI_MODELS in Hp. simpl in Hp.
  destruct Hp as [Hp | [Hp | [Hp | []]]]; injection Hp as <- <-; simpl in Hm;
    repeat (destruct Hm as [Hm | Hm]; [injection Hm as <- <-; reflexivity |]);
    destruct Hm.
Qed.

Lemma get_ai_config_found : forall user_id w config name,
  config_of user_id w = Some config ->
  model_name (ConfigDoc.provider config) (ConfigDoc.model config) = Some name ->
  get_ai_config user_id w
  = (ok (Configured (ConfigDoc.provider config) (ConfigDoc.model config) name), w).
Proof.
  intros user_id w config name Hc Hn.
  unfold get_ai_config, try_exceptM, bind. rewrite find_config_run, Hc.
  unfold model_name in Hn.
  destruct (lookup (ConfigDoc.provider config) AI_MODELS) as [models |];
    [| discriminate Hn].
  rewrite Hn. reflexivity.
Qed.

(** X9.  Every model that GET /ai-models lists can be saved, for any user
    and in any state of the store, and GET /ai-config then reports that
    provider and model under the display name of the listing. *)
Theorem listed_model_saves_and_reads_back :
  forall env w catalog provider models model name api_key user_id,
    fst (get_available_models w) = ok catalog ->
    In (provider, models) catalog ->
    In (model, name) models ->
    fst (save_ai_config env (AIConfig.mk provider model api_key user_id) w)
    = ok "AI configuration saved successfully"
    /\ fst (get_ai_config user_id
              (snd (save_ai_config env (AIConfig.mk provider model api_key user_id) w)))
       = ok (Configured provider model name).
Proof.
  intros env w catalog provider models model name api_key user_id Hcat Hp Hm.
  unfold get_available_models, ret, ok in Hcat. cbn [fst] in Hcat. injection Hcat as <-.
  pose proof (catalog_names _ _ _ _ Hp Hm) as Hn.
  assert (Hin : in_catalog provider model = true).
  { unfold in_catalog. rewrite Hn. reflexivity. }
  rewrite (save_ai_config_accepts env (AIConfig.mk provider model api_key user_id) w Hin).
  cbn [fst snd AIConfig.user_id AIConfig.provider AIConfig.model AIConfig.api_key].
  split; [reflexivity |].
  rewrite (get_ai_config_found user_id _
             (ConfigDoc.mk user_id provider model api_key (now env)) name);
    [reflexivity | | exact Hn].
  unfold config_of. cbn [ai_configs]. apply find_replace_first. reflexivity.
Qed.

Lemma listed_model_saves_and_reads_back_witness :
  fst (save_ai_config quiet_env (AIConfig.mk "openai" "gpt-4o" "sk-test" "u1")
         empty_world)
  = ok "AI configuration saved successfully"
  /\ fst (get_ai_config "u1"
            (snd (save_ai_config quiet_env
                    (AIConfig.mk "openai" "gpt-4o" "sk-test" "u1") empty_world)))
     = ok (Configured "openai" "gpt-4o" "GPT-4o").
Proof.
  apply (listed_model_saves_and_reads_back quiet_env empty_world AI_MODELS "openai"
           [("gpt-4o", "GPT-4o"); ("gpt-4.1", "GPT-4.1"); ("gpt-4o-mini", "GPT-4o Mini");
            ("o3-mini", "O3 Mini")]
           "gpt-4o" "GPT-4o" "sk-test" "u1").
  - reflexivity.
  - left. reflexivity.
  - left. reflexivity.
Defined.

(** X10.  Saving a configuration is an upsert by user: what every other
    user has stored reads as before, a store with one configuration for
    each user stays so, the saved user has exactly the new one, and the
    jobs are not touched. *)
Theorem save_is_upsert_by_user :
  forall env config w,
    in_catalog (AIConfig.provider config) (AIConfig.model config) = true ->
    NoDup (map ConfigDoc.user_id (ai_configs w)) ->
    let w' := snd (save_ai_config env config w) in
    NoDup (map ConfigDoc.user_id (ai_configs w'))
    /\ config_of (AIConfig.user_id config) w'
       = Some (ConfigDoc.mk (AIConfig.user_id config) (AIConfig.provider config)
                 (AIConfig.model config) (AIConfig.api_key config) (now env))
    /\ (forall other, other <> AIConfig.user_id config ->
          config_of other w' = config_of other w)
    /\ List.length (ai_configs w')
       = (if str_in (AIConfig.user_id config) (map ConfigDoc.user_id (ai_configs w))
          then List.length (ai_configs w)
          else S (List.length (ai_configs w)))
    /\ analyses w' = analyses w
    /\ background_tasks w' = background_tasks w.
Proof.
  intros env config w Hin Hnd. cbv zeta.
  rewrite (save_ai_config_accepts env config w Hin). cbn [snd].
  set (doc := ConfigDoc.mk (AIConfig.user_id config) (AIConfig.provider config)
                (AIConfig.model config) (AIConfig.api_key config) (now env)).
  assert (Hd : ConfigDoc.user_id doc = AIConfig.user_id config) by reflexivity.
  pose proof (replace_first_users (AIConfig.user_id config) doc (ai_configs w) Hd)
    as Husers.
  unfold config_of. cbn [ai_configs analyses background_tasks].
  split; [| split; [| split; [| split; [| split]]]].
  - rewrite Husers.
    destruct (str_in (AIConfig.user_id config) (map ConfigDoc.user_id (ai_configs w)))
      eqn:E; [exact Hnd |].
    apply NoDup_snoc; [exact Hnd |]. intro H. apply str_in_In in H. congruence.
  - apply find_replace_first. exact Hd.
  - intros other Hne. apply find_replace_first_other; assumption.
  - rewrite <- (length_map ConfigDoc.user_id), Husers.
    destruct (str_in (AIConfig.user_id config) (map ConfigDoc.user_id (ai_configs w)));
      rewrite ?length_app, !length_map; simpl; lia.
  - reflexivity.
  - reflexivity.
Qed.

Lemma save_is_upsert_by_user_witness :
  let w' := snd (save_ai_config quiet_env
                   (AIConfig.mk "anthropic" "claude-sonnet-4-20250514" "k2" "u1")
                   world_with_job) in
  NoDup (map ConfigDoc.user_id (ai_configs w'))
  /\ config_of "u1" w'
     = Some (ConfigDoc.mk "u1" "anthropic" "claude-sonnet-4-20250514" "k2" 0)
  /\ (forall other, other <> "u1" -> config_of other w' = config_of other world_with_job)
  /\ List.length (ai_configs w') = 1
  /\ analyses w' = analyses world_with_job
  /\ background_tasks w' = background_tasks world_with_job.
Proof.
  apply (save_is_upsert_by_user quiet_env
           (AIConfig.mk "anthropic" "claude-sonnet-4-20250514" "k2" "u1") world_with_job).
  - reflexivity.
  - simpl. constructor; [intros [] | constructor].
Defined.

Lemma after_update_configs : forall analysis_id upd w,
  ai_configs (after_update analysis_id upd w) = ai_configs w.
Proof.
  intros analysis_id upd w. unfold after_update.
  destruct (find _ (analyses w)); reflexivity.
Qed.

Lemma start_task_configs : forall db t w,
  ai_configs (start_task db t w) = ai_configs w.
Proof.
  intros db t w.
  destruct (start_task_cases db t w) as [(e & _ & -> & _) | (_ & -> & _)];
    [reflexivity | apply after_update_configs].
Qed.

Lemma resume_task_configs : forall db env c w,
  ai_configs (resume_task db env c w) = ai_configs w.
Proof.
  intros db env c w.
  destruct (resume_task_cases db env c w) as (w2 & Hsame & Hcases).
  assert (H2 : ai_configs w2 = ai_configs w) by apply Hsame.
  destruct Hcases as [[-> _] | [(_ & config & data & cards & _ & _ & ->) | (e & -> & _)]];
    rewrite ?after_update_configs; exact H2.
Qed.

Lemma replace_first_Forall : forall (P : ConfigDoc.t -> Prop) user_id doc l,
  P doc -> Forall P l -> Forall P (replace_first user_id doc l).
Proof.
  intros P user_id doc l Hd Hl. induction Hl as [| c l Hc Hl IH]; simpl.
  - constructor; [exact Hd | constructor].
  - destruct (String.eqb (ConfigDoc.user_id c) user_id); constructor; assumption.
Qed.

Lemma handle_keeps_catalog : forall env r w,
  configs_in_catalog w -> configs_in_catalog (handle env r w).
Proof.
  intros env r w H.
  destruct r as [config | user_id | analysis | analysis_id | user_id]; cbn [handle].
  - destruct (in_catalog (AIConfig.provider config) (AIConfig.model config)) eqn:E.
    + rewrite (save_ai_config_accepts env config w E). unfold configs_in_catalog.
      cbn [snd ai_configs]. apply replace_first_Forall; [exact E | exact H].
    + unfold save_ai_config, try_exceptM. rewrite E. exact H.
  - unfold get_ai_config, try_exceptM, bind. rewrite find_config_run.
    destruct (config_of user_id w) as [c |]; [| exact H].
    destruct (lookup (ConfigDoc.provider c) AI_MODELS) as [models |]; [| exact H].
    destruct (lookup (ConfigDoc.model c) models); exact H.
  - unfold analyze_repository, try_exceptM, bind. rewrite find_config_run.
    destruct (config_of (RepoAnalysis.user_id analysis) w); exact H.
  - unfold get_analysis, try_exceptM, bind, analyses_find_one.
    destruct (find _ (analyses w)); exact H.
  - exact H.
Qed.

Lemma step_keeps_catalog : forall s s',
  configs_in_catalog (world s) -> step s s' -> configs_in_catalog (world s').
Proof.
  intros s s' H Hstep.
  destruct Hstep as [env r s | db t before after s Hdb Hq
                    | db env c before after s Hdb Hq | s];
    cbn [world].
  - apply handle_keeps_catalog. exact H.
  - unfold configs_in_catalog. rewrite start_task_configs. exact H.
  - unfold configs_in_catalog. rewrite resume_task_configs. exact H.
  - exact H.
Qed.

Lemma config_in_catalog_found : forall user_id w config,
  configs_in_catalog w ->
  config_of user_id w = Some config ->
  exists name,
    model_name (ConfigDoc.provider config) (ConfigDoc.model config) = Some name.
Proof.
  intros user_id w config H Hc. unfold config_of in Hc. apply find_some in Hc.
  destruct Hc as [Hin _]. unfold configs_in_catalog in H. rewrite Forall_forall in H.
  specialize (H config Hin). unfold in_catalog in H.
  destruct (model_name _ _) as [name |]; [exists name; reflexivity | discriminate H].
Qed.

(** X11.  The only writer of configurations checks the catalog, so in
    every state the service reaches from a store whose configurations name
    catalog models, GET /ai-config answers 200 for every user: "not
    configured", or the stored provider and model with the display name of
    the catalog.  The lookup of the display name never fails. *)
Theorem get_ai_config_always_answers :
  forall s0 s user_id,
    configs_in_catalog (world s0) ->
    reachable s0 s ->
    http_status (fst (get_ai_config user_id (world s))) = 200
    /\ snd (get_ai_config user_id (world s)) = world s
    /\ ((config_of user_id (world s) = None
         /\ fst (get_ai_config user_id (world s)) = ok NotConfigured)
        \/ (exists config name,
              config_of user_id (world s) = Some config
              /\ model_name (ConfigDoc.provider config) (ConfigDoc.model config)
                 = Some name
              /\ fst (get_ai_config user_id (world s))
                 = ok (Configured (ConfigDoc.provider config) (ConfigDoc.model config)
                         name))).
Proof.
  intros s0 s user_id H0 Hreach.
  assert (HI : configs_in_catalog (world s)).
  { induction Hreach as [| s s' _ IH Hstep]; [exact H0 |].
    eapply step_keeps_catalog; eassumption. }
  destruct (config_of user_id (world s)) as [config |] eqn:Hc.
  - destruct (config_in_catalog_found _ _ _ HI Hc) as [name Hn].
    rewrite (get_ai_config_found _ _ _ _ Hc Hn).
    split; [reflexivity |]. split; [reflexivity |].
    right. exists config, name. repeat split; assumption.
  - unfold get_ai_config, try_exceptM, bind. rewrite find_config_run, Hc.
    split; [reflexivity |]. split; [reflexivity |]. left. split; reflexivity.
Qed.

Lemma get_ai_config_always_answers_witness :
  http_status (fst (get_ai_config "u1" (world finished_service))) = 200
  /\ snd (get_ai_config "u1" (world finished_service)) = world finished_service
  /\ ((config_of "u1" (world finished_service) = None
       /\ fst (get_ai_config "u1" (world finished_service)) = ok NotConfigured)
      \/ (exists config name,
            config_of "u1" (world finished_service) = Some config
            /\ model_name (ConfigDoc.provider config) (ConfigDoc.model config)
               = Some name
            /\ fst (get_ai_config "u1" (world finished_service))
               = ok (Configured (ConfigDoc.provider config) (ConfigDoc.model config)
                       name))).
Proof.
  apply (get_ai_config_always_answers start_service finished_service "u1").
  - constructor; [reflexivity | constructor].
  - exact finished_service_reachable.
Defined.

(** ** Submitting and listing jobs *)

Lemma next_uuid_unused : forall s0 s,
  (forall i j, rng (world s0) i = rng (world s0) j -> i = j) ->
  Inv s0 s ->
  ~ In (rng (world s) (drawn (world s))) (job_ids (world s)).
Proof.
  intros s0 s Hinj HI Hin.
  unfold job_ids in Hin. apply in_map_iff in Hin. destruct Hin as (d & Hid & Hd).
  destruct (inv_stored _ _ HI d Hd) as [Hne _].
  apply status_history_ids in Hne. destruct (inv_drawn _ _ HI _ Hne) as (k & Hk & Heq).
  rewrite Hid, (inv_rng _ _ HI) in Heq. apply Hinj in Heq. lia.
Qed.

Lemma find_job_appended : forall analysis_id l doc,
  ~ In analysis_id (map AnalysisDoc.id l) ->
  AnalysisDoc.id doc = analysis_id ->
  find (fun d => String.eqb (AnalysisDoc.id d) analysis_id) (l ++ [doc]) = Some doc.
Proof.
  intros analysis_id l doc Hnot Hid. induction l as [| x l IH]; simpl.
  - rewrite Hid, String.eqb_refl. reflexivity.
  - simpl in Hnot. destruct (String.eqb (AnalysisDoc.id x) analysis_id) eqn:E.
    + apply String.eqb_eq in E. tauto.
    + apply IH. tauto.
Qed.

Lemma find_job_appended_other : forall other l doc,
  AnalysisDoc.id doc <> other ->
  find (fun d => String.eqb (AnalysisDoc.id d) other) (l ++ [doc])
  = find (fun d => String.eqb (AnalysisDoc.id d) other) l.
Proof.
  intros other l doc Hne. induction l as [| x l IH]; simpl.
  - apply String.eqb_neq in Hne. rewrite Hne. reflexivity.
  - rewrite IH. reflexivity.
Qed.

Lemma analyze_repository_accepts : forall env analysis w config,
  config_of (RepoAnalysis.user_id analysis) w = Some config ->
  analyze_repository env analysis w
  = (ok (Started.mk (rng w (drawn w)) "queued" "Repository analysis started"),
     mkWorld (ai_configs w)
       (analyses w
        ++ [AnalysisDoc.mk (rng w (drawn w)) (RepoAnalysis.repo_url analysis)
              (RepoAnalysis.user_id analysis) "queued" (now env) [] 0 [] None])
       (background_tasks w
        ++ [Task.mk (RepoAnalysis.repo_url analysis) (RepoAnalysis.user_id analysis)
              (rng w (drawn w))])
       (rng w) (S (drawn w)) (history w ++ [(rng w (drawn w), "queued")])).
Proof.
  intros env analysis w config H.
  unfold analyze_repository, try_exceptM, bind. rewrite find_config_run, H. reflexivity.
Qed.

(** X12.  In every state the service reaches from a start without jobs
    (uuids pairwise distinct), a submission by a configured user is
    answered with a new id and status "queued"; GET /analysis of that id
    then shows the job as queued, with the submitted URL, no flashcards, no
    file, no language and no error; its task is scheduled last; the jobs
    stored before read as before. *)
Theorem submitted_job_is_visible :
  forall s0 s env analysis config,
    fresh s0 ->
    (forall i j, rng (world s0) i = rng (world s0) j -> i = j) ->
    reachable s0 s ->
    config_of (RepoAnalysis.user_id analysis) (world s) = Some config ->
    let id := rng (world s) (drawn (world s)) in
    let w' := snd (analyze_repository env analysis (world s)) in
    fst (analyze_repository env analysis (world s))
    = ok (Started.mk id "queued" "Repository analysis started")
    /\ job_of id (world s) = None
    /\ fst (get_analysis id w')
       = ok (Snapshot.mk id (RepoAnalysis.repo_url analysis) "queued" (now env)
               [] 0 [] None)
    /\ background_tasks w'
       = background_tasks (world s)
         ++ [Task.mk (RepoAnalysis.repo_url analysis) (RepoAnalysis.user_id analysis) id]
    /\ forall other, other <> id -> job_of other w' = job_of other (world s).
Proof.
  intros s0 s env analysis config Hfresh Hinj Hreach Hc. cbv zeta.
  pose proof (Inv_reachable s0 s Hfresh Hinj Hreach) as HI.
  pose proof (next_uuid_unused s0 s Hinj HI) as Hnew.
  rewrite (analyze_repository_accepts env analysis (world s) config Hc). cbn [fst snd].
  set (id := rng (world s) (drawn (world s))) in *.
  split; [reflexivity |]. split.
  { destruct (job_of id (world s)) as [d |] eqn:E; [| reflexivity].
    exfalso. apply Hnew. destruct (find_job_In _ _ _ E) as [Hd Hid].
    unfold job_ids. rewrite <- Hid. apply in_map. exact Hd. }
  split.
  { unfold get_analysis, try_exceptM, bind, analyses_find_one. cbn [analyses].
    erewrite (find_job_appended id (analyses (world s)) _ Hnew); reflexivity. }
  split; [reflexivity |].
  intros other Hne. unfold job_of. cbn [analyses].
  apply find_job_appended_other. cbn [AnalysisDoc.id]. congruence.
Qed.

Lemma submitted_job_is_visible_witness :
  let id := rng (world start_service) (drawn (world start_service)) in
  let w' := snd (analyze_repository quiet_env (RepoAnalysis.mk hello_url "u1")
                   (world start_service)) in
  fst (analyze_repository quiet_env (RepoAnalysis.mk hello_url "u1")
         (world start_service))
  = ok (Started.mk id "queued" "Repository analysis started")
  /\ job_of id (world start_service) = None
  /\ fst (get_analysis id w')
     = ok (Snapshot.mk id hello_url "queued" 0 [] 0 [] None)
  /\ background_tasks w'
     = background_tasks (world start_service) ++ [Task.mk hello_url "u1" id]
  /\ forall other, other <> id -> job_of other w' = job_of other (world start_service).
Proof.
  apply (submitted_job_is_visible start_service start_service quiet_env
           (RepoAnalysis.mk hello_url "u1") sample_config
           (conj eq_refl (conj eq_refl (conj eq_refl eq_refl)))
           numbered_injective (reach_start any_store start_service)).
  reflexivity.
Defined.

Lemma insert_newest_first_perm : forall d l,
  Permutation (insert_newest_first d l) (d :: l).
Proof.
  intros d l. induction l as [| x l IH]; simpl.
  - apply Permutation_refl.
  - destruct (AnalysisDoc.created_at x <=? AnalysisDoc.created_at d)%nat.
    + apply Permutation_refl.
    + apply perm_trans with (x :: d :: l); [apply perm_skip; exact IH | apply perm_swap].
Qed.

Lemma sort_newest_first_perm : forall l, Permutation (sort_newest_first l) l.
Proof.
  induction l as [| d l IH]; simpl.
  - apply perm_nil.
  - apply perm_trans with (d :: sort_newest_first l).
    + apply insert_newest_first_perm.
    + apply perm_skip. exact IH.
Qed.

Lemma insert_newest_first_sorted : forall d l,
  newest_first l -> newest_first (insert_newest_first d l).
Proof.
  intros d l. induction l as [| x l IH]; intro H.
  - simpl. split; [intros y [] | exact I].
  - cbn [insert_newest_first].
    destruct (AnalysisDoc.created_at x <=? AnalysisDoc.created_at d)%nat eqn:E.
    + apply Nat.leb_le in E. split; [| exact H].
      intros y [<- | Hy]; [exact E |]. destruct H as [Hx _]. specialize (Hx y Hy). lia.
    + apply Nat.leb_gt in E. destruct H as [Hx Hl]. split; [| apply IH; exact Hl].
      intros y Hy. apply (Permutation_in _ (insert_newest_first_perm d l)) in Hy.
      destruct Hy as [<- | Hy]; [lia | apply Hx; exact Hy].
Qed.

Lemma sort_newest_first_sorted : forall l, newest_first (sort_newest_first l).
Proof.
  induction l as [| d l IH]; simpl; [exact I | apply insert_newest_first_sorted; exact IH].
Qed.

Lemma newest_first_firstn : forall n l, newest_first l -> newest_first (firstn n l).
Proof.
  induction n as [| n IH]; intros l H; [exact I |].
  destruct l as [| d l]; [exact I |]. cbn [firstn]. destruct H as [Hd Hl].
  split; [| apply IH; exact Hl].
  intros x Hx. apply Hd. apply (in_firstn n). exact Hx.
Qed.

(** X13.  GET /user-analyses answers 200 and changes nothing.  Its list
    holds only stored jobs of that user, newest first, and has as many
    entries as the user has jobs, up to 50; when the user has at most 50
    jobs it holds all of them. *)
Theorem user_analyses_listing :
  forall user_id w,
    exists listed,
      get_user_analyses user_id w = (ok listed, w)
      /\ List.length listed = Nat.min 50 (List.length (jobs_of_user user_id w))
      /\ newest_first listed
      /\ (forall d, In d listed ->
            In d (analyses w) /\ AnalysisDoc.user_id d = user_id)
      /\ (List.length (jobs_of_user user_id w) <= 50 ->
          Permutation listed (jobs_of_user user_id w)).
Proof.
  intros user_id w.
  exists (firstn 50 (sort_newest_first (jobs_of_user user_id w))).
  split; [reflexivity |].
  pose proof (sort_newest_first_perm (jobs_of_user user_id w)) as Hperm.
  split.
  { rewrite length_firstn, (Permutation_length Hperm). reflexivity. }
  split.
  { apply newest_first_firstn. apply sort_newest_first_sorted. }
  split.
  { intros d Hd. apply in_firstn in Hd. apply (Permutation_in _ Hperm) in Hd.
    unfold jobs_of_user in Hd. apply filter_In in Hd. destruct Hd as [Hd Hu].
    split; [exact Hd | apply String.eqb_eq; exact Hu]. }
  intro Hlen. rewrite firstn_all2; [exact Hperm |].
  rewrite (Permutation_length Hperm). exact Hlen.
Qed.

(** ** The cards of the analysis step: ids and number *)

Lemma file_cards_ids : forall lang some_files flashcards w,
  exists cards w',
    file_cards lang some_files flashcards w = (inr cards, w')
    /\ rng w' = rng w
    /\ drawn w' = drawn w + List.length some_files
    /\ map Flashcard.id cards
       = map Flashcard.id flashcards
         ++ map (rng w) (seq (drawn w) (List.length some_files)).
Proof.
  intros lang some_files.
  induction some_files as [| file rest IH]; intros flashcards w; cbn [file_cards].
  - exists flashcards, w. split; [reflexivity |]. split; [reflexivity |].
    split; [simpl; lia |]. simpl. rewrite app_nil_r. reflexivity.
  - unfold bind. destruct (uuid4_run w) as (w1 & -> & Hs & Hd).
    destruct Hs as (_ & _ & _ & Hr & _).
    destruct (IH (flashcards ++ [file_card (rng w (drawn w)) lang file]) w1)
      as (cards & w2 & -> & Hr2 & Hd2 & Hids).
    exists cards, w2. split; [reflexivity |]. split; [congruence |].
    split; [cbn [List.length]; lia |].
    rewrite Hids, map_app, <- app_assoc, Hr, Hd. reflexivity.
Qed.

Lemma language_cards_ids : forall items flashcards w,
  exists cards w',
    language_cards items flashcards w = (inr cards, w')
    /\ rng w' = rng w
    /\ (exists n,
          drawn w' = drawn w + n
          /\ map Flashcard.id cards
             = map Flashcard.id flashcards ++ map (rng w) (seq (drawn w) n)).
Proof.
  induction items as [| [lang lang_files] items IH]; intros flashcards w;
    cbn [language_cards].
  - exists flashcards, w. split; [reflexivity |]. split; [reflexivity |].
    exists 0. split; [lia |]. simpl. rewrite app_nil_r. reflexivity.
  - unfold bind. destruct (uuid4_run w) as (w1 & -> & Hs & Hd).
    destruct Hs as (_ & _ & _ & Hr & _).
    destruct (file_cards_ids lang (firstn 3 lang_files)
                (flashcards ++ [architecture_card (rng w (drawn w)) lang lang_files]) w1)
      as (cards1 & w2 & -> & Hr2 & Hd2 & Hids1).
    destruct (IH cards1 w2) as (cards & w3 & -> & Hr3 & n & Hd3 & Hids).
    exists cards, w3. split; [reflexivity |]. split; [congruence |].
    exists (S (List.length (firstn 3 lang_files) + n)). split; [lia |].
    rewrite Hids, Hids1, map_app, <- !app_assoc, Hr2, Hr, Hd2, Hd.
    cbn [map architecture_card Flashcard.id app seq]. f_equal. f_equal.
    rewrite seq_app, map_app. reflexivity.
Qed.

Lemma NoDup_map_injective : forall (f : nat -> string) l,
  (forall i j, f i = f j -> i = j) -> NoDup l -> NoDup (map f l).
Proof.
  intros f l Hinj H. induction H as [| x l Hx _ IH]; simpl; constructor.
  - intro Hin. apply in_map_iff in Hin. destruct Hin as (y & Hy & Hl).
    apply Hinj in Hy. subst y. exact (Hx Hl).
  - exact IH.
Qed.

(** X14.  The ids of the cards of the analysis step are the uuids it draws,
    in the order of the cards: one draw for each card and no other.  When
    the uuids are pairwise distinct, so are the ids of the cards. *)
Theorem card_ids_are_successive_uuids :
  forall files config w,
    exists cards w',
      analyze_with_ai files config w = (ok cards, w')
      /\ map Flashcard.id cards = map (rng w) (seq (drawn w) (List.length cards))
      /\ drawn w' = drawn w + List.length cards
      /\ ((forall i j, rng w i = rng w j -> i = j) -> NoDup (map Flashcard.id cards)).
Proof.
  intros files config w. unfold analyze_with_ai, try_exceptM.
  destruct (language_cards_ids (group_by_language files) [] w)
    as (cards & w' & -> & _ & n & Hd & Hids).
  exists cards, w'. split; [reflexivity |]. cbn [map app] in Hids.
  assert (Hn : List.length cards = n).
  { apply (f_equal (@List.length string)) in Hids.
    rewrite !length_map, length_seq in Hids. exact Hids. }
  rewrite Hn. split; [exact Hids |]. split; [exact Hd |].
  intro Hinj. rewrite Hids. apply NoDup_map_injective; [exact Hinj | apply seq_NoDup].
Qed.

Lemma list_sum_cons : forall x l, list_sum (x :: l) = x + list_sum l.
Proof. reflexivity. Qed.

Lemma flat_map_blocks_length : forall files langs,
  List.length (flat_map (fun lang => language_block lang (files_of lang files)) langs)
  = list_sum
      (map (fun lang => 1 + Nat.min 3 (List.length (files_of lang files))) langs).
Proof.
  intros files langs. induction langs as [| lang langs IH]; [reflexivity |].
  cbn [flat_map]. rewrite map_cons, list_sum_cons, length_app, IH. unfold language_block.
  cbn [List.length]. rewrite length_map, length_firstn. reflexivity.
Qed.

Lemma list_sum_bound : forall (f : string -> nat) b langs,
  (forall lang, f lang <= b) -> list_sum (map f langs) <= b * List.length langs.
Proof.
  intros f b langs H. induction langs as [| lang langs IH]; [simpl; lia |].
  rewrite map_cons, list_sum_cons. cbn [List.length]. specialize (H lang). lia.
Qed.

Lemma list_sum_at_least : forall (f : string -> nat) langs,
  (forall lang, 1 <= f lang) -> List.length langs <= list_sum (map f langs).
Proof.
  intros f langs H. induction langs as [| lang langs IH]; [simpl; lia |].
  rewrite map_cons, list_sum_cons. cbn [List.length]. specialize (H lang). lia.
Qed.

Lemma count_one_in_NoDup : forall x langs,
  NoDup langs ->
  list_sum (map (fun lang => if String.eqb x lang then 1 else 0) langs) <= 1.
Proof.
  intros x langs H. induction H as [| y l Hy _ IH]; simpl; [lia |].
  destruct (String.eqb x y) eqn:E; [| exact IH].
  apply String.eqb_eq in E. subst y.
  assert (Hzero : list_sum (map (fun lang => if String.eqb x lang then 1 else 0) l) = 0).
  { clear IH. induction l as [| z l IHl]; [reflexivity |]. simpl.
    destruct (String.eqb x z) eqn:Ez.
    - apply String.eqb_eq in Ez. subst z. exfalso. apply Hy. left. reflexivity.
    - apply IHl. intro Hin. apply Hy. right. exact Hin. }
  lia.
Qed.

Lemma files_of_lengths_sum : forall files langs,
  NoDup langs ->
  list_sum (map (fun lang => List.length (files_of lang files)) langs)
  <= List.length files.
Proof.
  intros files langs Hnd. induction files as [| f files IH].
  - induction langs as [| lang langs IHl]; [simpl; lia |].
    simpl. apply IHl. inversion Hnd. assumption.
  - assert (Hsplit :
      list_sum (map (fun lang => List.length (files_of lang (f :: files))) langs)
      = list_sum (map (fun lang =>
                         if String.eqb (SourceFile.language f) lang then 1 else 0) langs)
        + list_sum (map (fun lang => List.length (files_of lang files)) langs)).
    { clear IH Hnd. induction langs as [| lang langs IHl]; [reflexivity |].
      rewrite !map_cons, !list_sum_cons, IHl. unfold files_of at 1. cbn [filter].
      fold (files_of lang files).
      destruct (String.eqb (SourceFile.language f) lang); cbn [List.length]; lia. }
    rewrite Hsplit. pose proof (count_one_in_NoDup (SourceFile.language f) langs Hnd).
    cbn [List.length]. lia.
Qed.

Lemma min_sum_le : forall (f : string -> nat) langs,
  list_sum (map (fun lang => 1 + Nat.min 3 (f lang)) langs)
  <= List.length langs + list_sum (map f langs).
Proof.
  intros f langs. induction langs as [| lang langs IH]; [simpl; lia |].
  rewrite !map_cons, !list_sum_cons. cbn [List.length]. lia.
Qed.

Lemma languages_of_nil_iff : forall files, languages_of files = [] <-> files = [].
Proof.
  intro files. split.
  - intro H. destruct files as [| f files]; [reflexivity |].
    assert (Hin : In (SourceFile.language f) (languages_of (f :: files))).
    { apply languages_of_In. left. reflexivity. }
    rewrite H in Hin. destruct Hin.
  - intros ->. reflexivity.
Qed.

Lemma analyze_with_ai_length : forall files config w cards w',
  analyze_with_ai files config w = (ok cards, w') ->
  List.length cards = cards_expected files.
Proof.
  intros files config w cards w' H.
  unfold analyze_with_ai, try_exceptM in H.
  destruct (language_cards_spec (group_by_language files) [] w)
    as (cards0 & w0 & Hrun & _ & Hcards).
  rewrite Hrun in H. unfold ok in H. injection H as <- <-.
  rewrite group_by_language_partition in Hcards. unfold partition_by_language in Hcards.
  rewrite flat_map_partition in Hcards. cbn [map app] in Hcards.
  apply (f_equal (@List.length Flashcard.t)) in Hcards.
  rewrite length_map, flat_map_blocks_length in Hcards. exact Hcards.
Qed.

Lemma cards_expected_bounds : forall files,
  List.length (languages_of files) <= cards_expected files
  /\ cards_expected files <= 4 * List.length (languages_of files)
  /\ cards_expected files <= List.length (languages_of files) + List.length files.
Proof.
  intro files. unfold cards_expected. split; [| split].
  - apply list_sum_at_least. intro lang. lia.
  - apply list_sum_bound. intro lang. lia.
  - etransitivity; [apply min_sum_le |].
    pose proof (files_of_lengths_sum files (languages_of files) (languages_of_NoDup files)).
    lia.
Qed.

(** X15.  The analysis step makes, for each language of [files], one card
    and one more for each of its files up to three: between one and four
    cards for each language, no more cards than there are languages and
    files together, and none exactly when there is no file. *)
Theorem analyze_with_ai_card_count :
  forall files config w,
    exists cards w',
      analyze_with_ai files config w = (ok cards, w')
      /\ List.length cards = cards_expected files
      /\ List.length (languages_of files) <= List.length cards
      /\ List.length cards <= 4 * List.length (languages_of files)
      /\ List.length cards <= List.length (languages_of files) + List.length files
      /\ (cards = [] <-> files = []).
Proof.
  intros files config w.
  destruct (analyze_with_ai_run files config w) as (cards & w' & Hrun & _).
  exists cards, w'. split; [exact Hrun |].
  pose proof (analyze_with_ai_length files config w cards w' Hrun) as Hlen.
  destruct (cards_expected_bounds files) as (Hlo & Hhi & Hsum).
  rewrite Hlen. repeat split; try assumption.
  - intro Hnil. apply languages_of_nil_iff. rewrite Hnil in Hlen. simpl in Hlen.
    destruct (languages_of files); [reflexivity | simpl in Hlo; lia].
  - intros ->. destruct cards; [reflexivity | discriminate Hlen].
Qed.

(** ** What a run of the background job writes *)

Lemma keeps_meta_set_status : forall s, keeps_meta (AnalysisDoc.set_status s).
Proof. intros s d. repeat split. Qed.

Lemma keeps_meta_set_completed : forall cards n langs,
  keeps_meta (AnalysisDoc.set_completed cards n langs).
Proof. intros cards n langs d. repeat split. Qed.

Lemma keeps_meta_set_failed : forall msg, keeps_meta (AnalysisDoc.set_failed msg).
Proof. intros msg d. repeat split. Qed.

Lemma keeps_meta_keeps_id : forall upd, keeps_meta upd -> keeps_id upd.
Proof. intros upd H d. apply (H d). Qed.

Lemma update_first_meta : forall analysis_id upd l,
  keeps_meta upd ->
  map job_meta (update_first analysis_id upd l) = map job_meta l.
Proof.
  intros analysis_id upd l Hk. induction l as [| x l IH]; [reflexivity |].
  cbn [update_first]. destruct (String.eqb (AnalysisDoc.id x) analysis_id).
  - cbn [map]. f_equal. unfold job_meta.
    destruct (Hk x) as (-> & -> & -> & ->). reflexivity.
  - cbn [map]. rewrite IH. reflexivity.
Qed.

Lemma writes_only_refl : forall analysis_id w, writes_only analysis_id w w.
Proof. intros analysis_id w. unfold writes_only. repeat split; lia. Qed.

Lemma writes_only_trans : forall analysis_id w1 w2 w3,
  writes_only analysis_id w1 w2 -> writes_only analysis_id w2 w3 ->
  writes_only analysis_id w1 w3.
Proof.
  unfold writes_only.
  intros analysis_id w1 w2 w3 (A1 & B1 & C1 & D1 & E1 & F1 & G1)
         (A2 & B2 & C2 & D2 & E2 & F2 & G2).
  split; [congruence |]. split; [congruence |]. split; [congruence |].
  split; [lia |]. split; [congruence |]. split.
  - intros other Hne. rewrite (F2 other Hne). apply F1. exact Hne.
  - intro Hnone. destruct (G1 Hnone) as [Ha Hh].
    assert (Hnone2 : job_of analysis_id w2 = None).
    { unfold job_of. rewrite Ha. exact Hnone. }
    destruct (G2 Hnone2) as [Ha2 Hh2]. split; congruence.
Qed.

Lemma writes_only_same_store : forall analysis_id w w',
  same_store w w' -> writes_only analysis_id w w'.
Proof.
  intros analysis_id w w' (A & B & C & D & E & F). unfold writes_only.
  repeat split; try assumption.
  - rewrite B. reflexivity.
  - intros other _. unfold job_of. rewrite B. reflexivity.
Qed.

Lemma writes_only_after_update : forall analysis_id upd w,
  keeps_meta upd -> writes_only analysis_id w (after_update analysis_id upd w).
Proof.
  intros analysis_id upd w Hk.
  destruct (job_of analysis_id w) as [d |] eqn:Hjob.
  - rewrite (after_update_found _ _ _ _ Hjob). unfold writes_only.
    cbn [ai_configs background_tasks rng drawn analyses history].
    repeat split; try lia; try congruence.
    + apply update_first_meta. exact Hk.
    + intros other Hne. unfold job_of. cbn [analyses].
      apply find_update_first_other; [apply keeps_meta_keeps_id; exact Hk | exact Hne].
  - rewrite (after_update_missing _ _ _ Hjob). apply writes_only_refl.
Qed.

Lemma start_task_writes_only : forall db t w,
  writes_only (Task.analysis_id t) w (start_task db t w).
Proof.
  intros db t w.
  destruct (start_task_cases db t w) as [(e & _ & -> & _) | (_ & -> & _)].
  - apply writes_only_refl.
  - apply writes_only_after_update. apply keeps_meta_set_status.
Qed.

Lemma resume_task_writes_only : forall db env c w,
  writes_only (started_id c) w (resume_task db env c w).
Proof.
  intros db env c w.
  destruct (resume_task_cases db env c w) as (w2 & Hsame & Hcases).
  pose proof (writes_only_same_store (started_id c) w w2 Hsame) as H2.
  destruct Hcases as [[-> _] | [(_ & config & data & cards & _ & _ & ->) | (e & -> & _)]].
  - exact H2.
  - eapply writes_only_trans; [exact H2 |].
    apply writes_only_after_update. apply keeps_meta_set_completed.
  - eapply writes_only_trans; [exact H2 |].
    apply writes_only_after_update. apply keeps_meta_set_failed.
Qed.

(** The task raises only in its [except] branch, with the exception of the
    store. *)
Lemma process_repository_analysis_returns :
  forall db env repo_url user_id analysis_id w,
    match db UpdateFailed with
    | None =>
        fst (process_repository_analysis db env repo_url user_id analysis_id w) = ok tt
    | Some e =>
        fst (process_repository_analysis db env repo_url user_id analysis_id w) = ok tt
        \/ fst (process_repository_analysis db env repo_url user_id analysis_id w)
           = raise e
    end.
Proof.
  intros db env repo_url user_id analysis_id w.
  unfold process_repository_analysis, try_exceptM.
  assert (Hfail : forall e w0,
            match db UpdateFailed with
            | None => fst (process_failed db analysis_id e w0) = ok tt
            | Some e' =>
                fst (process_failed db analysis_id e w0) = ok tt
                \/ fst (process_failed db analysis_id e w0) = raise e'
            end).
  { intros e w0. rewrite process_failed_run.
    destruct (db UpdateFailed); [right |]; reflexivity. }
  assert (Hok : forall w0 : World,
            match db UpdateFailed with
            | None => fst (@inr exn unit tt, w0) = ok tt
            | Some e' =>
                fst (@inr exn unit tt, w0) = ok tt
                \/ fst (@inr exn unit tt, w0) = raise e'
            end).
  { intro w0. destruct (db UpdateFailed); [left |]; reflexivity. }
  destruct (process_body db env repo_url user_id analysis_id w) as [[e | []] wb].
  - apply Hfail.
  - apply Hok.
Qed.

Lemma find_job_same_meta : forall analysis_id l l' d,
  map job_meta l' = map job_meta l ->
  find (fun x => String.eqb (AnalysisDoc.id x) analysis_id) l = Some d ->
  exists d',
    find (fun x => String.eqb (AnalysisDoc.id x) analysis_id) l' = Some d'
    /\ job_meta d' = job_meta d.
Proof.
  intros analysis_id l. induction l as [| x l IH]; intros l' d Hmap Hfind.
  - discriminate Hfind.
  - destruct l' as [| x' l']; [discriminate Hmap |].
    cbn [map] in Hmap.
    assert (Hx : job_meta x' = job_meta x)
      by exact (f_equal (fun m => match m with a :: _ => a | [] => job_meta x end) Hmap).
    assert (Hl : map job_meta l' = map job_meta l) by exact (f_equal (@tl _) Hmap).
    cbn [find] in *.
    assert (Hid : AnalysisDoc.id x' = AnalysisDoc.id x).
    { unfold job_meta in Hx. congruence. }
    rewrite Hid. destruct (String.eqb (AnalysisDoc.id x) analysis_id).
    + injection Hfind as <-. exists x'. split; [reflexivity | exact Hx].
    + apply IH; assumption.
Qed.

(** X16.  A run of the background job writes nothing but its own job,
    whatever GitHub and the store answer: the configurations, the
    scheduled tasks and every other job are as before, no job is added or
    removed, and no job changes its id, repository, user or creation time;
    when the job is not stored the run writes nothing at all.  The run
    raises only when the write of its [except] branch raises, and then
    with the exception of the store; when the store carries that write
    out, the run returns and a stored job is left [completed] or
    [failed]. *)
Theorem run_writes_only_its_job :
  forall db env repo_url user_id analysis_id w,
    let run := process_repository_analysis db env repo_url user_id analysis_id w in
    writes_only analysis_id w (snd run)
    /\ (fst run = ok tt \/ exists e, db UpdateFailed = Some e /\ fst run = raise e)
    /\ (db UpdateFailed = None -> fst run = ok tt)
    /\ forall job, job_of analysis_id w = Some job ->
         exists job',
           job_of analysis_id (snd run) = Some job'
           /\ same_job job job'
           /\ (db UpdateFailed = None ->
               AnalysisDoc.status job' = "completed"
               \/ AnalysisDoc.status job' = "failed").
Proof.
  intros db env repo_url user_id analysis_id w. cbv zeta.
  pose proof (process_repository_analysis_returns db env repo_url user_id analysis_id w)
    as Hret.
  set (t := Task.mk repo_url user_id analysis_id).
  change (snd (process_repository_analysis db env repo_url user_id analysis_id w))
    with (run_task db env t w).
  rewrite run_task_split.
  set (w1 := start_task db t w). set (c := suspend db t w).
  assert (Hc : started_id c = analysis_id).
  { unfold c, suspend, started_id. reflexivity. }
  assert (Hw : writes_only analysis_id w (resume_task db env c w1)).
  { eapply writes_only_trans.
    - apply (start_task_writes_only db t w).
    - rewrite <- Hc. apply (resume_task_writes_only db env c w1). }
  split; [exact Hw |]. split; [| split].
  - destruct (db UpdateFailed) as [e |]; [| left; exact Hret].
    destruct Hret as [Hret | Hret]; [left; exact Hret |].
    right. exists e. split; [reflexivity | exact Hret].
  - intro Hdb. rewrite Hdb in Hret. exact Hret.
  - intros job Hjob.
    destruct Hw as (_ & _ & _ & _ & Hmeta & _).
    destruct (find_job_same_meta analysis_id (analyses w)
                (analyses (resume_task db env c w1)) job Hmeta Hjob)
      as (job' & Hfind & Hm).
    exists job'. split; [exact Hfind |]. split.
    { unfold job_meta in Hm. unfold same_job.
      injection Hm as H1 H2 H3 H4. repeat split; assumption. }
    intro Hdb.
    assert (Hstarted : exists d1, job_of analysis_id w1 = Some d1).
    { unfold w1.
      destruct (start_task_cases db t w) as [(e & _ & -> & _) | (_ & -> & _)].
      - exists job. exact Hjob.
      - eexists. apply job_of_after_update; [auto with jobs | exact Hjob]. }
    destruct Hstarted as (d1 & Hd1).
    destruct (resume_task_cases db env c w1) as (w2 & Hsame & Hcases).
    rewrite Hc in Hcases.
    assert (Hd2 : job_of analysis_id w2 = Some d1).
    { rewrite (job_of_same_store _ _ _ Hsame). exact Hd1. }
    change (job_of analysis_id (resume_task db env c w1) = Some job') in Hfind.
    destruct Hcases as [[_ (e' & He')] | [(_ & config & data & cards & _ & _ & Hrun) | (e & Hrun & _)]].
    + rewrite Hdb in He'. discriminate He'.
    + rewrite Hrun, (job_of_after_update _ _ _ d1) in Hfind;
        [| auto with jobs | exact Hd2].
      injection Hfind as <-. left. reflexivity.
    + rewrite Hrun, (job_of_after_update _ _ _ d1) in Hfind;
        [| auto with jobs | exact Hd2].
      injection Hfind as <-. right. reflexivity.
Qed.

Lemma handle_jobs_grow : forall env r w,
  exists rest,
    map job_meta (analyses (handle env r w)) = map job_meta (analyses w) ++ rest.
Proof.
  intros env r w. destruct (handle_effect env r w) as [(Ha & _) | (doc & t & H)].
  - exists []. rewrite Ha, app_nil_r. reflexivity.
  - destruct H as (_ & _ & _ & _ & Ha & _). exists [job_meta doc].
    rewrite Ha, map_app. reflexivity.
Qed.

Lemma step_jobs_grow : forall s s',
  step s s' ->
  exists rest,
    map job_meta (analyses (world s'))
    = map job_meta (analyses (world s)) ++ rest.
Proof.
  intros s s' H.
  destruct H as [env r s | db t before after s Hdb Hb
                | db env c before after s Hdb Hr | s];
    cbn [world].
  - apply handle_jobs_grow.
  - exists []. rewrite app_nil_r.
    destruct (start_task_writes_only db t (take_task before after (world s)))
      as (_ & _ & _ & _ & Hm & _).
    exact Hm.
  - exists []. rewrite app_nil_r.
    destruct (resume_task_writes_only db env c (world s)) as (_ & _ & _ & _ & Hm & _).
    exact Hm.
  - exists []. rewrite app_nil_r. reflexivity.
Qed.

(** X17.  The service never deletes or reorders a job and never changes
    the id, repository, user or creation time of one: at every later state
    the stored jobs are the earlier ones, identified as before and in the
    same order, followed by those submitted since. *)
Theorem jobs_are_kept :
  forall s s',
    reachable s s' ->
    exists rest,
      map job_meta (analyses (world s'))
      = map job_meta (analyses (world s)) ++ rest.
Proof.
  intros s s' H. induction H as [| s1 s2 _ IH Hstep].
  - exists []. rewrite app_nil_r. reflexivity.
  - destruct IH as (rest1 & H1). destruct (step_jobs_grow _ _ Hstep) as (rest2 & H2).
    exists (rest1 ++ rest2). rewrite H2, H1, app_assoc. reflexivity.
Qed.

Lemma jobs_are_kept_witness :
  exists rest,
    map job_meta (analyses (world finished_service))
    = map job_meta (analyses (world start_service)) ++ rest.
Proof.
  apply (jobs_are_kept start_service finished_service).
  exact finished_service_reachable.
Defined.

(** ** What a job stores when the repository was fetched *)

Lemma analyze_with_ai_blocks : forall files config w,
  exists cards w',
    analyze_with_ai files config w = (inr cards, w')
    /\ same_store w w'
    /\ map erase_id cards
       = flat_map (fun lang => language_block lang (files_of lang files))
           (languages_of files).
Proof.
  intros files config w. unfold analyze_with_ai, try_exceptM.
  destruct (language_cards_spec (group_by_language files) [] w)
    as (cards & w' & -> & Hs & Hcards).
  exists cards, w'. split; [reflexivity |]. split; [exact Hs |].
  rewrite group_by_language_partition in Hcards. unfold partition_by_language in Hcards.
  rewrite flat_map_partition in Hcards. exact Hcards.
Qed.

Lemma fetched_languages_listed : forall env repo_url data f,
  fetch_github_repo env repo_url = ok data ->
  In f (RepoData.files data) ->
  In (SourceFile.language f) code_languages.
Proof.
  intros env repo_url data f H Hin.
  destruct (fetch_github_repo_ok _ _ _ H) as (tree & _ & _ & _ & Hfiles & _).
  rewrite Hfiles in Hin. apply in_firstn in Hin. apply fetched_In in Hin.
  destruct Hin as (item & text & _ & Hc & _ & ->).
  unfold is_code_file in Hc. apply andb_true_iff in Hc. destruct Hc as [_ Hext].
  apply str_in_In in Hext. destruct (listed_extension _ Hext) as (Hne & Hlang & _).
  unfold source_file. cbn [SourceFile.language]. rewrite Hne. exact Hlang.
Qed.

Lemma fetched_files_at_most_20 : forall env repo_url data,
  fetch_github_repo env repo_url = ok data ->
  List.length (RepoData.files data) <= 20.
Proof.
  intros env repo_url data H.
  destruct (fetch_github_repo_ok _ _ _ H) as (tree & _ & _ & _ & Hfiles & _).
  rewrite Hfiles, length_firstn. apply Nat.le_min_l.
Qed.

Lemma insert_by_perm : forall key x l, Permutation (insert_by key x l) (x :: l).
Proof.
  intros key x l. induction l as [| y l IH]; simpl.
  - apply Permutation_refl.
  - destruct (key x <=? key y)%nat.
    + apply Permutation_refl.
    + apply perm_trans with (y :: x :: l); [apply perm_skip; exact IH | apply perm_swap].
Qed.

Lemma sort_by_perm : forall key l, Permutation (sort_by key l) l.
Proof.
  intros key l. induction l as [| x l IH]; simpl.
  - apply perm_nil.
  - apply perm_trans with (x :: sort_by key l).
    + apply insert_by_perm.
    + apply perm_skip. exact IH.
Qed.

(** [list(set(l))] holds the elements of [l], each once, in an order the
    hashes decide. *)
Lemma distinct_perm : forall env l, Permutation (distinct env l) (first_seen l).
Proof. intros env l. apply sort_by_perm. Qed.

Example distinct_order_follows_hash :
  distinct (mkEnv (session_get quiet_env) 0 (fun _ => 0)) ["py"; "c"; "py"] = ["py"; "c"]
  /\ distinct (mkEnv (session_get quiet_env) 0 String.length) ["py"; "c"; "py"]
     = ["c"; "py"].
Proof. split; reflexivity. Qed.

(** X18.  When the user is configured, the fetch succeeds and the store
    carries out the calls of the [try], the run leaves a stored job
    [completed], with no error written: [total_files] is the fetcher's
    count, [languages] lists each language of the fetched files once, in
    an order that is left open, all of them among the 14 tags of the
    fetcher, and the flashcards are the blocks of those languages in order
    of first occurrence, 34 at most. *)
Theorem fetched_repository_completes_job :
  forall db env repo_url user_id analysis_id config data job w,
    db UpdateProcessing = None ->
    db FindConfig = None ->
    db UpdateCompleted = None ->
    config_of user_id w = Some config ->
    fetch_github_repo env repo_url = ok data ->
    job_of analysis_id w = Some job ->
    exists job',
      job_of analysis_id
        (snd (process_repository_analysis db env repo_url user_id analysis_id w))
      = Some job'
      /\ AnalysisDoc.status job' = "completed"
      /\ AnalysisDoc.error job' = AnalysisDoc.error job
      /\ AnalysisDoc.total_files job' = RepoData.total_files data
      /\ Permutation (AnalysisDoc.languages job') (languages_of (RepoData.files data))
      /\ NoDup (AnalysisDoc.languages job')
      /\ (forall lang, In lang (AnalysisDoc.languages job') <->
            exists f, In f (RepoData.files data) /\ SourceFile.language f = lang)
      /\ (forall lang, In lang (AnalysisDoc.languages job') -> In lang code_languages)
      /\ List.length (AnalysisDoc.languages job') <= 14
      /\ map erase_id (AnalysisDoc.flashcards job')
         = flat_map
             (fun lang => language_block lang (files_of lang (RepoData.files data)))
             (languages_of (RepoData.files data))
      /\ List.length (AnalysisDoc.flashcards job') = cards_expected (RepoData.files data)
      /\ List.length (AnalysisDoc.flashcards job') <= 34.
Proof.
  intros db env repo_url user_id analysis_id config data job w
         Hdb1 Hdb2 Hdb3 Hc Hfetch Hjob.
  set (w1 := after_update analysis_id (AnalysisDoc.set_status "processing") w).
  destruct (analyze_with_ai_blocks (RepoData.files data) config w1)
    as (cards & w2 & Ha & Hsame & Hblocks).
  assert (Hjob1 : job_of analysis_id w1 = Some (AnalysisDoc.set_status "processing" job)).
  { apply job_of_after_update; [auto with jobs | exact Hjob]. }
  assert (Hjob2 : job_of analysis_id w2 = Some (AnalysisDoc.set_status "processing" job)).
  { rewrite (job_of_same_store _ _ _ Hsame). exact Hjob1. }
  set (upd := AnalysisDoc.set_completed cards (RepoData.total_files data)
                (distinct env (map SourceFile.language (RepoData.files data)))).
  assert (Hperm : Permutation
                    (distinct env (map SourceFile.language (RepoData.files data)))
                    (languages_of (RepoData.files data))).
  { apply distinct_perm. }
  assert (Hlangs : forall lang,
            In lang (languages_of (RepoData.files data)) <->
            exists f, In f (RepoData.files data) /\ SourceFile.language f = lang).
  { intro lang. rewrite languages_of_In, in_map_iff. split.
    - intros (f & Hf & Hin). exists f. split; assumption.
    - intros (f & Hin & Hf). exists f. split; assumption. }
  assert (Hlisted : forall lang,
            In lang (languages_of (RepoData.files data)) -> In lang code_languages).
  { intros lang Hin. apply Hlangs in Hin. destruct Hin as (f & Hin & <-).
    exact (fetched_languages_listed env repo_url data f Hfetch Hin). }
  assert (Hfourteen : List.length (languages_of (RepoData.files data)) <= 14).
  { change 14 with (List.length code_languages).
    apply NoDup_incl_length; [apply languages_of_NoDup | exact Hlisted]. }
  assert (Hlen : List.length cards = cards_expected (RepoData.files data)).
  { apply (f_equal (@List.length Flashcard.t)) in Hblocks.
    rewrite length_map, flat_map_blocks_length in Hblocks. exact Hblocks. }
  exists (upd (AnalysisDoc.set_status "processing" job)).
  split.
  { unfold process_repository_analysis, try_exceptM.
    rewrite process_body_run, Hdb1, process_rest_run, Hdb2, Hdb3.
    rewrite config_of_after_update, Hc, Hfetch. fold w1.
    unfold ok at 1. cbv beta iota. rewrite Ha. cbv beta iota. cbn [snd].
    apply job_of_after_update; [unfold upd; auto with jobs | exact Hjob2]. }
  cbn [upd AnalysisDoc.set_completed AnalysisDoc.set_status AnalysisDoc.status
       AnalysisDoc.error AnalysisDoc.total_files AnalysisDoc.languages
       AnalysisDoc.flashcards].
  set (langs := distinct env (map SourceFile.language (RepoData.files data))) in *.
  assert (Hin : forall lang,
            In lang langs <-> In lang (languages_of (RepoData.files data))).
  { intro lang. split; intro H.
    - exact (Permutation_in _ Hperm H).
    - exact (Permutation_in _ (Permutation_sym Hperm) H). }
  split; [reflexivity |]. split; [reflexivity |]. split; [reflexivity |].
  split; [exact Hperm |].
  split; [exact (Permutation_NoDup (Permutation_sym Hperm) (languages_of_NoDup _)) |].
  split; [intro lang; rewrite Hin; apply Hlangs |].
  split; [intros lang H; apply Hlisted; apply Hin; exact H |].
  split; [rewrite (Permutation_length Hperm); exact Hfourteen |].
  split; [exact Hblocks |]. split; [exact Hlen |].
  rewrite Hlen.
  destruct (cards_expected_bounds (RepoData.files data)) as (_ & _ & Hsum).
  pose proof (fetched_files_at_most_20 env repo_url data Hfetch). lia.
Qed.

Lemma fetched_repository_completes_job_witness :
  exists job',
    job_of "job-1"
      (snd (process_repository_analysis answering env_one_file hello_url "u1" "job-1"
              world_with_job))
    = Some job'
    /\ AnalysisDoc.status job' = "completed"
    /\ AnalysisDoc.error job' = AnalysisDoc.error queued_job
    /\ AnalysisDoc.total_files job' = RepoData.total_files one_file_data
    /\ Permutation (AnalysisDoc.languages job')
         (languages_of (RepoData.files one_file_data))
    /\ NoDup (AnalysisDoc.languages job')
    /\ (forall lang, In lang (AnalysisDoc.languages job') <->
          exists f, In f (RepoData.files one_file_data) /\ SourceFile.language f = lang)
    /\ (forall lang, In lang (AnalysisDoc.languages job') -> In lang code_languages)
    /\ List.length (AnalysisDoc.languages job') <= 14
    /\ map erase_id (AnalysisDoc.flashcards job')
       = flat_map
           (fun lang =>
              language_block lang (files_of lang (RepoData.files one_file_data)))
           (languages_of (RepoData.files one_file_data))
    /\ List.length (AnalysisDoc.flashcards job')
       = cards_expected (RepoData.files one_file_data)
    /\ List.length (AnalysisDoc.flashcards job') <= 34.
Proof.
  apply (fetched_repository_completes_job answering env_one_file hello_url "u1"
           "job-1" sample_config one_file_data queued_job world_with_job);
    reflexivity.
Defined.

(** ** The stored jobs of the running service *)

















(** ** When the fetch succeeds *)

Lemma fetch_tree_raising_item : forall env owner repo tree files item e,
  In item (filter is_code_file tree) ->
  content_outcome env owner repo item = Raised e ->
  exists e', fetch_tree env owner repo tree files = raise e'.
Proof.
  intros env owner repo tree. induction tree as [| x tree IH];
    intros files item e Hin Ho.
  - destruct Hin.
  - cbn [filter] in Hin. cbn [fetch_tree]. destruct (is_code_file x) eqn:Hc.
    + rewrite fetch_item_outcome.
      destruct (content_outcome env owner repo x) as [e1 | | text] eqn:Hox;
        cbn [bind_result raise ok].
      * exists e1. reflexivity.
      * destruct Hin as [<- | Hin]; [congruence |]. exact (IH _ item e Hin Ho).
      * destruct Hin as [<- | Hin]; [congruence |]. exact (IH _ item e Hin Ho).
    + exact (IH _ item e Hin Ho).
Qed.

(** X21.  The fetch succeeds exactly when the URL gives an owner and a
    repository, the API lists the tree of that repository, and no content
    call of a matching entry raises; it then returns the first 20 fetched
    files and the number of all of them. *)
Theorem fetch_succeeds_exactly_when :
  forall env repo_url data,
    fetch_github_repo env repo_url = ok data <->
    exists owner repo tree,
      parse_repo_url repo_url = ok (owner, repo)
      /\ listed_tree env owner repo = Some tree
      /\ no_call_raises env owner repo tree
      /\ data = RepoData.mk owner repo (firstn 20 (fetched env owner repo tree))
                  (List.length (fetched env owner repo tree)).
Proof.
  intros env repo_url data. split.
  - intro H. destruct (fetch_github_repo_ok _ _ _ H) as (tree & Hp & Hl & Ht & Hf & Hn).
    exists (RepoData.owner data), (RepoData.repo data), tree.
    split; [exact Hp |]. split; [exact Hl |]. split.
    + intros item Hin e Ho.
      destruct (fetch_tree_raising_item _ _ _ _ [] item e Hin Ho) as (e' & He).
      rewrite He in Ht. discriminate Ht.
    + destruct data as [owner repo files total]. cbn in Hf, Hn. rewrite Hf, Hn.
      reflexivity.
  - intros (owner & repo & tree & Hp & Hl & Hn & ->).
    apply fetch_github_repo_succeeds; assumption.
Qed.
